(** * Qt Designer object inspector: the model behind the object tree

    A shallow embedding of [objectinspectormodel.cpp] (namespace
    [qdesigner_internal]): the flat snapshot of a form's object graph
    ([ObjectData], [ObjectModel], [createModelRecursion]), the item model
    that presents it ([ObjectInspectorModel]) and the two ways a new
    snapshot reaches the presentation tree ([rebuild], [updateItemContents]).

    Pointers are addresses in [Z] with [nullptr = 0]; the host side (the
    [QObject] graph, the widget and meta data bases, the extension manager,
    the form window) is a record of observation functions; the
    [QStandardItemModel] base class is a tree of rows addressed by paths.

    Two smaller pieces follow the model: the [Selection] of the object
    inspector ([qdesigner_objectinspector.cpp]) and the expansion of
    [@file] arguments by qdoc ([qdoccommandlineparser.cpp]). *)

From stdpp Require Import gmap strings list.
From Stdlib Require Import ZArith Lia.

Open Scope Z_scope.
Open Scope string_scope.
Open Scope list_scope.
Open Scope nat_scope.

(** ** Results of code that can assert or recurse without bound *)

Inductive Res (A : Type) : Type :=
| Ok (a : A)
| Fault                (* a Q_ASSERT fails or a null pointer is dereferenced *)
| OutOfFuel.           (* the recursion budget of the embedding is used up *)
Arguments Ok {A} a.
Arguments Fault {A}.
Arguments OutOfFuel {A}.

Definition bind {A B} (m : Res A) (f : A -> Res B) : Res B :=
  match m with
  | Ok a => f a
  | Fault => Fault
  | OutOfFuel => OutOfFuel
  end.

Notation "'do' x <- m ; f" := (bind m (fun x => f))
  (at level 10, x pattern, m at level 100, f at level 200).

(** A range-based [for] whose body can fail: the state is threaded through
    the elements in order. *)
Fixpoint forEach {A S} (body : A -> S -> Res S) (l : list A) (s : S) : Res S :=
  match l with
  | [] => Ok s
  | x :: l' => do s' <- body x s; forEach body l' s'
  end.

(** ** Toolkit values *)

(** A [QObject *] (and every pointer to a subclass) is its address. *)
Definition nullptr : Z := 0%Z.

(** A [QIcon] is observed only through [isNull] and [cacheKey]; a null icon
    has cache key 0. *)
Inductive QIcon := NullIcon | Icon (key : Z).

Definition isNull (i : QIcon) : bool :=
  match i with NullIcon => true | Icon _ => false end.
Definition cacheKey (i : QIcon) : Z :=
  match i with NullIcon => 0%Z | Icon k => k end.

#[global] Instance QIcon_eq_dec : EqDecision QIcon.
Proof. solve_decision. Defined.

Definition sameIcon (i1 i2 : QIcon) : bool :=
  if isNull i1 && isNull i2 then true
  else if negb (Bool.eqb (isNull i1) (isNull i2)) then false
  else (cacheKey i1 =? cacheKey i2)%Z.

(** [LayoutInfo::Type], the layout kinds the icon table of the model knows. *)
Inductive LayoutInfoType :=
  NoLayout | HSplitter | VSplitter | HBox | VBox | Grid | Form.

#[global] Instance LayoutInfoType_eq_dec : EqDecision LayoutInfoType.
Proof. solve_decision. Defined.

(** ** ObjectData *)

(** Modelled from the spec: the declarations of [objectinspectormodel_p.h]
    are not among the sources.  The type tag ranges over the closed set
    {Object, Action, SeparatorAction, ChildWidget, LayoutWidget,
    LayoutableContainer, ExtensionContainer}. *)
Inductive ObjectDataType :=
  Object | Action | SeparatorAction | ChildWidget
| LayoutableContainer | LayoutWidget | ExtensionContainer.

#[global] Instance ObjectDataType_eq_dec : EqDecision ObjectDataType.
Proof. solve_decision. Defined.

(** Modelled from the spec: [ObjectData::ChangedMask] of the same header,
    the change bitmask of [compare]: one bit per display attribute. *)
Definition ClassNameChanged : Z := 1.
Definition ObjectNameChanged : Z := 2.
Definition ClassIconChanged : Z := 4.
Definition TypeChanged : Z := 8.
Definition LayoutTypeChanged : Z := 16.

Record ObjectData := mkObjectData {
  m_parent : Z;
  m_object : Z;
  m_type : ObjectDataType;
  m_className : string;
  m_objectName : string;
  m_classIcon : QIcon;
  m_managedLayoutType : LayoutInfoType
}.

#[global] Instance ObjectData_eq_dec : EqDecision ObjectData.
Proof. solve_decision. Defined.

(** Modelled from the spec: [ObjectData::ObjectData() = default] leaves
    the in-class initialisers of the header, which is not among the
    sources: null references, the first type tag, empty strings, a null
    icon and no managed layout kind. *)
Definition ObjectData_default : ObjectData :=
  mkObjectData nullptr nullptr Object "" "" NullIcon NoLayout.

Definition set_type (t : ObjectDataType) (d : ObjectData) : ObjectData :=
  mkObjectData (m_parent d) (m_object d) t (m_className d) (m_objectName d)
               (m_classIcon d) (m_managedLayoutType d).
Definition set_className (s : string) (d : ObjectData) : ObjectData :=
  mkObjectData (m_parent d) (m_object d) (m_type d) s (m_objectName d)
               (m_classIcon d) (m_managedLayoutType d).
Definition set_objectName (s : string) (d : ObjectData) : ObjectData :=
  mkObjectData (m_parent d) (m_object d) (m_type d) (m_className d) s
               (m_classIcon d) (m_managedLayoutType d).
Definition set_classIcon (i : QIcon) (d : ObjectData) : ObjectData :=
  mkObjectData (m_parent d) (m_object d) (m_type d) (m_className d)
               (m_objectName d) i (m_managedLayoutType d).
Definition set_managedLayoutType (t : LayoutInfoType) (d : ObjectData) : ObjectData :=
  mkObjectData (m_parent d) (m_object d) (m_type d) (m_className d)
               (m_objectName d) (m_classIcon d) t.

(** [bool ObjectData::equals(const ObjectData &me) const] *)
Definition equals (d me : ObjectData) : bool :=
  (m_parent d =? m_parent me)%Z && (m_object d =? m_object me)%Z.

(** [unsigned ObjectData::compare(const ObjectData &rhs) const] *)
Definition compare (d rhs : ObjectData) : Z :=
  let rc := 0%Z in
  let rc := if bool_decide (m_className d ≠ m_className rhs)
            then Z.lor rc ClassNameChanged else rc in
  let rc := if bool_decide (m_objectName d ≠ m_objectName rhs)
            then Z.lor rc ObjectNameChanged else rc in
  let rc := if negb (sameIcon (m_classIcon d) (m_classIcon rhs))
            then Z.lor rc ClassIconChanged else rc in
  let rc := if bool_decide (m_type d ≠ m_type rhs)
            then Z.lor rc TypeChanged else rc in
  let rc := if bool_decide (m_managedLayoutType d ≠ m_managedLayoutType rhs)
            then Z.lor rc LayoutTypeChanged else rc in
  rc.

(** The identity of an entry and its display attributes, as the data model
    separates them. *)
Definition identity (d : ObjectData) : Z * Z := (m_parent d, m_object d).

Definition attributes (d : ObjectData)
  : string * string * QIcon * ObjectDataType * LayoutInfoType :=
  (m_className d, m_objectName d, m_classIcon d, m_type d, m_managedLayoutType d).

(** ** The host: object graph, data bases, extensions, form window *)

(** [QDesignerWidgetDataBaseItemInterface], as far as [initWidget] reads it. *)
Record WidgetDataBaseItem := mkWidgetDataBaseItem {
  wdb_icon : QIcon;
  wdb_name : string;
  wdb_isContainer : bool
}.

(** Everything the model observes of its environment.  Each field is one
    call of the source; a pointer-valued call yields [nullptr] where the
    source gets a null pointer. *)
Record Host := mkHost {
  (* QObject *)
  children : Z -> list Z;               (* object->children() *)
  isWidgetType : Z -> bool;             (* object->isWidgetType() *)
  metaObject : Z -> Z;                  (* object->metaObject() *)
  className : Z -> string;              (* metaObject->className() *)
  objectName : Z -> string;             (* object->objectName() *)
  QLayoutWidget_staticMetaObject : Z;   (* &QLayoutWidget::staticMetaObject *)
  qobject_cast_QAction : Z -> bool;     (* qobject_cast<QAction*>(o) != nullptr *)
  qobject_cast_QButtonGroup : Z -> bool;
  (* QAction *)
  isSeparator : Z -> bool;
  icon : Z -> QIcon;
  menu : Z -> Z;
  (* QWidget *)
  layout : Z -> Z;
  actions : Z -> list Z;
  (* QDesignerFormEditorInterface: data bases, extension manager, LayoutInfo *)
  widgetDataBase_item : Z -> option WidgetDataBaseItem;
                                        (* db->item(db->indexOfObject(w, true)) *)
  metaDataBase_item : Z -> bool;        (* mdb->item(o) != nullptr *)
  qt_extension_QDesignerContainerExtension : Z -> option (list Z);
                                        (* the pages widget(0) .. widget(count()-1) *)
  layoutType : Z -> LayoutInfoType;     (* LayoutInfo::layoutType(core, layout) *)
  managedLayoutType : Z -> LayoutInfoType;
  (* QDesignerFormWindowInterface *)
  mainContainer : Z -> Z;               (* fw->mainContainer() *)
  isManaged : Z -> Z -> bool;           (* fwi->isManaged(widget) *)
  (* QCoreApplication::translate(context, sourceText) *)
  translate : string -> string -> string
}.

Definition isQLayoutWidget (h : Host) (o : Z) : bool :=
  (metaObject h o =? QLayoutWidget_staticMetaObject h)%Z.

(** [struct ModelRecursionContext]; [core], [db] and [mdb] are the host. *)
Record ModelRecursionContext := mkModelRecursionContext {
  designerPrefix : string;
  separator : string
}.

Definition ModelRecursionContext_new (sepName : string) : ModelRecursionContext :=
  mkModelRecursionContext "QDesigner" sepName.

(** [QString::remove(position, n)] *)
Definition QString_remove (position n : nat) (s : string) : string :=
  String.append (String.substring 0 position s)
    (String.substring (position + n) (String.length s - (position + n)) s).

(** [void ObjectData::initObject(const ModelRecursionContext &ctx)] *)
Definition initObject (h : Host) (ctx : ModelRecursionContext) (d : ObjectData)
  : ObjectData :=
  if qobject_cast_QAction h (m_object d) then
    let act := m_object d in
    let d := if isSeparator h act
             then set_type SeparatorAction (set_objectName (separator ctx) d)
             else set_type Action d in
    set_classIcon (icon h act) d
  else set_type Object d.

(** [void ObjectData::initWidget(QWidget *w, const ModelRecursionContext &ctx)] *)
Definition initWidget (h : Host) (w : Z) (d : ObjectData) : ObjectData :=
  let isContainer := false in
  let '(d, isContainer) :=
    match widgetDataBase_item h w with
    | Some widgetItem =>
        (set_className (wdb_name widgetItem)
           (set_classIcon (wdb_icon widgetItem) d),
         wdb_isContainer widgetItem)
    | None => (d, isContainer)
    end in
  if isQLayoutWidget h w then
    let layout := layout h w in
    if bool_decide (layout ≠ nullptr) then
      set_objectName (objectName h layout)
        (set_className (className h (metaObject h layout))
           (set_managedLayoutType (layoutType h layout)
              (set_type LayoutWidget d)))
    else d
  else if qt_extension_QDesignerContainerExtension h w is Some _ then
    set_type ExtensionContainer d
  else if isContainer then
    set_managedLayoutType (managedLayoutType h w)
      (set_type LayoutableContainer d)
  else set_type ChildWidget d.

(** [ObjectData::ObjectData(QObject *parent, QObject *object,
                            const ModelRecursionContext &ctx)] *)
Definition ObjectData_new (h : Host) (parent object : Z)
    (ctx : ModelRecursionContext) : ObjectData :=
  let d := mkObjectData parent object (m_type ObjectData_default)
             (className h (metaObject h object)) (objectName h object)
             (m_classIcon ObjectData_default)
             (m_managedLayoutType ObjectData_default) in
  let d := if isWidgetType h object then initWidget h object d
           else initObject h ctx d in
  if String.prefix (designerPrefix ctx) (m_className d)
  then set_className
         (QString_remove 1 (String.length (designerPrefix ctx) - 1) (m_className d)) d
  else d.

(** Modelled from the spec: [using ObjectModel = QList<ObjectData>] and the
    [operator==] of [ObjectData] are declared in [objectinspectormodel_p.h],
    which is not among the sources.  Equality between two snapshots is
    structural, the same sequence of identity pairs: the operator on
    entries is [equals] (the source says of it that it compares the object
    pointers), and list equality compares lengths and then entry by entry. *)
Abbreviation ObjectModel := (list ObjectData).

Fixpoint ObjectModel_eq (a b : ObjectModel) : bool :=
  match a, b with
  | [], [] => true
  | x :: a', y :: b' => equals x y && ObjectModel_eq a' b'
  | _, _ => false
  end.

(** ** The snapshot builder *)

(** [void createModelRecursion(fwi, parent, object, model, ctx)].  The
    source recurses along the object graph without a bound of its own;
    [fuel] bounds the depth here. *)
Fixpoint createModelRecursion (fuel : nat) (h : Host) (fwi : Z)
    (parent object : Z) (model : ObjectModel) (ctx : ModelRecursionContext)
  : Res ObjectModel :=
  match fuel with
  | O => OutOfFuel
  | S fuel =>
    (* 1) Create entry *)
    let entry := ObjectData_new h parent object ctx in
    let model := model ++ [entry] in
    (* 2) recurse over widget children via container extension or children list *)
    do (containerExtension, model) <-
      (if bool_decide (m_type entry = ExtensionContainer) then
         match qt_extension_QDesignerContainerExtension h object with
         | None => Fault                (* Q_ASSERT(containerExtension) *)
         | Some pages =>
             do model <-
               forEach (fun page model =>
                          if bool_decide (page ≠ nullptr)   (* Q_ASSERT(page != nullptr) *)
                          then createModelRecursion fuel h fwi object page model ctx
                          else Fault)
                       pages model;
             Ok (true, model)
         end
       else Ok (false, model));
    do model <-
      (if negb (bool_decide (children h object = [])) then
         do (model, buttonGroups) <-
           forEach (fun childObject '(model, buttonGroups) =>
                      (* Managed child widgets unless we had a container extension *)
                      if isWidgetType h childObject then
                        if negb containerExtension then
                          let widget := childObject in
                          if isManaged h fwi widget then
                            do model <- createModelRecursion fuel h fwi object widget model ctx;
                            Ok (model, buttonGroups)
                          else Ok (model, buttonGroups)
                        else Ok (model, buttonGroups)
                      else
                        if metaDataBase_item h childObject then
                          if qobject_cast_QButtonGroup h childObject
                          then Ok (model, buttonGroups ++ [childObject])
                          else Ok (model, buttonGroups)
                        else Ok (model, buttonGroups))
                   (children h object) (model, []);
         (* Add button groups *)
         if negb (bool_decide (buttonGroups = [])) then
           forEach (fun group model =>
                      createModelRecursion fuel h fwi object group model ctx)
                   buttonGroups model
         else Ok model
       else Ok model);
    if isWidgetType h object then
      (* Add actions *)
      forEach (fun action model =>
                 if metaDataBase_item h action then
                   let childObject := action in
                   let childObject :=
                     if bool_decide (menu h action ≠ nullptr)
                     then menu h action else childObject in
                   createModelRecursion fuel h fwi object childObject model ctx
                 else Ok model)
              (actions h object) model
    else Ok model
  end.

(** ** The item model base class *)

(** [Qt::ItemDataRole] and the private [DataRole] of the file. *)
Definition DisplayRole : Z := 0.
Definition DecorationRole : Z := 1.
Definition EditRole : Z := 2.
Definition ToolTipRole : Z := 3.
Definition DataRole : Z := 1000.

(** [Qt::ItemFlag] *)
Definition ItemIsSelectable : Z := 1.
Definition ItemIsEditable : Z := 2.
Definition ItemIsDropEnabled : Z := 8.
Definition ItemIsEnabled : Z := 32.

(** The [QVariant] payloads that occur in this model. *)
Inductive QVariant :=
| Invalid
| VString (s : string)
| VIcon (i : QIcon)
| VObject (o : Z).

#[global] Instance QVariant_eq_dec : EqDecision QVariant.
Proof. solve_decision. Defined.

Definition toString (v : QVariant) : string :=
  match v with VString s => s | _ => "" end.

(** [qvariant_cast<QObject *>] *)
Definition qvariant_cast_QObject (v : QVariant) : Z :=
  match v with VObject o => o | _ => nullptr end.

(** A [QStandardItem]: its flags and the values it stores per role. *)
Record QStandardItem := mkQStandardItem {
  it_flags : Z;
  it_display : QVariant;      (* Qt::DisplayRole, shared with Qt::EditRole *)
  it_decoration : QVariant;   (* Qt::DecorationRole *)
  it_toolTip : QVariant;      (* Qt::ToolTipRole *)
  it_user : QVariant          (* DataRole *)
}.

#[global] Instance QStandardItem_eq_dec : EqDecision QStandardItem.
Proof. solve_decision. Defined.

Definition QStandardItem_new : QStandardItem :=
  mkQStandardItem 0 Invalid Invalid Invalid Invalid.

Definition setFlags (f : Z) (it : QStandardItem) : QStandardItem :=
  mkQStandardItem f (it_display it) (it_decoration it) (it_toolTip it) (it_user it).
Definition setText (s : string) (it : QStandardItem) : QStandardItem :=
  mkQStandardItem (it_flags it) (VString s) (it_decoration it) (it_toolTip it) (it_user it).
Definition setIcon (i : QIcon) (it : QStandardItem) : QStandardItem :=
  mkQStandardItem (it_flags it) (it_display it) (VIcon i) (it_toolTip it) (it_user it).
Definition setToolTip (s : string) (it : QStandardItem) : QStandardItem :=
  mkQStandardItem (it_flags it) (it_display it) (it_decoration it) (VString s) (it_user it).
Definition setItemData (v : QVariant) (it : QStandardItem) : QStandardItem :=
  mkQStandardItem (it_flags it) (it_display it) (it_decoration it) (it_toolTip it) v.

(** [QStandardItem::data(role)] on the roles that this file reads and
    writes; the edit role reads the display value.  The flags of an item
    are the field [it_flags], read by [flags()]; that the toolkit also
    keeps them as item data under a role of its own is not modelled. *)
Definition item_data (it : QStandardItem) (role : Z) : QVariant :=
  if (role =? DisplayRole)%Z || (role =? EditRole)%Z then it_display it
  else if (role =? DecorationRole)%Z then it_decoration it
  else if (role =? ToolTipRole)%Z then it_toolTip it
  else if (role =? DataRole)%Z then it_user it
  else Invalid.

Abbreviation StandardItemList := (list QStandardItem).

(** A row of the tree: its items, one per column, and the rows appended
    below its first item (the only item this model appends to). *)
#[warnings="-register-all"] Inductive Row := mkRow (cells : StandardItemList) (childRows : list Row).

Definition cells (r : Row) : StandardItemList := let 'mkRow c _ := r in c.
Definition childRows (r : Row) : list Row := let 'mkRow _ k := r in k.

(** A [QModelIndex]: the row numbers from the top level down, and a column. *)
Inductive QModelIndex :=
| InvalidIndex                              (* QModelIndex() *)
| Index (path : list nat) (column : nat).

#[global] Instance QModelIndex_eq_dec : EqDecision QModelIndex.
Proof. solve_decision. Defined.

Definition isValid (i : QModelIndex) : bool :=
  match i with InvalidIndex => false | Index _ _ => true end.

Fixpoint lookupRow (path : list nat) (rs : list Row) : option Row :=
  match path with
  | [] => None
  | i :: path' =>
      match rs !! i with
      | None => None
      | Some r => match path' with
                  | [] => Some r
                  | _ => lookupRow path' (childRows r)
                  end
      end
  end.

Fixpoint alterRow (f : Row -> Row) (path : list nat) (rs : list Row) : list Row :=
  match path with
  | [] => rs
  | i :: path' =>
      alter (fun r => match path' with
                      | [] => f r
                      | _ => mkRow (cells r) (alterRow f path' (childRows r))
                      end) i rs
  end.

Fixpoint rowCount (r : Row) : nat :=
  S (list_sum (map rowCount (childRows r))).

(** All rows of the tree, at every depth. *)
Definition totalRows (rs : list Row) : nat := list_sum (map rowCount rs).

(** [QStandardItemModel::itemFromIndex] *)
Definition itemFromIndex (rs : list Row) (index : QModelIndex) : option QStandardItem :=
  match index with
  | InvalidIndex => None
  | Index path column =>
      match lookupRow path rs with
      | Some r => cells r !! column
      | None => None
      end
  end.

(** [QStandardItemModel::data] *)
Definition QStandardItemModel_data (rs : list Row) (index : QModelIndex) (role : Z)
  : QVariant :=
  match itemFromIndex rs index with
  | Some it => item_data it role
  | None => Invalid
  end.

(** [QStandardItem::appendRow] on the item at [path]. *)
Definition appendRow (path : list nat) (row : StandardItemList) (rs : list Row)
  : list Row :=
  alterRow (fun r => mkRow (cells r) (childRows r ++ [mkRow row []])) path rs.

(** ** ObjectInspectorModel *)

(** Modelled from the spec: the column and result enumerations of
    [objectinspectormodel_p.h] are not among the sources.  The tree has the
    two columns whose headers the constructor sets, the name column first;
    [update] reports "no form", a rebuild, or an in-place update. *)
Definition ObjectNameColumn : nat := 0.
Definition ClassNameColumn : nat := 1.
Definition NumColumns : nat := 2.

Inductive UpdateResult := NoForm | Rebuilt | Updated.

#[global] Instance UpdateResult_eq_dec : EqDecision UpdateResult.
Proof. solve_decision. Defined.

(** [QMultiMap<QObject *, QModelIndex>]: the values of one key are kept
    most recently inserted first. *)
Abbreviation ObjectIndexMultiMap := (list (Z * QModelIndex)).

Definition multimap_insert (k : Z) (v : QModelIndex) (m : ObjectIndexMultiMap)
  : ObjectIndexMultiMap := (k, v) :: m.

Definition multimap_values (k : Z) (m : ObjectIndexMultiMap) : list QModelIndex :=
  map snd (filter (fun kv => fst kv = k) m).

Definition multimap_value (k : Z) (defaultValue : QModelIndex)
    (m : ObjectIndexMultiMap) : QModelIndex :=
  match multimap_values k m with
  | v :: _ => v
  | [] => defaultValue
  end.

Record ObjectInspectorModel := mkObjectInspectorModel {
  items : list Row;                          (* the rows of the base class *)
  m_icons : LayoutInfoType -> QIcon;         (* m_icons.layoutIcons[] *)
  m_objectIndexMultiMap : ObjectIndexMultiMap;
  m_model : ObjectModel;
  m_formWindow : Z
}.

Definition set_items (rs : list Row) (st : ObjectInspectorModel) :=
  mkObjectInspectorModel rs (m_icons st) (m_objectIndexMultiMap st)
                         (m_model st) (m_formWindow st).
Definition set_objectIndexMultiMap (m : ObjectIndexMultiMap) (st : ObjectInspectorModel) :=
  mkObjectInspectorModel (items st) (m_icons st) m (m_model st) (m_formWindow st).
Definition set_model (m : ObjectModel) (st : ObjectInspectorModel) :=
  mkObjectInspectorModel (items st) (m_icons st) (m_objectIndexMultiMap st)
                         m (m_formWindow st).
Definition set_formWindow (fw : Z) (st : ObjectInspectorModel) :=
  mkObjectInspectorModel (items st) (m_icons st) (m_objectIndexMultiMap st)
                         (m_model st) fw.

(** [ObjectInspectorModel::ObjectInspectorModel]: no rows, the layout icons
    loaded by [createIconSet], no snapshot, no form window. *)
Definition ObjectInspectorModel_new (createIconSet : string -> QIcon)
  : ObjectInspectorModel :=
  mkObjectInspectorModel []
    (fun t => match t with
              | NoLayout => createIconSet "editbreaklayout.png"
              | HSplitter => createIconSet "edithlayoutsplit.png"
              | VSplitter => createIconSet "editvlayoutsplit.png"
              | HBox => createIconSet "edithlayout.png"
              | VBox => createIconSet "editvlayout.png"
              | Grid => createIconSet "editgrid.png"
              | Form => createIconSet "editform.png"
              end)
    [] [] nullptr.

Definition isNameColumnEditable (o : Z) : bool := true.

(** [createModelRow]: one fresh item per column. *)
Definition createModelRow (o : Z) : StandardItemList :=
  let baseFlags := Z.lor (Z.lor ItemIsSelectable ItemIsDropEnabled) ItemIsEnabled in
  map (fun i =>
         let flags := baseFlags in
         let flags := if (i =? ObjectNameColumn) && isNameColumnEditable o
                      then Z.lor flags ItemIsEditable else flags in
         setFlags flags QStandardItem_new)
      (seq 0 NumColumns).

(** [ObjectData::setItemsDisplayData(row, icons, mask)]; the items of [row]
    are written through [row[column]]. *)
Definition setItemsDisplayData (d : ObjectData) (row : StandardItemList)
    (icons : LayoutInfoType -> QIcon) (mask : Z) : StandardItemList :=
  let row := if bool_decide (Z.land mask ObjectNameChanged ≠ 0%Z)
             then alter (setText (m_objectName d)) ObjectNameColumn row
             else row in
  let row := if bool_decide (Z.land mask ClassNameChanged ≠ 0%Z)
             then alter (setToolTip (m_className d)) ClassNameColumn
                    (alter (setText (m_className d)) ClassNameColumn row)
             else row in
  if bool_decide (Z.land mask (Z.lor (Z.lor ClassIconChanged TypeChanged)
                                     LayoutTypeChanged) ≠ 0%Z) then
    match m_type d with
    | LayoutWidget =>
        alter (setIcon (icons (m_managedLayoutType d))) ClassNameColumn
          (alter (setIcon (icons (m_managedLayoutType d))) ObjectNameColumn row)
    | LayoutableContainer =>
        alter (setIcon (m_classIcon d)) ClassNameColumn
          (alter (setIcon (icons (m_managedLayoutType d))) ObjectNameColumn row)
    | _ =>
        alter (setIcon (m_classIcon d)) ClassNameColumn
          (alter (setIcon NullIcon) ObjectNameColumn row)
    end
  else row.

Definition allChanged : Z :=
  Z.lor (Z.lor (Z.lor (Z.lor ClassNameChanged ObjectNameChanged) ClassIconChanged)
               TypeChanged) LayoutTypeChanged.

(** [ObjectData::setItems(row, icons)] *)
Definition setItems (d : ObjectData) (row : StandardItemList)
    (icons : LayoutInfoType -> QIcon) : StandardItemList :=
  let object := VObject (m_object d) in
  let row := alter (setItemData object) ObjectNameColumn row in
  let row := alter (setItemData object) ClassNameColumn row in
  setItemsDisplayData d row icons allChanged.

(** [ObjectInspectorModel::clearItems]: the reset signals carry no state;
    [removeRow(0)] takes the first top-level row with everything below it. *)
Definition clearItems (st : ObjectInspectorModel) : ObjectInspectorModel :=
  let st := set_objectIndexMultiMap [] st in
  let st := set_model [] st in
  set_items (drop 1 (items st)) st.

(** [ObjectInspectorModel::objectAt] *)
Definition objectAt (st : ObjectInspectorModel) (index : QModelIndex) : Z :=
  if isValid index then
    match itemFromIndex (items st) index with
    | Some item => qvariant_cast_QObject (item_data item DataRole)
    | None => nullptr
    end
  else nullptr.

(** [ObjectInspectorModel::rowAt]: the items of the row of [index], from the
    column of [index] on. *)
Definition rowAt (rs : list Row) (index : QModelIndex) : StandardItemList :=
  match index with
  | InvalidIndex => []
  | Index path column =>
      match lookupRow path rs with
      | Some r => drop column (cells r)
      | None => []
      end
  end.

(** Writing through the item pointers that [rowAt] returned. *)
Definition writeRowAt (index : QModelIndex) (f : StandardItemList -> StandardItemList)
    (rs : list Row) : list Row :=
  match index with
  | InvalidIndex => rs
  | Index path column =>
      alterRow (fun r => mkRow (take column (cells r) ++ f (drop column (cells r)))
                               (childRows r)) path rs
  end.

(** One step of the loop of [rebuild]: add the row of [it] to its parent
    item, found via the map. *)
Definition rebuild_step (it : ObjectData) (st : ObjectInspectorModel)
  : Res ObjectInspectorModel :=
  let parentIndex := multimap_value (m_parent it) InvalidIndex (m_objectIndexMultiMap st) in
  if isValid parentIndex then                       (* Q_ASSERT(parentIndex.isValid()) *)
    match parentIndex with
    | Index path _ =>
        match lookupRow path (items st) with        (* parentItem = itemFromIndex(..) *)
        | Some parentItem =>
            let row := createModelRow (m_object it) in
            let row := setItems it row (m_icons st) in
            let st := set_items (appendRow path row (items st)) st in
            let index := Index (path ++ [length (childRows parentItem)]) 0 in
            Ok (set_objectIndexMultiMap
                  (multimap_insert (m_object it) index (m_objectIndexMultiMap st)) st)
        | None => Fault
        end
    | InvalidIndex => Fault
    end
  else Fault.

(** [ObjectInspectorModel::rebuild] *)
Definition rebuild (newModel : ObjectModel) (st : ObjectInspectorModel)
  : Res ObjectInspectorModel :=
  let st := clearItems st in
  match newModel with
  | [] => Ok st
  | it :: rest =>
      (* Set up root element *)
      let rootRow := createModelRow (m_object it) in
      let rootRow := setItems it rootRow (m_icons st) in
      let index := Index [length (items st)] 0 in
      let st := set_items (items st ++ [mkRow rootRow []]) st in
      let st := set_objectIndexMultiMap
                  (multimap_insert (m_object it) index (m_objectIndexMultiMap st)) st in
      forEach rebuild_step rest st
  end.

(** The loop of [updateItemContents] carries the old snapshot (patched in
    place), the set of objects already handled, the tree, and, as a record
    of what was done, the calls [entry.setItemsDisplayData(rowAt(index),
    m_icons, changedMask)] made so far. *)
Abbreviation PatchCall := (QModelIndex * ObjectData * Z)%type.

Record PatchState := mkPatchState {
  ps_oldModel : ObjectModel;
  ps_changedObjects : gset Z;
  ps_items : list Row;
  ps_calls : list PatchCall
}.

Definition updateItemContents_step (icons : LayoutInfoType -> QIcon)
    (indexMap : ObjectIndexMultiMap) (newModel : ObjectModel)
    (s : PatchState) (i : nat) : PatchState :=
  match newModel !! i, ps_oldModel s !! i with
  | Some newEntry, Some entry =>
      (* Has some data changed? *)
      let changedMask := compare entry newEntry in
      if bool_decide (changedMask ≠ 0%Z) then
        let entry := newEntry in
        let oldModel := <[i := entry]> (ps_oldModel s) in
        let o := m_object entry in
        if bool_decide (o ∈ ps_changedObjects s) then
          mkPatchState oldModel (ps_changedObjects s) (ps_items s) (ps_calls s)
        else
          let changedObjects := {[o]} ∪ ps_changedObjects s in
          let indexes := multimap_values o indexMap in
          mkPatchState oldModel changedObjects
            (foldl (fun rs index =>
                      writeRowAt index
                        (fun row => setItemsDisplayData entry row icons changedMask) rs)
                   (ps_items s) indexes)
            (ps_calls s ++ map (fun index => (index, entry, changedMask)) indexes)
      else s
  | _, _ => s
  end.

(** [ObjectInspectorModel::updateItemContents(m_model, newModel)] *)
Definition updateItemContents (newModel : ObjectModel) (st : ObjectInspectorModel)
  : Res (ObjectInspectorModel * list PatchCall) :=
  let size := length newModel in
  if bool_decide (length (m_model st) = size) then      (* Q_ASSERT *)
    let s := foldl (updateItemContents_step (m_icons st) (m_objectIndexMultiMap st) newModel)
                   (mkPatchState (m_model st) ∅ (items st) [])
                   (seq 0 size) in
    Ok (set_items (ps_items s) (set_model (ps_oldModel s) st), ps_calls s)
  else Fault.

(** [ObjectInspectorModel::update].  The translated separator name is a
    function-local static of the source; the translation is taken to be the
    same at every call. *)
Definition update (fuel : nat) (h : Host) (fw : Z) (st : ObjectInspectorModel)
  : Res (UpdateResult * ObjectInspectorModel) :=
  let mainContainer := if bool_decide (fw ≠ nullptr) then mainContainer h fw
                       else nullptr in
  if bool_decide (mainContainer = nullptr) then
    let st := clearItems st in
    let st := set_formWindow nullptr st in
    Ok (NoForm, st)
  else
    let st := set_formWindow fw st in
    (* Build new model and compare to previous one. *)
    let newModel : ObjectModel := [] in
    let separator := translate h "ObjectInspectorModel" "separator" in
    let ctx := ModelRecursionContext_new separator in
    do newModel <- createModelRecursion fuel h fw nullptr mainContainer newModel ctx;
    if ObjectModel_eq newModel (m_model st) then
      do (st, _) <- updateItemContents newModel st;
      Ok (Updated, st)
    else
      do st <- rebuild newModel st;
      let st := set_model newModel st in
      Ok (Rebuilt, st).

(** [ObjectInspectorModel::data] *)
Definition data (h : Host) (st : ObjectInspectorModel) (index : QModelIndex) (role : Z)
  : QVariant :=
  let rc := QStandardItemModel_data (items st) index role in
  if (role =? DisplayRole)%Z then
    match rc with
    | VString s =>
        if bool_decide (s = "") then
          let noName := translate h "ObjectInspectorModel" "<noname>" in
          VString noName
        else rc
    | _ => rc
    end
  else rc.

(** Modelled from the spec: [createTextPropertyCommand] of
    [qdesigner_propertycommand] is not among the sources.  The spec calls
    its result a host-level "set property" transaction on the named
    property; the command is kept as the arguments it was created from. *)
Record QUndoCommand := createTextPropertyCommand {
  cmd_propertyName : string;
  cmd_text : string;
  cmd_object : Z;
  cmd_formWindow : Z
}.

#[global] Instance QUndoCommand_eq_dec : EqDecision QUndoCommand.
Proof. solve_decision. Defined.

(** The form windows' command histories: the commands pushed so far, each
    with the form window whose history received it. *)
Abbreviation CommandHistories := (list (Z * QUndoCommand)).

Definition push (fw : Z) (c : QUndoCommand) (hist : CommandHistories)
  : CommandHistories := hist ++ [(fw, c)].

(** [ObjectInspectorModel::setData]: the result, the model after the call
    and the command histories after the call. *)
Definition setData (h : Host) (index : QModelIndex) (value : QVariant) (role : Z)
    (st : ObjectInspectorModel) (hist : CommandHistories)
  : bool * ObjectInspectorModel * CommandHistories :=
  if negb (role =? EditRole)%Z || (m_formWindow st =? nullptr)%Z then
    (false, st, hist)
  else
    let object := objectAt st index in
    if (object =? nullptr)%Z then (false, st, hist)
    else
      (* Is this a layout widget? *)
      let nameProperty := if isQLayoutWidget h object then "layoutName"
                          else "objectName" in
      (true, st,
       push (m_formWindow st)
            (createTextPropertyCommand nameProperty (toString value) object
                                       (m_formWindow st))
            hist).

(** The states a model goes through: constructed, then updated any number
    of times, against whatever the form looks like at each call. *)
Inductive reachable : ObjectInspectorModel -> Prop :=
| reachable_new createIconSet :
    reachable (ObjectInspectorModel_new createIconSet)
| reachable_update st fuel h fw r st' :
    reachable st ->
    update fuel h fw st = Ok (r, st') ->
    reachable st'.

(** ** Properties the theorems speak about *)

(** Every entry of [l] has its parent among [seen] or among the objects of
    the entries before it. *)
Fixpoint parentsKnown (seen : list Z) (l : ObjectModel) : Prop :=
  match l with
  | [] => True
  | e :: l' => m_parent e ∈ seen ∧ parentsKnown (m_object e :: seen) l'
  end.

(** The shape of a snapshot of a form: a root entry without parent, then
    entries whose parents come earlier. *)
Definition wellFormedSnapshot (N : ObjectModel) : Prop :=
  match N with
  | [] => False
  | e :: rest => m_parent e = nullptr ∧ parentsKnown [m_object e] rest
  end.

Definition isExtensionContainer (h : Host) (object : Z) : bool :=
  isWidgetType h object && negb (isQLayoutWidget h object) &&
  bool_decide (qt_extension_QDesignerContainerExtension h object ≠ None).

Definition pagesOf (h : Host) (object : Z) : list Z :=
  default [] (qt_extension_QDesignerContainerExtension h object).

(** An attached action stands for itself, or for the popup menu it owns. *)
Definition actionOrMenu (h : Host) (action : Z) : Z :=
  if bool_decide (menu h action ≠ nullptr) then menu h action else action.

(** The objects below [object] that the walk descends into, in the order of
    their entries: the pages of an extension container, or else the managed
    widget children; then the button groups among the children that have a
    meta data base entry; then, for a widget, its actions that have a meta
    data base entry, each replaced by its menu if it owns one. *)
Definition recursionTargets (h : Host) (fwi : Z) (object : Z) : list Z :=
  (if isExtensionContainer h object then pagesOf h object
   else List.filter (fun c => isWidgetType h c && isManaged h fwi c)
                    (children h object)) ++
  List.filter (fun c => negb (isWidgetType h c) && metaDataBase_item h c &&
                        qobject_cast_QButtonGroup h c)
              (children h object) ++
  (if isWidgetType h object
   then map (actionOrMenu h) (List.filter (metaDataBase_item h) (actions h object))
   else []).

(** The same list read off the specification: among the plain children, the
    managed widgets and every child object that has a meta data entry; then
    the attached actions. *)
Definition specifiedTargets (h : Host) (fwi : Z) (object : Z) : list Z :=
  (if isExtensionContainer h object then pagesOf h object
   else List.filter (fun c => isWidgetType h c && isManaged h fwi c)
                    (children h object)) ++
  List.filter (fun c => negb (isWidgetType h c) && metaDataBase_item h c)
              (children h object) ++
  (if isWidgetType h object
   then map (actionOrMenu h) (actions h object)
   else []).

(** Walking a list of targets below [object], one after the other. *)
Definition walkTargets (fuel : nat) (h : Host) (fwi object : Z)
    (ctx : ModelRecursionContext) (targets : list Z) (model : ObjectModel)
  : Res ObjectModel :=
  forEach (fun t model => createModelRecursion fuel h fwi object t model ctx)
          targets model.

(** The row that [rebuild] creates and fills for an entry. *)
Definition rowFor (icons : LayoutInfoType -> QIcon) (e : ObjectData) : StandardItemList :=
  setItems e (createModelRow (m_object e)) icons.

(** The tree and the index present the snapshot [N]: read in the order of
    insertion, the index holds one location per entry of [N], under the
    object of that entry, where the row filled from the entry stands; the
    locations are pairwise different, and the tree has no further rows. *)
Definition presents (N : ObjectModel) (st : ObjectInspectorModel) : Prop :=
  Forall2 (fun e kv =>
             kv.1 = m_object e ∧
             ∃ path r, kv.2 = Index path 0 ∧
                       lookupRow path (items st) = Some r ∧
                       cells r = rowFor (m_icons st) e)
          N (reverse (m_objectIndexMultiMap st)) ∧
  NoDup (m_objectIndexMultiMap st).*2 ∧
  totalRows (items st) = length N.

(** Entries of one object carry the same display attributes. *)
Definition sameObjectSameAttributes (m : ObjectModel) : Prop :=
  ∀ e1 e2, e1 ∈ m -> e2 ∈ m -> m_object e1 = m_object e2 ->
           attributes e1 = attributes e2.

(** The first position at which object [o] stands with a non-zero change
    mask: the new entry there, and the mask. *)
Fixpoint firstChange (o : Z) (P N : ObjectModel) : option (ObjectData * Z) :=
  match P, N with
  | entry :: P', newEntry :: N' =>
      if bool_decide (m_object newEntry = o ∧ compare entry newEntry ≠ 0%Z)
      then Some (newEntry, compare entry newEntry)
      else firstChange o P' N'
  | _, _ => None
  end.

(** The calls of [setItemsDisplayData] made for object [o]. *)
Definition callsFor (o : Z) (calls : list PatchCall) : list PatchCall :=
  filter (fun c => m_object c.1.2 = o) calls.

(** Performing recorded calls of [setItemsDisplayData] on a tree. *)
Definition applyCalls (icons : LayoutInfoType -> QIcon) (calls : list PatchCall)
    (rs : list Row) : list Row :=
  foldl (fun rs c =>
           writeRowAt c.1.1 (fun row => setItemsDisplayData c.1.2 row icons c.2) rs)
        rs calls.

(** An entry as the builder makes it on host [h]. *)
Definition builtOn (h : Host) (ctx : ModelRecursionContext) (e : ObjectData) : Prop :=
  e = ObjectData_new h (m_parent e) (m_object e) ctx.

(** What the builder adds to the snapshot it is given while it works below
    [object]: entries built on the host, whose parents are [object] or come
    earlier. *)
Definition addsBelow (h : Host) (ctx : ModelRecursionContext) (object : Z)
    (m m' : ObjectModel) : Prop :=
  ∃ ext, m' = m ++ ext ∧
         (∀ seen, object ∈ seen -> parentsKnown seen ext) ∧
         Forall (builtOn h ctx) ext.

(** The calls addressed to the row at [path], and the items of a row after
    calls have been performed on it. *)
Definition callsAt (path : list nat) (calls : list PatchCall) : list PatchCall :=
  filter (fun c => c.1.1 = Index path 0) calls.

Definition cellsAfter (icons : LayoutInfoType -> QIcon) (calls : list PatchCall)
    (row : StandardItemList) : StandardItemList :=
  foldl (fun row c => setItemsDisplayData c.1.2 row icons c.2) row calls.

(** ** A small form, used to run the definitions

    Form window 100 with main container 1 (a container widget).  Its
    children are a push button 2, a tab widget 3 (an extension container
    with the pages 4 and 5, which are also its children, next to an
    unmanaged internal widget 9), a button group 6, an action 7, a layout
    widget 8 holding layout 10, and an unmanaged rubber band 14.  The main
    container shows the action 7, an action 13 that owns the menu 12, and
    an internal action 15 that the meta data base does not know; the menu
    shows action 7 again. *)
Definition demo_className (o : Z) : string :=
  match o with
  | 1 => "QWidget" | 2 => "QPushButton" | 3 => "QTabWidget"
  | 4 | 5 => "QWidget" | 6 => "QButtonGroup" | 7 | 13 => "QAction"
  | 8 => "QLayoutWidget" | 9 => "QStackedWidget" | 10 => "QVBoxLayout"
  | 12 => "QDesignerMenu" | 14 => "QRubberBand"
  | _ => "QObject"
  end%Z.

Definition demoHost (actionName : string) (button : bool) : Host := {|
  children := fun o => match o with
                       | 1 => (if button then [2] else []) ++ [3; 6; 7; 8; 14]
                       | 3 => [9; 4; 5]
                       | 8 => [10]
                       | _ => []
                       end%Z;
  isWidgetType := fun o => match o with
                           | 1 | 2 | 3 | 4 | 5 | 8 | 9 | 12 | 14 => true
                           | _ => false
                           end%Z;
  metaObject := fun o => (1000 + o)%Z;
  className := fun mo => demo_className (mo - 1000)%Z;
  objectName := fun o => match o with
                         | 1 => "Form" | 2 => "okButton" | 3 => "tabWidget"
                         | 4 => "tab" | 5 => "tab_2" | 6 => "buttonGroup"
                         | 7 => actionName | 8 => "layoutWidget"
                         | 10 => "verticalLayout" | 12 => "menuFile"
                         | 13 => "actionFile"
                         | _ => ""
                         end%Z;
  QLayoutWidget_staticMetaObject := 1008%Z;
  qobject_cast_QAction := fun o => match o with 7 | 13 | 15 => true | _ => false end%Z;
  qobject_cast_QButtonGroup := fun o => match o with 6 => true | _ => false end%Z;
  isSeparator := fun _ => false;
  icon := fun o => match o with 7 => Icon 70 | _ => NullIcon end%Z;
  menu := fun o => match o with 13 => 12 | _ => 0 end%Z;
  layout := fun o => match o with 8 => 10 | _ => 0 end%Z;
  actions := fun o => match o with 1 => [7; 13; 15] | 12 => [7] | _ => [] end%Z;
  widgetDataBase_item :=
    fun o => match o with
             | 1 | 4 | 5 => Some (mkWidgetDataBaseItem (Icon 11) "QWidget" true)
             | 2 => Some (mkWidgetDataBaseItem (Icon 12) "QPushButton" false)
             | 3 => Some (mkWidgetDataBaseItem (Icon 13) "QTabWidget" true)
             | _ => None
             end%Z;
  metaDataBase_item := fun o => match o with
                                | 1 | 2 | 3 | 4 | 5 | 6 | 7 | 8 | 10 | 12 | 13 => true
                                | _ => false
                                end%Z;
  qt_extension_QDesignerContainerExtension :=
    fun o => match o with 3 => Some [4; 5] | _ => None end%Z;
  layoutType := fun _ => VBox;
  managedLayoutType := fun o => match o with 1 => Grid | _ => NoLayout end%Z;
  mainContainer := fun fw => match fw with 100 => 1 | _ => 0 end%Z;
  isManaged := fun _ w => match w with
                          | 1 | 2 | 3 | 4 | 5 | 8 | 12 => true
                          | _ => false
                          end%Z;
  translate := fun _ s => s
|}.

Definition demoIcons (name : string) : QIcon := Icon (Z.of_nat (String.length name)).

Definition demoCtx : ModelRecursionContext := ModelRecursionContext_new "separator".

(** The snapshot of the form, and the model after its first update. *)
Definition demoSnapshot : ObjectModel :=
  Eval vm_compute in
    match createModelRecursion 4 (demoHost "actionOpen" true) 100 0 1 [] demoCtx with
    | Ok m => m
    | _ => []
    end.

Definition demoModel : ObjectInspectorModel :=
  match update 4 (demoHost "actionOpen" true) 100 (ObjectInspectorModel_new demoIcons) with
  | Ok (_, st) => st
  | _ => ObjectInspectorModel_new demoIcons
  end.

(** The demo form after action 7 lost its name: its snapshot, and the
    patched model with the calls that patched it. *)
Definition demoRenamedSnapshot : ObjectModel :=
  Eval vm_compute in
    match createModelRecursion 4 (demoHost "" true) 100 0 1 [] demoCtx with
    | Ok m => m
    | _ => []
    end.

Definition demoPatched : ObjectInspectorModel * list PatchCall :=
  match updateItemContents demoRenamedSnapshot demoModel with
  | Ok r => r
  | _ => (demoModel, [])
  end.

(** ** Further properties the theorems speak about *)

(** An entry stands for an edge that the walk follows: its object is among
    the targets of its parent. *)
Definition isTargetEdge (h : Host) (fwi : Z) (e : ObjectData) : Prop :=
  m_object e ∈ recursionTargets h fwi (m_parent e).

(** Every target of [o] has an entry below [o] in [m]. *)
Definition targetsListed (h : Host) (fwi : Z) (m : ObjectModel) (o : Z) : Prop :=
  ∀ t, t ∈ recursionTargets h fwi o -> (o, t) ∈ identity <$> m.

(** The class name an entry starts from, before the designer prefix is
    taken off: for a layout widget the class of its layout, for another
    widget the name of its widget data base item if it has one, and else
    the class name of the meta object. *)
Definition classNameSource (h : Host) (object : Z) : string :=
  if isWidgetType h object then
    if isQLayoutWidget h object && bool_decide (layout h object ≠ nullptr)
    then className h (metaObject h (layout h object))
    else match widgetDataBase_item h object with
         | Some widgetItem => wdb_name widgetItem
         | None => className h (metaObject h object)
         end
  else className h (metaObject h object).

(** The icons that a filled row shows in its two columns. *)
Definition nameColumnIcon (icons : LayoutInfoType -> QIcon) (e : ObjectData) : QIcon :=
  match m_type e with
  | LayoutWidget | LayoutableContainer => icons (m_managedLayoutType e)
  | _ => NullIcon
  end.

Definition classColumnIcon (icons : LayoutInfoType -> QIcon) (e : ObjectData) : QIcon :=
  match m_type e with
  | LayoutWidget => icons (m_managedLayoutType e)
  | _ => m_classIcon e
  end.

(** The two items of a row after the changed attribute columns of the entry
    [e], changed against the entry [old], have been applied to the items
    [name] and [class]: the text of the name column if the object name
    differs; text and tool tip of the class name column if the class name
    differs; the icons of both columns if the icon, the type tag or the
    layout kind differs; nothing else. *)
Definition changedColumnsApplied (icons : LayoutInfoType -> QIcon)
    (old e : ObjectData) (name class : QStandardItem) : StandardItemList :=
  let nameChanged := bool_decide (m_objectName old ≠ m_objectName e) in
  let classChanged := bool_decide (m_className old ≠ m_className e) in
  let iconChanged := negb (sameIcon (m_classIcon old) (m_classIcon e)) ||
                     bool_decide (m_type old ≠ m_type e) ||
                     bool_decide (m_managedLayoutType old ≠ m_managedLayoutType e) in
  [mkQStandardItem (it_flags name)
     (if nameChanged then VString (m_objectName e) else it_display name)
     (if iconChanged then VIcon (nameColumnIcon icons e) else it_decoration name)
     (it_toolTip name) (it_user name);
   mkQStandardItem (it_flags class)
     (if classChanged then VString (m_className e) else it_display class)
     (if iconChanged then VIcon (classColumnIcon icons e) else it_decoration class)
     (if classChanged then VString (m_className e) else it_toolTip class)
     (it_user class)].

(** A layout-holding node: a layout widget that has a layout.  These are
    the nodes whose entries carry the type tag [LayoutWidget]. *)
Definition holdsLayout (h : Host) (object : Z) : bool :=
  isWidgetType h object && isQLayoutWidget h object &&
  bool_decide (layout h object ≠ nullptr).

(** The name property read off the specification: [layoutName] for a
    layout-holding node, [objectName] for any other node. *)
Definition specifiedNameProperty (h : Host) (object : Z) : string :=
  if holdsLayout h object then "layoutName" else "objectName".

(** The locations [kvs] given to the entries [es], in this order, nest the
    rows as the entries say: each location is a first-column index directly
    below a location recorded earlier (in [seen] or before it in [kvs])
    for the parent of the entry. *)
Fixpoint nestedBelow (seen : ObjectIndexMultiMap) (es : ObjectModel)
    (kvs : ObjectIndexMultiMap) : Prop :=
  match es, kvs with
  | [], [] => True
  | e :: es', kv :: kvs' =>
      kv.1 = m_object e ∧
      (∃ path k, kv.2 = Index (path ++ [k]) 0 ∧
                 (m_parent e, Index path 0) ∈ seen) ∧
      nestedBelow (kv :: seen) es' kvs'
  | _, _ => False
  end.

(** A measure of the objects of the demo form that decreases along the
    edges of the walk. *)
Definition demoRank (o : Z) : nat :=
  match o with
  | 1%Z => 3
  | 3%Z | 12%Z => 2
  | _ => 1
  end.

(** The demo form while it is laid out anew: the layout widget 8 has no
    layout for the moment.  The model after its first update there. *)
Definition demoHostNoLayout : Host :=
  let h := demoHost "actionOpen" true in
  {| children := children h;
     isWidgetType := isWidgetType h;
     metaObject := metaObject h;
     className := className h;
     objectName := objectName h;
     QLayoutWidget_staticMetaObject := QLayoutWidget_staticMetaObject h;
     qobject_cast_QAction := qobject_cast_QAction h;
     qobject_cast_QButtonGroup := qobject_cast_QButtonGroup h;
     isSeparator := isSeparator h;
     icon := icon h;
     menu := menu h;
     layout := fun _ => nullptr;
     actions := actions h;
     widgetDataBase_item := widgetDataBase_item h;
     metaDataBase_item := metaDataBase_item h;
     qt_extension_QDesignerContainerExtension :=
       qt_extension_QDesignerContainerExtension h;
     layoutType := layoutType h;
     managedLayoutType := managedLayoutType h;
     mainContainer := mainContainer h;
     isManaged := isManaged h;
     translate := translate h |}.

Definition demoModelNoLayout : ObjectInspectorModel :=
  match update 4 demoHostNoLayout 100 (ObjectInspectorModel_new demoIcons) with
  | Ok (_, st) => st
  | _ => ObjectInspectorModel_new demoIcons
  end.

(** The demo form, rebuilt into a new model. *)
Definition demoRebuilt : ObjectInspectorModel :=
  match rebuild demoSnapshot (ObjectInspectorModel_new demoIcons) with
  | Ok st => st
  | _ => ObjectInspectorModel_new demoIcons
  end.

(** ** The selection of the object inspector

    [qdesigner_objectinspector.cpp], namespace [qdesigner_internal]. *)

(** Modelled from the spec: [struct Selection] is declared in
    [qdesigner_objectinspector_p.h], which is not among the sources; its
    members are the three lists that the functions below use, the managed
    widgets, the unmanaged widgets and the other objects. *)
Record Selection := mkSelection {
  managed : list Z;
  unmanaged : list Z;
  objects : list Z
}.

(** [QList::isEmpty], [QList::push_back] *)
Definition isEmpty {A} (l : list A) : bool :=
  match l with [] => true | _ => false end.

Definition push_back {A} (x : A) (l : list A) : list A := l ++ [x].

(** [void Selection::clear()] *)
Definition Selection_clear (s : Selection) : Selection :=
  let s := mkSelection [] (unmanaged s) (objects s) in
  let s := mkSelection (managed s) [] (objects s) in
  mkSelection (managed s) (unmanaged s) [].

(** [bool Selection::empty() const] *)
Definition Selection_empty (s : Selection) : bool :=
  isEmpty (managed s) && isEmpty (unmanaged s) && isEmpty (objects s).

(** [QObjectList Selection::selection() const] *)
Definition Selection_selection (s : Selection) : list Z :=
  let rc := objects s in
  let rc := foldl (fun rc o => push_back o rc) rc (managed s) in
  let rc := foldl (fun rc o => push_back o rc) rc (unmanaged s) in
  rc.

(** ** qdoc: arguments from the command line and from option files

    [qdoccommandlineparser.cpp]. *)

(** [qFatal] ends the process with a message: a function that can call it
    returns its value, or ends with that message. *)
Inductive OrFatal (A : Type) : Type :=
| Returns (a : A)
| qFatal (message : string).
Arguments Returns {A} a.
Arguments qFatal {A} message.

(** [QByteArray::trimmed]: white space is taken off at both ends. *)
Fixpoint trimmedStart (s : string) : string :=
  match s with
  | String c s' => if Ascii.is_space c then trimmedStart s' else s
  | EmptyString => EmptyString
  end.

Definition trimmed (s : string) : string :=
  String.rev (trimmedStart (String.rev (trimmedStart s))).

(** The [while (!f.atEnd())] loop over an opened file: [lines] are the
    results of the successive calls of [f.readLine()]. *)
Definition readArguments (lines : list string) (allArguments : list string)
  : list string :=
  foldl (fun allArguments raw =>
           let line := trimmed raw in
           if negb (bool_decide (line = "")) then push_back line allArguments
           else allArguments)
        allArguments lines.

(** The loop of [argumentsFromCommandLineAndFile] over the arguments that
    are left.  [open] is the file system as the function observes it:
    [f.open(QIODevice::ReadOnly | QIODevice::Text)] fails ([None]) or the
    file gives its lines. *)
Fixpoint argumentsLoop (open : string -> option (list string))
    (arguments : list string) (allArguments : list string)
  : OrFatal (list string) :=
  match arguments with
  | [] => Returns allArguments
  | argument :: arguments =>
      (* "@file" doesn't start with a '-' so we can't use QCommandLineParser for it *)
      if String.prefix "@" argument then
        let optionsFile := QString_remove 0 1 argument in
        if bool_decide (optionsFile = "") then
          qFatal "The @ option requires an input file"
        else
          match open optionsFile with
          | None =>
              qFatal (String.append "Cannot open options file specified with @: "
                                    optionsFile)
          | Some lines =>
              argumentsLoop open arguments (readArguments lines allArguments)
          end
      else argumentsLoop open arguments (push_back argument allArguments)
  end.

(** [static QStringList argumentsFromCommandLineAndFile(const QStringList &arguments)] *)
Definition argumentsFromCommandLineAndFile (open : string -> option (list string))
    (arguments : list string) : OrFatal (list string) :=
  let allArguments := [] in
  argumentsLoop open arguments allArguments.

(** What one argument stands for: the non-empty trimmed lines of the file
    it names, or itself. *)
Definition expandArgument (open : string -> option (list string))
    (argument : string) : option (list string) :=
  if String.prefix "@" argument then
    if bool_decide (QString_remove 0 1 argument = "") then None
    else match open (QString_remove 0 1 argument) with
         | Some lines => Some (filter (fun l => l ≠ "") (map trimmed lines))
         | None => None
         end
  else Some [argument].

(** * Theorems *)

(** ** Results and loops *)

Lemma bind_Ok_inv {A B} (m : Res A) (f : A -> Res B) (b : B) :
  bind m f = Ok b -> ∃ a, m = Ok a ∧ f a = Ok b.
Proof. destruct m; simpl; [eauto|done..]. Qed.

Lemma bind_ext {A B} (m : Res A) (f g : A -> Res B) :
  (∀ a, f a = g a) -> bind m f = bind m g.
Proof. intros H. destruct m; simpl; [apply H|done..]. Qed.

Lemma bind_cong {A B} (m m' : Res A) (f g : A -> Res B) :
  m = m' -> (∀ a, f a = g a) -> bind m f = bind m' g.
Proof. intros -> H. by apply bind_ext. Qed.

Lemma bind_Ok_r {A} (m : Res A) : bind m Ok = m.
Proof. by destruct m. Qed.

Lemma bind_assoc {A B C} (m : Res A) (f : A -> Res B) (g : B -> Res C) :
  bind (bind m f) g = bind m (fun a => bind (f a) g).
Proof. by destruct m. Qed.

Lemma forEach_app {A S} (body : A -> S -> Res S) (l1 l2 : list A) (s : S) :
  forEach body (l1 ++ l2) s = bind (forEach body l1 s) (forEach body l2).
Proof.
  revert s. induction l1 as [|x l1 IH]; intros s; simpl; [done|].
  destruct (body x s); simpl; [apply IH|done..].
Qed.

Lemma forEach_ext {A S} (body body' : A -> S -> Res S) (l : list A) (s : S) :
  (∀ x s, x ∈ l -> body x s = body' x s) ->
  forEach body l s = forEach body' l s.
Proof.
  revert s. induction l as [|x l IH]; intros s Hb; simpl; [done|].
  rewrite Hb by left. destruct (body' x s); simpl; [|done..].
  apply IH. intros y s' Hy. apply Hb. by right.
Qed.

(** A relation between states that every successful step of a loop
    establishes holds between the start and the end of the loop. *)
Lemma forEach_rel {A S} (R : S -> S -> Prop) (body : A -> S -> Res S)
    (l : list A) :
  (∀ s, R s s) ->
  (∀ s1 s2 s3, R s1 s2 -> R s2 s3 -> R s1 s3) ->
  (∀ x s s', x ∈ l -> body x s = Ok s' -> R s s') ->
  ∀ s s', forEach body l s = Ok s' -> R s s'.
Proof.
  intros Hrefl Htrans. induction l as [|x l IH]; intros Hb s s' H; simpl in H.
  - injection H as Hs. subst s'. apply Hrefl.
  - apply bind_Ok_inv in H as (s1 & H1 & H2).
    eapply Htrans; [eapply Hb; [left|exact H1]|].
    eapply IH; [|exact H2]. intros y t t' Hy. apply Hb. by right.
Qed.

Lemma forEach_total {A S} (body : A -> S -> Res S) (l : list A) :
  (∀ x s, x ∈ l -> ∃ s', body x s = Ok s') ->
  ∀ s, ∃ s', forEach body l s = Ok s'.
Proof.
  induction l as [|x l IH]; intros Hb s; [by exists s|].
  destruct (Hb x s) as [s1 H1]; [left|].
  destruct (IH (λ y t Hy, Hb y t (list_elem_of_further _ _ _ Hy)) s1) as [s2 H2].
  exists s2. simpl. by rewrite H1.
Qed.

Lemma forEach_Ok_impl {A S} (body body' : A -> S -> Res S) (l : list A) :
  (∀ x s s', x ∈ l -> body x s = Ok s' -> body' x s = Ok s') ->
  ∀ s s', forEach body l s = Ok s' -> forEach body' l s = Ok s'.
Proof.
  induction l as [|x l IH]; intros Hb s s' H; [done|].
  simpl in *. apply bind_Ok_inv in H as (s1 & H1 & H2).
  rewrite (Hb x s s1) by (done || left). simpl.
  apply IH; [|done]. intros y t t' Hy. apply Hb. by right.
Qed.

Lemma foldl_invariant {A B} (P : A -> Prop) (f : A -> B -> A) (l : list B) (a : A) :
  (∀ a b, P a -> P (f a b)) -> P a -> P (foldl f a l).
Proof.
  intros Hf. revert a. induction l as [|b l IH]; intros a Ha; [done|].
  simpl. apply IH. by apply Hf.
Qed.

Lemma NoDup_snd_key {A B} (l : list (A * B)) (a b : A) (v : B) :
  NoDup l.*2 -> (a, v) ∈ l -> (b, v) ∈ l -> a = b.
Proof.
  induction l as [|[k w] l IH]; intros Hnd Ha Hb; [by apply elem_of_nil in Ha|].
  rewrite fmap_cons in Hnd. apply NoDup_cons in Hnd as [Hw Hnd].
  apply elem_of_cons in Ha as [Ha|Ha]; apply elem_of_cons in Hb as [Hb|Hb].
  - congruence.
  - injection Ha as -> ->. exfalso. apply Hw. apply list_elem_of_fmap. by exists (b, w).
  - injection Hb as -> ->. exfalso. apply Hw. apply list_elem_of_fmap. by exists (a, w).
  - by apply IH.
Qed.

Lemma filter_filter_impl {A} (P Q : A -> Prop) `{∀ x, Decision (P x)}
    `{∀ x, Decision (Q x)} (l : list A) :
  (∀ x, x ∈ l -> P x -> Q x) -> filter P l = filter P (filter Q l).
Proof.
  induction l as [|x l IH]; intros HPQ; [done|].
  rewrite !filter_cons.
  assert (filter P l = filter P (filter Q l)) as IH'.
  { apply IH. intros y Hy. apply HPQ. by right. }
  destruct (decide (P x)) as [HP|HP].
  - rewrite (decide_True (P:=Q x)) by (apply HPQ; [left|done]).
    rewrite filter_cons, decide_True by done. by rewrite IH'.
  - destruct (decide (Q x)); [|done].
    by rewrite filter_cons, decide_False.
Qed.

Lemma filter_eq_not_elem {A} `{EqDecision A} (l : list A) (x : A) :
  x ∉ l -> filter (λ y, y = x) l = [].
Proof.
  induction l as [|a l IH]; intros Hx; [done|].
  rewrite filter_cons, decide_False by (intros ->; apply Hx; left).
  apply IH. intros ?. apply Hx. by right.
Qed.

Lemma filter_eq_NoDup {A} `{EqDecision A} (l : list A) (x : A) :
  NoDup l -> x ∈ l -> filter (λ y, y = x) l = [x].
Proof.
  induction l as [|a l IH]; intros Hnd Hx; [by apply elem_of_nil in Hx|].
  apply NoDup_cons in Hnd as [Ha Hnd]. rewrite filter_cons.
  destruct (decide (a = x)) as [->|Hne].
  - by rewrite filter_eq_not_elem.
  - apply IH; [done|]. by apply elem_of_cons in Hx as [->|Hx].
Qed.

(** ** Entries: identity and attributes *)

Lemma sameIcon_eq (i1 i2 : QIcon) : sameIcon i1 i2 = true <-> i1 = i2.
Proof.
  destruct i1 as [|k1], i2 as [|k2]; unfold sameIcon; simpl; split;
    try done.
  - intros H. apply Z.eqb_eq in H. by subst.
  - intros [= ->]. apply Z.eqb_refl.
Qed.

Lemma equals_identity (a b : ObjectData) :
  equals a b = true <-> identity a = identity b.
Proof.
  unfold equals, identity. rewrite andb_true_iff, !Z.eqb_eq.
  split; [intros [-> ->]; done | intros [= -> ->]; done].
Qed.

Lemma compare_zero_attributes (a b : ObjectData) :
  compare a b = 0%Z <-> attributes a = attributes b.
Proof.
  unfold compare, attributes.
  destruct a as [pa oa ta ca na ia la], b as [pb ob tb cb nb ib lb]; simpl.
  split.
  - intros H.
    repeat case_bool_decide;
      destruct (sameIcon ia ib) eqn:Hi; simpl in H; try discriminate H.
    apply sameIcon_eq in Hi.
    repeat match goal with
           | H : ¬ (_ ≠ _) |- _ => apply dec_stable in H
           end.
    congruence.
  - intros [= -> -> -> -> ->].
    rewrite !bool_decide_eq_false_2 by (intros ?; done).
    assert (sameIcon ib ib = true) as -> by (by apply sameIcon_eq).
    done.
Qed.

Lemma compare_attributes (a b a' b' : ObjectData) :
  attributes a = attributes a' -> attributes b = attributes b' ->
  compare a b = compare a' b'.
Proof.
  destruct a, b, a', b'. unfold attributes. simpl.
  intros [= -> -> -> -> ->] [= -> -> -> -> ->]. reflexivity.
Qed.

Lemma ObjectData_eq_intro (a b : ObjectData) :
  identity a = identity b -> attributes a = attributes b -> a = b.
Proof.
  destruct a, b. unfold identity, attributes. simpl.
  intros [= -> ->] [= -> -> -> -> ->]. reflexivity.
Qed.

(** C8: [equals] holds exactly when parent and object references coincide,
    whatever the display attributes are; [compare] yields the zero mask
    exactly when class label, instance name, icon, type tag and layout-kind
    tag all coincide. *)
Theorem C8_equals_identity_compare_attributes (a b : ObjectData) :
  (equals a b = true <-> identity a = identity b) /\
  (compare a b = 0%Z <-> attributes a = attributes b) /\
  (∀ a' b', identity a' = identity a -> identity b' = identity b ->
            equals a' b' = equals a b) /\
  (∀ a' b', attributes a' = attributes a -> attributes b' = attributes b ->
            compare a' b' = compare a b).
Proof.
  split; [apply equals_identity|]. split; [apply compare_zero_attributes|]. split.
  - intros a' b'. unfold equals, identity. by intros [= -> ->] [= -> ->].
  - intros a' b'. destruct a, b, a', b'. unfold attributes. simpl.
    intros [= -> -> -> -> ->] [= -> -> -> -> ->]. reflexivity.
Qed.

Lemma ObjectModel_eq_identity (a b : ObjectModel) :
  ObjectModel_eq a b = true <-> identity <$> a = identity <$> b.
Proof.
  revert b. induction a as [|x a IH]; intros [|y b]; try done.
  cbn [ObjectModel_eq]. rewrite !fmap_cons.
  rewrite andb_true_iff, IH. unfold equals.
  rewrite andb_true_iff, !Z.eqb_eq. split.
  - intros [[Hp Ho] ->]. unfold identity. by rewrite Hp, Ho.
  - intros [= Hp Ho ->]. done.
Qed.

Lemma same_identities_lookup (P N : ObjectModel) (i : nat) (a b : ObjectData) :
  identity <$> N = identity <$> P ->
  P !! i = Some a -> N !! i = Some b -> identity a = identity b.
Proof.
  intros Hid Ha Hb.
  assert ((identity <$> N) !! i = Some (identity b)) as H1
    by by rewrite list_lookup_fmap, Hb.
  rewrite Hid, list_lookup_fmap, Ha in H1. simpl in H1. congruence.
Qed.

Lemma initObject_identity (h : Host) (ctx : ModelRecursionContext) (d : ObjectData) :
  initObject h ctx d = mkObjectData (m_parent d) (m_object d)
                         (m_type (initObject h ctx d))
                         (m_className (initObject h ctx d))
                         (m_objectName (initObject h ctx d))
                         (m_classIcon (initObject h ctx d))
                         (m_managedLayoutType (initObject h ctx d)).
Proof.
  unfold initObject.
  destruct (qobject_cast_QAction h (m_object d)); [|done].
  by destruct (isSeparator h (m_object d)).
Qed.

Lemma initWidget_identity (h : Host) (w : Z) (d : ObjectData) :
  initWidget h w d = mkObjectData (m_parent d) (m_object d)
                       (m_type (initWidget h w d))
                       (m_className (initWidget h w d))
                       (m_objectName (initWidget h w d))
                       (m_classIcon (initWidget h w d))
                       (m_managedLayoutType (initWidget h w d)).
Proof.
  unfold initWidget.
  destruct (widgetDataBase_item h w) as [wi|];
    destruct (isQLayoutWidget h w);
    try (case_bool_decide; by destruct d);
    destruct (qt_extension_QDesignerContainerExtension h w);
    try done; try destruct (wdb_isContainer wi); done.
Qed.

Lemma ObjectData_new_identity (h : Host) (parent object : Z)
    (ctx : ModelRecursionContext) :
  m_parent (ObjectData_new h parent object ctx) = parent ∧
  m_object (ObjectData_new h parent object ctx) = object.
Proof.
  assert (identity (ObjectData_new h parent object ctx) = (parent, object)) as H.
  { unfold ObjectData_new.
    destruct (isWidgetType h object).
    - rewrite (initWidget_identity h object).
      by destruct (String.prefix _ _).
    - rewrite (initObject_identity h ctx).
      by destruct (String.prefix _ _). }
  by injection H.
Qed.

Lemma initWidget_attributes (h : Host) (w : Z) (d d' : ObjectData) :
  attributes d = attributes d' ->
  attributes (initWidget h w d) = attributes (initWidget h w d').
Proof.
  destruct d, d'. unfold attributes. simpl. intros [= -> -> -> -> ->].
  unfold initWidget.
  destruct (widgetDataBase_item h w) as [wi|];
    destruct (isQLayoutWidget h w);
    try (by case_bool_decide);
    destruct (qt_extension_QDesignerContainerExtension h w);
    try done; destruct (wdb_isContainer wi); done.
Qed.

Lemma initObject_attributes (h : Host) (ctx : ModelRecursionContext)
    (d d' : ObjectData) :
  m_object d = m_object d' -> attributes d = attributes d' ->
  attributes (initObject h ctx d) = attributes (initObject h ctx d').
Proof.
  destruct d, d'. unfold attributes. simpl. intros -> [= -> -> -> -> ->].
  unfold initObject. simpl.
  destruct (qobject_cast_QAction h _); [|done].
  by destruct (isSeparator h _).
Qed.

(** The display attributes of an entry are those of its object: the parent
    it is listed under plays no part. *)
Lemma ObjectData_new_attributes (h : Host) (parent parent' object : Z)
    (ctx : ModelRecursionContext) :
  attributes (ObjectData_new h parent object ctx)
  = attributes (ObjectData_new h parent' object ctx).
Proof.
  unfold ObjectData_new.
  match goal with
  | |- attributes (if String.prefix ?p (m_className ?x) then _ else _) =
       attributes (if String.prefix ?p (m_className ?y) then _ else _) =>
      assert (attributes x = attributes y) as Hxy
  end.
  { destruct (isWidgetType h object).
    - by apply initWidget_attributes.
    - by apply initObject_attributes. }
  revert Hxy.
  match goal with
  | |- attributes ?x = attributes ?y -> _ => generalize x, y
  end.
  intros x y Hxy. destruct x, y. unfold attributes in *. simpl in *.
  injection Hxy as -> -> -> -> ->.
  by destruct (String.prefix _ _).
Qed.

Lemma LayoutWidget_isQLayoutWidget (h : Host) (parent object : Z)
    (ctx : ModelRecursionContext) :
  m_type (ObjectData_new h parent object ctx) = LayoutWidget ->
  isWidgetType h object = true ∧ isQLayoutWidget h object = true.
Proof.
  unfold ObjectData_new.
  assert (∀ d s, m_type (set_className s d) = m_type d) as Hcn by done.
  assert (∀ d, m_type (if String.prefix (designerPrefix ctx) (m_className d)
                       then set_className
                              (QString_remove 1 (String.length (designerPrefix ctx) - 1)
                                              (m_className d)) d
                       else d) = m_type d) as Hp.
  { intros d. destruct (String.prefix _ _); done. }
  rewrite Hp. clear Hp.
  destruct (isWidgetType h object).
  - unfold initWidget.
    destruct (widgetDataBase_item h object) as [wi|];
      destruct (isQLayoutWidget h object); try done;
      destruct (qt_extension_QDesignerContainerExtension h object); try done;
      try destruct (wdb_isContainer wi); done.
  - unfold initObject. simpl.
    destruct (qobject_cast_QAction h object); [|done].
    destruct (isSeparator h object); done.
Qed.

Lemma ExtensionContainer_iff (h : Host) (parent object : Z)
    (ctx : ModelRecursionContext) :
  bool_decide (m_type (ObjectData_new h parent object ctx) = ExtensionContainer)
  = isExtensionContainer h object.
Proof.
  unfold ObjectData_new, isExtensionContainer.
  assert (∀ d, m_type (if String.prefix (designerPrefix ctx) (m_className d)
                       then set_className
                              (QString_remove 1 (String.length (designerPrefix ctx) - 1)
                                              (m_className d)) d
                       else d) = m_type d) as Hp.
  { intros d. destruct (String.prefix _ _); done. }
  rewrite Hp. clear Hp.
  destruct (isWidgetType h object); simpl.
  - unfold initWidget.
    destruct (widgetDataBase_item h object) as [wi|];
      destruct (isQLayoutWidget h object); simpl;
      try (by destruct (bool_decide (layout h object ≠ nullptr)));
      destruct (qt_extension_QDesignerContainerExtension h object); simpl;
      try done; destruct (wdb_isContainer wi); done.
  - unfold initObject. simpl.
    destruct (qobject_cast_QAction h object); [|done].
    destruct (isSeparator h object); done.
Qed.

(** ** The snapshot builder *)

Lemma parentsKnown_mono (seen seen' : list Z) (l : ObjectModel) :
  seen ⊆ seen' -> parentsKnown seen l -> parentsKnown seen' l.
Proof.
  revert seen seen'. induction l as [|e l IH]; intros seen seen' Hs; simpl; [done|].
  intros [Hp Hl]. split; [by apply Hs|].
  eapply IH; [|exact Hl].
  intros x Hx. apply elem_of_cons in Hx as [->|Hx]; [left|right; by apply Hs].
Qed.

Lemma parentsKnown_app (seen : list Z) (a b : ObjectModel) :
  parentsKnown seen (a ++ b) <->
  parentsKnown seen a ∧ parentsKnown (reverse (map m_object a) ++ seen) b.
Proof.
  revert seen. induction a as [|e a IH]; intros seen; simpl.
  - tauto.
  - rewrite IH, reverse_cons, <- app_assoc. simpl. tauto.
Qed.

Lemma parentsKnown_lookup (seen : list Z) (l : ObjectModel) (i : nat) (e : ObjectData) :
  parentsKnown seen l -> l !! i = Some e ->
  m_parent e ∈ seen ∨
  ∃ j e', j < i ∧ l !! j = Some e' ∧ m_object e' = m_parent e.
Proof.
  revert seen i. induction l as [|a l IH]; intros seen i Hk Hi; [done|].
  destruct Hk as [Ha Hl]. destruct i as [|i]; simpl in Hi.
  - injection Hi as <-. by left.
  - destruct (IH _ _ Hl Hi) as [Hin|(j & e' & Hj & He' & Hobj)].
    + apply elem_of_cons in Hin as [Heq|Hin]; [|by left].
      right. exists 0, a. split; [lia|]. done.
    + right. exists (S j), e'. split; [lia|]. done.
Qed.

Lemma addsBelow_refl (h : Host) (ctx : ModelRecursionContext) (object : Z)
    (m : ObjectModel) : addsBelow h ctx object m m.
Proof. exists []. split; [by rewrite app_nil_r|done]. Qed.

Lemma addsBelow_trans (h : Host) (ctx : ModelRecursionContext) (object : Z)
    (m1 m2 m3 : ObjectModel) :
  addsBelow h ctx object m1 m2 -> addsBelow h ctx object m2 m3 ->
  addsBelow h ctx object m1 m3.
Proof.
  intros (e1 & -> & H1 & B1) (e2 & -> & H2 & B2). exists (e1 ++ e2).
  split; [by rewrite app_assoc|]. split; [|by apply Forall_app].
  intros seen Hs. apply parentsKnown_app. split; [by apply H1|].
  apply H2. set_solver.
Qed.

Lemma createModelRecursion_adds (fuel : nat) (h : Host) (fwi parent object : Z)
    (model model' : ObjectModel) (ctx : ModelRecursionContext) :
  createModelRecursion fuel h fwi parent object model ctx = Ok model' ->
  ∃ ext, model' = model ++ ObjectData_new h parent object ctx :: ext ∧
         (∀ seen, object ∈ seen -> parentsKnown seen ext) ∧
         Forall (builtOn h ctx) ext.
Proof.
  revert parent object model model'.
  induction fuel as [|fuel IH]; intros parent object model model' H; [done|].
  assert (∀ p o, builtOn h ctx (ObjectData_new h p o ctx)) as Hbuilt.
  { intros p o. unfold builtOn.
    by destruct (ObjectData_new_identity h p o ctx) as [-> ->]. }
  assert (∀ child m m',
            createModelRecursion fuel h fwi object child m ctx = Ok m' ->
            addsBelow h ctx object m m') as Hrec.
  { intros child m m' Hc. apply IH in Hc as (ext & -> & Hext & Hb).
    exists (ObjectData_new h object child ctx :: ext). split; [done|].
    split; [|by constructor].
    intros seen Hs. simpl.
    destruct (ObjectData_new_identity h object child ctx) as [-> ->].
    split; [done|].
    eapply parentsKnown_mono; [|apply (Hext [child]); left].
    intros x Hx. apply list_elem_of_singleton in Hx as ->. left. }
  cut (addsBelow h ctx object (model ++ [ObjectData_new h parent object ctx]) model').
  { intros (ext & -> & Hext & Hb). exists ext. by rewrite <- app_assoc. }
  simpl in H.
  apply bind_Ok_inv in H as ([ce m1] & H1 & H).
  apply bind_Ok_inv in H as (m2 & H2 & H3).
  apply (addsBelow_trans _ _ _ _ m1); [|apply (addsBelow_trans _ _ _ _ m2)].
  - (* the pages *)
    destruct (bool_decide (m_type _ = ExtensionContainer));
      [|injection H1 as <- <-; apply addsBelow_refl].
    destruct (qt_extension_QDesignerContainerExtension h object) as [pages|]; [|done].
    apply bind_Ok_inv in H1 as (m & Hp & [= <- <-]).
    revert Hp. apply forEach_rel;
      [apply addsBelow_refl|apply addsBelow_trans|].
    intros page s s' _. destruct (bool_decide (page ≠ nullptr)); [apply Hrec|done].
  - (* the children, then the button groups *)
    destruct (negb (bool_decide (children h object = [])));
      [|injection H2 as <-; apply addsBelow_refl].
    apply bind_Ok_inv in H2 as ([m bgs] & Hc & Hb).
    eapply addsBelow_trans.
    + revert Hc.
      apply (forEach_rel (λ s s' : ObjectModel * list Z,
                            addsBelow h ctx object s.1 s'.1));
        [intros; apply addsBelow_refl|intros ???; apply addsBelow_trans|].
      intros c [s bg] [s' bg'] _. simpl.
      destruct (isWidgetType h c).
      * destruct (negb ce); [|intros [= <- <-]; apply addsBelow_refl].
        destruct (isManaged h fwi c); [|intros [= <- <-]; apply addsBelow_refl].
        intros Hb'. apply bind_Ok_inv in Hb' as (m' & Hm' & [= <- <-]).
        by apply Hrec in Hm'.
      * destruct (metaDataBase_item h c); [|intros [= <- <-]; apply addsBelow_refl].
        destruct (qobject_cast_QButtonGroup h c);
          intros [= <- <-]; apply addsBelow_refl.
    + simpl. destruct (negb (bool_decide (bgs = [])));
        [|injection Hb as <-; apply addsBelow_refl].
      revert Hb. apply forEach_rel;
        [apply addsBelow_refl|apply addsBelow_trans|].
      intros g s s' _. apply Hrec.
  - (* the actions *)
    destruct (isWidgetType h object); [|injection H3 as <-; apply addsBelow_refl].
    revert H3. apply forEach_rel;
      [apply addsBelow_refl|apply addsBelow_trans|].
    intros a s s' _. destruct (metaDataBase_item h a); [apply Hrec|].
    intros [= <-]. apply addsBelow_refl.
Qed.

Lemma createModelRecursion_wellFormed (fuel : nat) (h : Host) (fwi root : Z)
    (N : ObjectModel) (ctx : ModelRecursionContext) :
  createModelRecursion fuel h fwi nullptr root [] ctx = Ok N ->
  wellFormedSnapshot N.
Proof.
  intros H. apply createModelRecursion_adds in H as (ext & -> & Hext & _). simpl.
  destruct (ObjectData_new_identity h nullptr root ctx) as [-> ->].
  split; [done|]. apply Hext. set_solver.
Qed.

Lemma wellFormedSnapshot_lookup (N : ObjectModel) :
  wellFormedSnapshot N ->
  (∃ e0, N !! 0 = Some e0 ∧ m_parent e0 = nullptr) ∧
  (∀ i e, 0 < i -> N !! i = Some e ->
          ∃ j e', j < i ∧ N !! j = Some e' ∧ m_object e' = m_parent e).
Proof.
  destruct N as [|e0 rest]; [done|]. intros [Hp Hk]. split; [by exists e0|].
  intros [|i] e Hi He; [lia|]. simpl in He.
  destruct (parentsKnown_lookup _ _ _ _ Hk He) as [Hin|(j & e' & Hj & He' & Hobj)].
  - apply list_elem_of_singleton in Hin. exists 0, e0. split; [lia|]. done.
  - exists (S j), e'. split; [lia|]. done.
Qed.

(** C6: in a snapshot that the builder produces for a form (started, as
    [update] does, without parent and on an empty list), the first entry
    has no parent, and the parent of every later entry is the object of an
    entry at a smaller position. *)
Theorem C6_parent_listed_before_child (fuel : nat) (h : Host) (fwi root : Z)
    (N : ObjectModel) (ctx : ModelRecursionContext) :
  createModelRecursion fuel h fwi nullptr root [] ctx = Ok N ->
  (∃ e0, N !! 0 = Some e0 ∧ m_parent e0 = nullptr ∧ m_object e0 = root) ∧
  (∀ i e, 0 < i -> N !! i = Some e ->
          ∃ j e', j < i ∧ N !! j = Some e' ∧ m_object e' = m_parent e).
Proof.
  intros H. split.
  - apply createModelRecursion_adds in H as (ext & -> & _ & _).
    eexists. split; [reflexivity|]. apply ObjectData_new_identity.
  - apply createModelRecursion_wellFormed in H.
    by apply wellFormedSnapshot_lookup in H as [_ ?].
Qed.

Lemma C6_parent_listed_before_child_witness :
  (∃ e0, demoSnapshot !! 0 = Some e0 ∧ m_parent e0 = nullptr ∧ m_object e0 = 1%Z) ∧
  (∀ i e, 0 < i -> demoSnapshot !! i = Some e ->
          ∃ j e', j < i ∧ demoSnapshot !! j = Some e' ∧ m_object e' = m_parent e).
Proof.
  apply (C6_parent_listed_before_child 4 (demoHost "actionOpen" true) 100 1
           demoSnapshot demoCtx).
  vm_compute. reflexivity.
Defined.

Lemma builtOn_sameObjectSameAttributes (h : Host) (ctx : ModelRecursionContext)
    (m : ObjectModel) :
  Forall (builtOn h ctx) m -> sameObjectSameAttributes m.
Proof.
  intros Hb e1 e2 H1 H2 Ho. rewrite Forall_forall in Hb.
  rewrite (Hb _ H1), (Hb _ H2), Ho. apply ObjectData_new_attributes.
Qed.

Lemma createModelRecursion_sameObjectSameAttributes (fuel : nat) (h : Host)
    (fwi parent object : Z) (N : ObjectModel) (ctx : ModelRecursionContext) :
  createModelRecursion fuel h fwi parent object [] ctx = Ok N ->
  sameObjectSameAttributes N.
Proof.
  intros H. apply createModelRecursion_adds in H as (ext & -> & _ & Hb).
  apply (builtOn_sameObjectSameAttributes h ctx). constructor; [|done].
  unfold builtOn. by destruct (ObjectData_new_identity h parent object ctx) as [-> ->].
Qed.

(** The three loops in the body of the builder, for one node [object]:
    each is a walk over a list of targets. *)
Section BuilderLoops.

Context (fuel : nat) (h : Host) (fwi object : Z) (ctx : ModelRecursionContext).

Lemma pages_loop (pages : list Z) (m : ObjectModel) :
  Forall (λ p, p ≠ nullptr) pages ->
  forEach (fun page model =>
             if bool_decide (page ≠ nullptr)
             then createModelRecursion fuel h fwi object page model ctx
             else Fault) pages m
  = walkTargets fuel h fwi object ctx pages m.
Proof.
  intros Hp. apply forEach_ext. intros p s Hin.
  rewrite Forall_forall in Hp. by rewrite bool_decide_eq_true_2 by by apply Hp.
Qed.

Lemma children_loop (containerExtension : bool)
    (l : list Z) (m : ObjectModel) (bgs : list Z) :
  forEach (fun childObject '(model, buttonGroups) =>
             if isWidgetType h childObject then
               if negb containerExtension then
                 let widget := childObject in
                 if isManaged h fwi widget then
                   do model <- createModelRecursion fuel h fwi object widget model ctx;
                   Ok (model, buttonGroups)
                 else Ok (model, buttonGroups)
               else Ok (model, buttonGroups)
             else
               if metaDataBase_item h childObject then
                 if qobject_cast_QButtonGroup h childObject
                 then Ok (model, buttonGroups ++ [childObject])
                 else Ok (model, buttonGroups)
               else Ok (model, buttonGroups))
          l (m, bgs)
  = do m' <- walkTargets fuel h fwi object ctx
               (if containerExtension then []
                else List.filter (fun c => isWidgetType h c && isManaged h fwi c) l) m;
    Ok (m', bgs ++ List.filter (fun c => negb (isWidgetType h c) &&
                                         metaDataBase_item h c &&
                                         qobject_cast_QButtonGroup h c) l).
Proof.
  match goal with |- forEach ?b _ _ = _ => remember b as body eqn:Hbody end.
  assert (∀ c m bgs,
            body c (m, bgs) =
            if isWidgetType h c then
              if negb containerExtension then
                if isManaged h fwi c then
                  do model <- createModelRecursion fuel h fwi object c m ctx;
                  Ok (model, bgs)
                else Ok (m, bgs)
              else Ok (m, bgs)
            else if metaDataBase_item h c then
                   if qobject_cast_QButtonGroup h c then Ok (m, bgs ++ [c])
                   else Ok (m, bgs)
                 else Ok (m, bgs)) as Hstep by (by subst body).
  clear Hbody. revert m bgs. induction l as [|c l IH]; intros m bgs.
  - destruct containerExtension; simpl; by rewrite app_nil_r.
  - cbn [forEach List.filter]. rewrite Hstep.
    destruct (isWidgetType h c) eqn:Hw; simpl.
    + destruct containerExtension; simpl.
      * rewrite IH. done.
      * destruct (isManaged h fwi c); simpl.
        -- unfold walkTargets at 1. simpl.
           destruct (createModelRecursion fuel h fwi object c m ctx); simpl;
             [|done..].
           rewrite IH. done.
        -- rewrite IH. done.
    + destruct (metaDataBase_item h c); simpl; [|by rewrite IH].
      destruct (qobject_cast_QButtonGroup h c); simpl; [|by rewrite IH].
      rewrite IH. by rewrite <- app_assoc.
Qed.

Lemma actions_loop (l : list Z) (m : ObjectModel) :
  forEach (fun action model =>
             if metaDataBase_item h action then
               let childObject := action in
               let childObject :=
                 if bool_decide (menu h action ≠ nullptr)
                 then menu h action else childObject in
               createModelRecursion fuel h fwi object childObject model ctx
             else Ok model) l m
  = walkTargets fuel h fwi object ctx
      (map (actionOrMenu h) (List.filter (metaDataBase_item h) l)) m.
Proof.
  match goal with |- forEach ?b _ _ = _ => remember b as body eqn:Hbody end.
  assert (∀ a m,
            body a m =
            if metaDataBase_item h a
            then createModelRecursion fuel h fwi object (actionOrMenu h a) m ctx
            else Ok m) as Hstep by (by subst body).
  clear Hbody. revert m. induction l as [|a l IH]; intros m; [done|].
  cbn [forEach List.filter]. rewrite Hstep.
  destruct (metaDataBase_item h a); simpl.
  - unfold walkTargets at 1. simpl.
    destruct (createModelRecursion _ _ _ _ _ _ _); simpl; [apply IH|done..].
  - apply IH.
Qed.

Lemma walkTargets_app (l1 l2 : list Z) (m : ObjectModel) :
  walkTargets fuel h fwi object ctx (l1 ++ l2) m
  = bind (walkTargets fuel h fwi object ctx l1 m)
         (walkTargets fuel h fwi object ctx l2).
Proof. apply forEach_app. Qed.

(** The whole body of the builder, as one walk over [recursionTargets];
    the pages matter only where the node is an extension container. *)
Lemma createModelRecursion_unfold_pages (parent : Z) (model : ObjectModel) :
  (isExtensionContainer h object = true ->
   Forall (λ p, p ≠ nullptr) (pagesOf h object)) ->
  createModelRecursion (S fuel) h fwi parent object model ctx
  = walkTargets fuel h fwi object ctx (recursionTargets h fwi object)
      (model ++ [ObjectData_new h parent object ctx]).
Proof.
  intros Hpages. unfold recursionTargets.
  rewrite !walkTargets_app. cbn [createModelRecursion].
  rewrite ExtensionContainer_iff.
  set (m0 := model ++ [ObjectData_new h parent object ctx]).
  assert (∀ ce m,
    (if negb (bool_decide (children h object = [])) then
       do (model, buttonGroups) <-
         forEach (fun childObject '(model, buttonGroups) =>
                    if isWidgetType h childObject then
                      if negb ce then
                        let widget := childObject in
                        if isManaged h fwi widget then
                          do model <- createModelRecursion fuel h fwi object widget model ctx;
                          Ok (model, buttonGroups)
                        else Ok (model, buttonGroups)
                      else Ok (model, buttonGroups)
                    else
                      if metaDataBase_item h childObject then
                        if qobject_cast_QButtonGroup h childObject
                        then Ok (model, buttonGroups ++ [childObject])
                        else Ok (model, buttonGroups)
                      else Ok (model, buttonGroups))
                 (children h object) (m, []);
       if negb (bool_decide (buttonGroups = [])) then
         forEach (fun group model =>
                    createModelRecursion fuel h fwi object group model ctx)
                 buttonGroups model
       else Ok model
     else Ok m)
    = do m' <- walkTargets fuel h fwi object ctx
                 (if ce then []
                  else List.filter (fun c => isWidgetType h c && isManaged h fwi c)
                                   (children h object)) m;
      walkTargets fuel h fwi object ctx
        (List.filter (fun c => negb (isWidgetType h c) && metaDataBase_item h c &&
                               qobject_cast_QButtonGroup h c)
                     (children h object)) m') as Hchildren.
  { intros ce m. case_bool_decide as Hc; simpl.
    - rewrite Hc. by destruct ce.
    - rewrite children_loop. rewrite bind_assoc.
      destruct (walkTargets _ _ _ _ _ _ m); simpl; [|done..].
      case_bool_decide as Hb; simpl; [by rewrite Hb|done]. }
  assert (∀ m,
    (if isWidgetType h object then
       forEach (fun action model =>
                  if metaDataBase_item h action then
                    let childObject := action in
                    let childObject :=
                      if bool_decide (menu h action ≠ nullptr)
                      then menu h action else childObject in
                    createModelRecursion fuel h fwi object childObject model ctx
                  else Ok model) (actions h object) m
     else Ok m)
    = walkTargets fuel h fwi object ctx
        (if isWidgetType h object
         then map (actionOrMenu h) (List.filter (metaDataBase_item h) (actions h object))
         else []) m) as Hactions.
  { intros m. destruct (isWidgetType h object); [apply actions_loop|done]. }
  set (rest := fun p : bool * ObjectModel =>
    bind (bind (walkTargets fuel h fwi object ctx
                  (if p.1 then []
                   else List.filter (fun c => isWidgetType h c && isManaged h fwi c)
                                    (children h object)) p.2)
               (walkTargets fuel h fwi object ctx
                  (List.filter (fun c => negb (isWidgetType h c) &&
                                         metaDataBase_item h c &&
                                         qobject_cast_QButtonGroup h c)
                               (children h object))))
         (walkTargets fuel h fwi object ctx
            (if isWidgetType h object
             then map (actionOrMenu h)
                      (List.filter (metaDataBase_item h) (actions h object))
             else []))).
  etrans.
  { apply (bind_ext _ _ rest). intros [ce m1]. unfold rest.
    apply bind_cong; [apply Hchildren|intros m2; apply Hactions]. }
  clear Hchildren Hactions. unfold rest. clear rest.
  destruct (isExtensionContainer h object) eqn:Hext.
  - specialize (Hpages eq_refl). unfold isExtensionContainer in Hext.
    apply andb_true_iff in Hext as [_ Hext]. apply bool_decide_eq_true in Hext.
    unfold pagesOf in *.
    destruct (qt_extension_QDesignerContainerExtension h object) as [pages|]; [|done].
    simpl in Hpages. rewrite pages_loop by done. simpl.
    destruct (walkTargets fuel h fwi object ctx pages m0) as [m1| |]; simpl; [|done..].
    by rewrite walkTargets_app.
  - simpl. rewrite bind_assoc. apply bind_ext. intros m1.
    by rewrite walkTargets_app.
Qed.

Lemma createModelRecursion_unfold (parent : Z) (model : ObjectModel) :
  Forall (λ p, p ≠ nullptr) (pagesOf h object) ->
  createModelRecursion (S fuel) h fwi parent object model ctx
  = walkTargets fuel h fwi object ctx (recursionTargets h fwi object)
      (model ++ [ObjectData_new h parent object ctx]).
Proof. intros Hpages. by apply createModelRecursion_unfold_pages. Qed.

End BuilderLoops.

(** C4 (as amended): one call of the builder appends the entry of its node
    and then descends, in this order, into the pages of the node if it is
    an extension container (its entry carries that type tag) and otherwise
    into its managed widget children; into the button groups among its
    children that have a meta data base entry (after the ordinary
    children); and last, for a widget, into its actions that have a meta
    data base entry, an action that owns a menu being replaced by the
    menu. *)
Theorem C4_builder_descends_into_recursionTargets
    (fuel : nat) (h : Host) (fwi parent object : Z)
    (model : ObjectModel) (ctx : ModelRecursionContext) :
  Forall (λ p, p ≠ nullptr) (pagesOf h object) ->
  createModelRecursion (S fuel) h fwi parent object model ctx
  = walkTargets fuel h fwi object ctx (recursionTargets h fwi object)
      (model ++ [ObjectData_new h parent object ctx]) ∧
  (isExtensionContainer h object = true <->
   m_type (ObjectData_new h parent object ctx) = ExtensionContainer).
Proof.
  intros Hpages. split; [by apply createModelRecursion_unfold|].
  rewrite <- (ExtensionContainer_iff h parent object ctx).
  apply bool_decide_eq_true.
Qed.

Lemma C4_builder_descends_into_recursionTargets_witness :
  Forall (λ p, p ≠ nullptr) (pagesOf (demoHost "actionOpen" true) 3) ∧
  createModelRecursion 3 (demoHost "actionOpen" true) 100 1 3 [] demoCtx
  = walkTargets 2 (demoHost "actionOpen" true) 100 3 demoCtx
      (recursionTargets (demoHost "actionOpen" true) 100 3)
      ([] ++ [ObjectData_new (demoHost "actionOpen" true) 1 3 demoCtx]) ∧
  (isExtensionContainer (demoHost "actionOpen" true) 3 = true <->
   m_type (ObjectData_new (demoHost "actionOpen" true) 1 3 demoCtx)
   = ExtensionContainer).
Proof.
  assert (Forall (λ p, p ≠ nullptr) (pagesOf (demoHost "actionOpen" true) 3)) as H.
  { repeat constructor; done. }
  split; [exact H|].
  apply (C4_builder_descends_into_recursionTargets
           2 (demoHost "actionOpen" true) 100 1 3 [] demoCtx H).
Defined.

(** On the demo form, the walk that the specification describes differs
    from what the builder does: the action 7, a child object with a meta
    data base entry that is no button group, is not descended into as a
    child, and the attached action 15, unknown to the meta data base, is
    not appended. *)
Lemma C4_specified_targets_counterexample :
  createModelRecursion 4 (demoHost "actionOpen" true) 100 0 1 [] demoCtx
  ≠ walkTargets 3 (demoHost "actionOpen" true) 100 1 demoCtx
      (specifiedTargets (demoHost "actionOpen" true) 100 1)
      ([] ++ [ObjectData_new (demoHost "actionOpen" true) 0 1 demoCtx]).
Proof. vm_compute. discriminate. Qed.

(** If some measure of the objects decreases along every edge that the
    builder follows, and no container extension reports a null page, then
    a recursion budget above the measure of the root is enough. *)
Lemma createModelRecursion_total (h : Host) (fwi : Z) (ctx : ModelRecursionContext)
    (rank : Z -> nat) :
  (∀ o c, c ∈ recursionTargets h fwi o -> rank c < rank o) ->
  (∀ o, Forall (λ p, p ≠ nullptr) (pagesOf h o)) ->
  ∀ fuel parent object model,
    rank object < fuel ->
    ∃ model', createModelRecursion fuel h fwi parent object model ctx = Ok model'.
Proof.
  intros Hrank Hpages. induction fuel as [|fuel IH]; intros parent object model Hf; [lia|].
  rewrite createModelRecursion_unfold by done.
  apply forEach_total. intros c m Hc. apply IH.
  specialize (Hrank _ _ Hc). lia.
Qed.

(** A snapshot that the builder produces within some recursion budget is
    the snapshot it produces within any larger one. *)
Lemma createModelRecursion_fuel_mono (h : Host) (fwi : Z) (ctx : ModelRecursionContext) :
  ∀ fuel fuel' parent object model model',
    fuel ≤ fuel' ->
    createModelRecursion fuel h fwi parent object model ctx = Ok model' ->
    createModelRecursion fuel' h fwi parent object model ctx = Ok model'.
Proof.
  induction fuel as [|fuel IH]; intros fuel' parent object model model' Hle H; [done|].
  destruct fuel' as [|fuel']; [lia|].
  assert (∀ p o m m', createModelRecursion fuel h fwi p o m ctx = Ok m' ->
                      createModelRecursion fuel' h fwi p o m ctx = Ok m') as Hrec.
  { intros p o m m'. apply IH. lia. }
  clear IH. cbn [createModelRecursion] in *.
  apply bind_Ok_inv in H as ([ce m1] & H1 & H).
  apply bind_Ok_inv in H as (m2 & H2 & H3).
  match goal with
  | |- bind ?a _ = _ => assert (a = Ok (ce, m1)) as ->
  end.
  { destruct (bool_decide (m_type _ = ExtensionContainer)); [|done].
    destruct (qt_extension_QDesignerContainerExtension h object) as [pages|]; [|done].
    apply bind_Ok_inv in H1 as (m & Hp & [= <- <-]).
    match goal with
    | |- bind ?a _ = _ => assert (a = Ok m) as ->; [|done]
    end.
    revert Hp. apply forEach_Ok_impl. intros page s s' _.
    destruct (bool_decide (page ≠ nullptr)); [apply Hrec|done]. }
  cbn [bind].
  match goal with
  | |- bind ?a _ = _ => assert (a = Ok m2) as ->
  end.
  { destruct (negb (bool_decide (children h object = []))); [|done].
    apply bind_Ok_inv in H2 as ([m bgs] & Hc & Hb).
    match goal with
    | |- bind ?a _ = _ => assert (a = Ok (m, bgs)) as ->
    end.
    { revert Hc. apply forEach_Ok_impl. intros c [s bg] [s' bg'] _.
      destruct (isWidgetType h c); [|done].
      destruct (negb ce); [|done].
      simpl. destruct (isManaged h fwi c); [|done].
      intros Hb'. apply bind_Ok_inv in Hb' as (m' & Hm' & [= <- <-]).
      by rewrite (Hrec _ _ _ _ Hm'). }
    cbn [bind]. destruct (negb (bool_decide (bgs = []))); [|done].
    revert Hb. apply forEach_Ok_impl. intros g s s' _. apply Hrec. }
  cbn [bind].
  destruct (isWidgetType h object); [|done].
  revert H3. apply forEach_Ok_impl. intros a s s' _.
  destruct (metaDataBase_item h a); [apply Hrec|done].
Qed.

(** ** The tree of rows *)

Lemma lookupRow_one (i : nat) (rs : list Row) : lookupRow [i] rs = rs !! i.
Proof. simpl. by destruct (rs !! i). Qed.

Lemma lookupRow_cons (i j : nat) (p : list nat) (rs : list Row) :
  lookupRow (i :: j :: p) rs =
  match rs !! i with
  | Some r => lookupRow (j :: p) (childRows r)
  | None => None
  end.
Proof. reflexivity. Qed.

Lemma alterRow_one (f : Row -> Row) (i : nat) (rs : list Row) :
  alterRow f [i] rs = alter f i rs.
Proof. reflexivity. Qed.

Lemma alterRow_cons (f : Row -> Row) (i j : nat) (p : list nat) (rs : list Row) :
  alterRow f (i :: j :: p) rs =
  alter (fun r => mkRow (cells r) (alterRow f (j :: p) (childRows r))) i rs.
Proof. reflexivity. Qed.

Lemma length_alterRow (f : Row -> Row) (p : list nat) (rs : list Row) :
  length (alterRow f p rs) = length rs.
Proof. destruct p as [|i p]; [done|]. simpl. apply length_alter. Qed.

Lemma totalRows_cons (r : Row) (rs : list Row) :
  totalRows (r :: rs) = rowCount r + totalRows rs.
Proof. reflexivity. Qed.

Lemma totalRows_alter (g : Row -> Row) (i k : nat) (rs : list Row) (r : Row) :
  rs !! i = Some r -> rowCount (g r) = rowCount r + k ->
  totalRows (alter g i rs) = totalRows rs + k.
Proof.
  revert i. induction rs as [|a rs IH]; intros i Hi Hg; [done|].
  destruct i as [|i].
  - injection Hi as ->.
    change (alter g 0 (r :: rs)) with (g r :: rs).
    rewrite !totalRows_cons, Hg. lia.
  - change (alter g (S i) (a :: rs)) with (a :: alter g i rs).
    rewrite !totalRows_cons, (IH i Hi Hg). lia.
Qed.

Lemma totalRows_alter_same (g : Row -> Row) (i : nat) (rs : list Row) :
  (∀ r, rowCount (g r) = rowCount r) ->
  totalRows (alter g i rs) = totalRows rs.
Proof.
  intros Hg. revert i. induction rs as [|a rs IH]; intros i; [done|].
  destruct i as [|i].
  - change (alter g 0 (a :: rs)) with (g a :: rs).
    by rewrite !totalRows_cons, Hg.
  - change (alter g (S i) (a :: rs)) with (a :: alter g i rs).
    by rewrite !totalRows_cons, IH.
Qed.

Lemma rowCount_mkRow (c : StandardItemList) (k : list Row) :
  rowCount (mkRow c k) = S (totalRows k).
Proof. reflexivity. Qed.

Lemma rowCount_eq (r : Row) : rowCount r = S (totalRows (childRows r)).
Proof. by destruct r. Qed.

Lemma totalRows_app (a b : list Row) : totalRows (a ++ b) = totalRows a + totalRows b.
Proof. unfold totalRows. rewrite map_app. induction (map rowCount a); simpl; lia. Qed.

(** Altering the row at a valid path changes the number of rows by what
    the alteration does to that row. *)
Lemma totalRows_alterRow (f : Row -> Row) (k : nat) (p : list nat) :
  (∀ r, rowCount (f r) = rowCount r + k) ->
  ∀ rs r, lookupRow p rs = Some r ->
          totalRows (alterRow f p rs) = totalRows rs + k.
Proof.
  intros Hf. induction p as [|i p IH]; intros rs r Hl; [done|].
  destruct p as [|j p].
  - rewrite lookupRow_one in Hl. rewrite alterRow_one.
    by apply (totalRows_alter _ _ _ _ r).
  - rewrite lookupRow_cons in Hl. rewrite alterRow_cons.
    destruct (rs !! i) as [ri|] eqn:Hi; [|done].
    apply (totalRows_alter _ _ _ _ ri); [done|].
    rewrite rowCount_mkRow, (IH _ _ Hl), rowCount_eq. lia.
Qed.

Lemma totalRows_alterRow_same (f : Row -> Row) (p : list nat) :
  (∀ r, rowCount (f r) = rowCount r) ->
  ∀ rs, totalRows (alterRow f p rs) = totalRows rs.
Proof.
  intros Hf. induction p as [|i p IH]; intros rs; [done|].
  destruct p as [|j p].
  - rewrite alterRow_one. by apply totalRows_alter_same.
  - rewrite alterRow_cons. apply totalRows_alter_same.
    intros r. rewrite rowCount_mkRow, IH, rowCount_eq. done.
Qed.

(** Rows stay where they are and keep their items when [f] keeps the items
    of the row it acts on and the rows below it. *)
Lemma lookupRow_alterRow_cells (f : Row -> Row) (p : list nat) :
  (∀ r, cells (f r) = cells r) ->
  (∀ r q x, lookupRow q (childRows r) = Some x ->
            lookupRow q (childRows (f r)) = Some x) ->
  ∀ q rs r, lookupRow q rs = Some r ->
            ∃ r', lookupRow q (alterRow f p rs) = Some r' ∧ cells r' = cells r.
Proof.
  intros Hf Hkids. induction p as [|i p IH]; intros q rs r Hl; [by exists r|].
  destruct q as [|a q]; [done|].
  set (g := fun r0 => match p with
                      | [] => f r0
                      | _ => mkRow (cells r0) (alterRow f p (childRows r0))
                      end).
  assert (alterRow f (i :: p) rs = alter g i rs) as -> by done.
  assert (∀ r0, cells (g r0) = cells r0) as Hg.
  { intros r0. unfold g. destruct p; [apply Hf|done]. }
  destruct (decide (a = i)) as [->|Hne].
  - destruct q as [|b q].
    + rewrite lookupRow_one in Hl. exists (g r).
      rewrite lookupRow_one, list_lookup_alter_eq, Hl. done.
    + rewrite lookupRow_cons in Hl. rewrite lookupRow_cons, list_lookup_alter_eq.
      destruct (rs !! i) as [ri|]; [|done]. simpl.
      destruct p as [|j p]; unfold g.
      * exists r. split; [exact (Hkids ri (b :: q) r Hl)|done].
      * exact (IH (b :: q) (childRows ri) r Hl).
  - destruct q as [|b q].
    + rewrite lookupRow_one in Hl. exists r.
      by rewrite lookupRow_one, list_lookup_alter_ne.
    + rewrite lookupRow_cons in Hl. exists r.
      by rewrite lookupRow_cons, list_lookup_alter_ne.
Qed.

Lemma lookupRow_alterRow_same (f : Row -> Row) (p : list nat) :
  ∀ rs r, lookupRow p rs = Some r -> lookupRow p (alterRow f p rs) = Some (f r).
Proof.
  induction p as [|i p IH]; intros rs r Hl; [done|].
  destruct p as [|j p].
  - rewrite lookupRow_one in Hl.
    by rewrite alterRow_one, lookupRow_one, list_lookup_alter_eq, Hl.
  - rewrite lookupRow_cons in Hl.
    rewrite alterRow_cons, lookupRow_cons, list_lookup_alter_eq.
    destruct (rs !! i) as [ri|]; [|done]. exact (IH _ _ Hl).
Qed.

Lemma lookupRow_snoc_fresh (p : list nat) (rs : list Row) (par : Row) :
  lookupRow p rs = Some par ->
  lookupRow (p ++ [length (childRows par)]) rs = None.
Proof.
  revert rs. induction p as [|i p IH]; intros rs Hl; [done|].
  destruct p as [|j p].
  - rewrite lookupRow_one in Hl. change ([i] ++ ?l) with (i :: l).
    rewrite lookupRow_cons, Hl, lookupRow_one.
    apply lookup_ge_None. lia.
  - rewrite lookupRow_cons in Hl.
    change ((i :: j :: p) ++ ?l) with (i :: j :: (p ++ l)).
    rewrite lookupRow_cons. destruct (rs !! i) as [ri|]; [|done].
    exact (IH _ Hl).
Qed.

Lemma lookupRow_appendRow_new (p : list nat) (row : StandardItemList)
    (rs : list Row) (par : Row) :
  lookupRow p rs = Some par ->
  lookupRow (p ++ [length (childRows par)]) (appendRow p row rs)
  = Some (mkRow row []).
Proof.
  unfold appendRow. revert rs. induction p as [|i p IH]; intros rs Hl; [done|].
  destruct p as [|j p].
  - rewrite lookupRow_one in Hl. change ([i] ++ ?l) with (i :: l).
    rewrite alterRow_one, lookupRow_cons, list_lookup_alter_eq, Hl. simpl.
    rewrite lookup_app_r by lia. by rewrite Nat.sub_diag.
  - rewrite lookupRow_cons in Hl.
    change ((i :: j :: p) ++ ?l) with (i :: j :: (p ++ l)).
    rewrite alterRow_cons, lookupRow_cons, list_lookup_alter_eq.
    destruct (rs !! i) as [ri|]; [|done].
    exact (IH _ Hl).
Qed.

Lemma lookupRow_appendRow_old (p q : list nat) (row : StandardItemList)
    (rs : list Row) (r : Row) :
  lookupRow q rs = Some r ->
  ∃ r', lookupRow q (appendRow p row rs) = Some r' ∧ cells r' = cells r.
Proof.
  apply lookupRow_alterRow_cells; [done|].
  intros r0 [|b q'] x Hx; [done|]. simpl in *.
  destruct (childRows r0 !! b) as [rb|] eqn:Hb; [|done].
  by rewrite (lookup_app_l_Some _ _ _ _ Hb).
Qed.

Lemma totalRows_appendRow (p : list nat) (row : StandardItemList)
    (rs : list Row) (par : Row) :
  lookupRow p rs = Some par ->
  totalRows (appendRow p row rs) = S (totalRows rs).
Proof.
  intros Hl. unfold appendRow. rewrite (totalRows_alterRow _ 1 p) with (r := par);
    [lia| |done].
  intros r. rewrite rowCount_mkRow, totalRows_app, rowCount_eq.
  change (totalRows [mkRow row []]) with 1. lia.
Qed.

(** Altering one row leaves the items of every other row alone, when the
    alteration keeps the rows below. *)
Lemma lookupRow_alterRow_ne (f : Row -> Row) :
  (∀ r, childRows (f r) = childRows r) ->
  ∀ p q rs r, p ≠ q -> lookupRow q rs = Some r ->
              ∃ r', lookupRow q (alterRow f p rs) = Some r' ∧ cells r' = cells r.
Proof.
  intros Hf. induction p as [|i p IH]; intros q rs r Hne Hl; [by exists r|].
  destruct q as [|a q]; [done|].
  destruct (decide (a = i)) as [->|Hai].
  - assert (p ≠ q) as Hpq by congruence.
    destruct p as [|j p], q as [|b q]; [done| | |].
    + rewrite lookupRow_cons in Hl. rewrite alterRow_one, lookupRow_cons, list_lookup_alter_eq.
      destruct (rs !! i) as [ri|]; [|done]. simpl. rewrite Hf. by exists r.
    + rewrite lookupRow_one in Hl.
      rewrite alterRow_cons, lookupRow_one, list_lookup_alter_eq, Hl. simpl.
      eexists. split; [reflexivity|done].
    + rewrite lookupRow_cons in Hl.
      rewrite alterRow_cons, lookupRow_cons, list_lookup_alter_eq.
      destruct (rs !! i) as [ri|]; [|done]. exact (IH _ _ _ Hpq Hl).
  - exists r. split; [|done].
    destruct q as [|b q].
    + rewrite lookupRow_one in Hl.
      destruct p; [by rewrite alterRow_one, lookupRow_one, list_lookup_alter_ne|
                   by rewrite alterRow_cons, lookupRow_one, list_lookup_alter_ne].
    + rewrite lookupRow_cons in Hl.
      destruct p; [by rewrite alterRow_one, lookupRow_cons, list_lookup_alter_ne|
                   by rewrite alterRow_cons, lookupRow_cons, list_lookup_alter_ne].
Qed.

Lemma writeRowAt_shape (index : QModelIndex)
    (f : StandardItemList -> StandardItemList) (rs : list Row) :
  length (writeRowAt index f rs) = length rs ∧
  totalRows (writeRowAt index f rs) = totalRows rs.
Proof.
  destruct index as [|p c]; [done|]. simpl. split.
  - apply length_alterRow.
  - apply totalRows_alterRow_same. intros r. by rewrite rowCount_mkRow, rowCount_eq.
Qed.

(** What [rowAt] returns after a write through [rowAt] is what was written. *)
Lemma rowAt_writeRowAt (index : QModelIndex)
    (f : StandardItemList -> StandardItemList) (rs : list Row) (r : Row) (p : list nat)
    (c : nat) :
  index = Index p c -> lookupRow p rs = Some r -> c ≤ length (cells r) ->
  rowAt (writeRowAt index f rs) index = f (rowAt rs index).
Proof.
  intros -> Hl Hc. simpl. rewrite (lookupRow_alterRow_same _ _ _ _ Hl), Hl.
  simpl. rewrite drop_app_length'; [done|]. rewrite length_take. lia.
Qed.

(** ** The index from objects to row locations *)

Lemma multimap_value_elem (k : Z) (d : QModelIndex) (m : ObjectIndexMultiMap) :
  k ∈ m.*1 -> (k, multimap_value k d m) ∈ m.
Proof.
  unfold multimap_value, multimap_values.
  induction m as [|[k' v] m IH]; intros Hk; [by apply elem_of_nil in Hk|].
  rewrite filter_cons. simpl. case_decide as Hd.
  - simpl in Hd. subst k'. simpl. left.
  - simpl in Hk. apply elem_of_cons in Hk as [Hk|Hk]; [simpl in Hd; congruence|].
    right. by apply IH.
Qed.

Lemma multimap_values_elem (k : Z) (v : QModelIndex) (m : ObjectIndexMultiMap) :
  v ∈ multimap_values k m <-> (k, v) ∈ m.
Proof.
  unfold multimap_values. rewrite list_elem_of_fmap. split.
  - intros ([k' v'] & -> & Hin). apply list_elem_of_filter in Hin as [Hk Hin].
    simpl in Hk. by subst k'.
  - intros Hin. exists (k, v). split; [done|].
    apply list_elem_of_filter. done.
Qed.

Lemma multimap_values_NoDup (k : Z) (m : ObjectIndexMultiMap) :
  NoDup m.*2 -> NoDup (multimap_values k m).
Proof.
  unfold multimap_values.
  induction m as [|[k' v] m IH]; intros Hnd; [constructor|].
  rewrite fmap_cons in Hnd. apply NoDup_cons in Hnd as [Hv Hnd].
  rewrite filter_cons. destruct (decide _); [|by apply IH].
  cbn [map]. apply NoDup_cons. split; [|by apply IH].
  intros Hin. apply Hv. simpl in *.
  apply list_elem_of_fmap in Hin as ([k2 v2] & -> & Hin).
  apply list_elem_of_filter in Hin as [_ Hin].
  apply list_elem_of_fmap. by exists (k2, v2).
Qed.

(** ** Rebuilding *)

Lemma presents_keys (N : ObjectModel) (st : ObjectInspectorModel) :
  presents N st -> (reverse (m_objectIndexMultiMap st)).*1 = m_object <$> N.
Proof.
  intros (HF & _ & _). induction HF as [|e kv N l [Hk _] _ IH]; [done|].
  rewrite !fmap_cons. by rewrite Hk, IH.
Qed.

Lemma rebuild_step_presents (done : ObjectModel) (e : ObjectData)
    (st : ObjectInspectorModel) :
  presents done st ->
  m_parent e ∈ (m_object <$> done) ->
  ∃ st', rebuild_step e st = Ok st' ∧
         presents (done ++ [e]) st' ∧
         length (items st') = length (items st) ∧
         m_icons st' = m_icons st ∧
         m_model st' = m_model st ∧
         m_formWindow st' = m_formWindow st.
Proof.
  intros Hpres Hparent.
  pose proof (presents_keys _ _ Hpres) as Hkeys.
  destruct Hpres as (HF & Hnd & Htot).
  assert (m_parent e ∈ (m_objectIndexMultiMap st).*1) as Hin.
  { rewrite <- Hkeys in Hparent. rewrite fmap_reverse in Hparent.
    by rewrite elem_of_reverse in Hparent. }
  apply (multimap_value_elem _ InvalidIndex) in Hin.
  assert (∀ kv, kv ∈ m_objectIndexMultiMap st ->
                ∃ path r, kv.2 = Index path 0 ∧ lookupRow path (items st) = Some r)
    as Hvalid.
  { intros kv Hkv. rewrite <- elem_of_reverse in Hkv.
    apply list_elem_of_lookup in Hkv as [i Hi].
    destruct (Forall2_lookup_r _ _ _ _ _ HF Hi) as (x & _ & _ & path & r & ? & ? & _).
    eauto. }
  destruct (Hvalid _ Hin) as (path & par & Hidx & Hpar). simpl in Hidx.
  unfold rebuild_step. rewrite Hidx. simpl. rewrite Hpar.
  eexists. split; [reflexivity|].
  unfold presents.
  cbn [items m_icons m_objectIndexMultiMap m_model m_formWindow
       set_objectIndexMultiMap set_items multimap_insert].
  fold (rowFor (m_icons st) e). unfold multimap_insert.
  split; [|split; [apply length_alterRow|done]].
  split; [|split].
  - rewrite reverse_cons. apply Forall2_app.
    + eapply Forall2_impl; [exact HF|]. simpl.
      intros x kv (Hk & p & r & Hp & Hr & Hc). split; [done|].
      destruct (lookupRow_appendRow_old path p (rowFor (m_icons st) e) _ _ Hr)
        as (r' & Hr' & Hc').
      exists p, r'. split; [done|]. split; [exact Hr'|congruence].
    + constructor; [|constructor]. cbn [fst snd]. split; [done|].
      eexists _, _. split; [reflexivity|].
      split; [by apply lookupRow_appendRow_new|reflexivity].
  - simpl. constructor; [|done].
    intros Hdup. apply list_elem_of_fmap in Hdup as (kv & Hkv2 & Hkv).
    destruct (Hvalid _ Hkv) as (p & r & Hp & Hr).
    rewrite <- Hkv2 in Hp. injection Hp as <-.
    by rewrite (lookupRow_snoc_fresh _ _ _ Hpar) in Hr.
  - simpl. rewrite length_app. simpl.
    rewrite (totalRows_appendRow _ _ _ _ Hpar). lia.
Qed.

Lemma rebuild_loop_presents (rest : ObjectModel) :
  ∀ (done : ObjectModel) (seen : list Z) (st : ObjectInspectorModel),
    presents done st ->
    seen ⊆ (m_object <$> done) ->
    parentsKnown seen rest ->
    ∃ st', forEach rebuild_step rest st = Ok st' ∧
           presents (done ++ rest) st' ∧
           length (items st') = length (items st) ∧
           m_icons st' = m_icons st ∧
           m_model st' = m_model st ∧
           m_formWindow st' = m_formWindow st.
Proof.
  induction rest as [|e rest IH]; intros done seen st Hpres Hseen Hk.
  - exists st. rewrite app_nil_r. done.
  - destruct Hk as [Hp Hk].
    destruct (rebuild_step_presents done e st Hpres) as (st1 & H1 & Hpres1 & Hl1 & Hi1 & Hm1 & Hf1).
    { by apply Hseen. }
    destruct (IH (done ++ [e]) (m_object e :: seen) st1 Hpres1) as (st2 & H2 & Hpres2 & Hl2 & Hi2 & Hm2 & Hf2).
    { rewrite fmap_app. intros x Hx.
      apply elem_of_cons in Hx as [->|Hx]; apply elem_of_app;
        [right; left|left; by apply Hseen]. }
    { done. }
    exists st2. simpl. rewrite H1. simpl. rewrite <- app_assoc in Hpres2.
    split; [done|]. split; [done|]. repeat split; congruence.
Qed.

(** From a model with at most one top-level row, [rebuild] on a
    well-formed snapshot succeeds and leaves a tree and an index that
    present exactly that snapshot. *)
Lemma rebuild_presents (N : ObjectModel) (st : ObjectInspectorModel) :
  length (items st) ≤ 1 ->
  wellFormedSnapshot N ->
  ∃ st', rebuild N st = Ok st' ∧
         presents N st' ∧
         length (items st') = 1 ∧
         m_icons st' = m_icons st ∧
         m_formWindow st' = m_formWindow st.
Proof.
  intros Hlen Hwf. destruct N as [|e0 rest]; [done|]. destruct Hwf as [_ Hk].
  unfold rebuild.
  assert (items (clearItems st) = []) as Hclear.
  { simpl. destruct (items st) as [|r [|r' rs]]; simpl in *; [done..|lia]. }
  rewrite Hclear.
  match goal with |- ∃ st', forEach _ _ ?s = _ ∧ _ => set (st0 := s) end.
  destruct (rebuild_loop_presents rest [e0] [m_object e0] st0)
    as (st' & H & Hpres & Hl & Hi & Hm & Hf).
  - split; [|split]; simpl.
    + constructor; [|constructor]. simpl. split; [done|].
      eexists _, _. split; [reflexivity|]. split; reflexivity.
    + repeat constructor. set_solver.
    + done.
  - set_solver.
  - done.
  - exists st'. split; [done|]. split; [done|]. split; [by rewrite Hl|].
    split; [rewrite Hi|rewrite Hf]; reflexivity.
Qed.

(** What a filled row holds, and where the rows of a presented snapshot
    stand. *)
Lemma rowFor_cells (icons : LayoutInfoType -> QIcon) (e : ObjectData) :
  rowFor icons e =
  [mkQStandardItem 43 (VString (m_objectName e)) (VIcon (nameColumnIcon icons e))
                   Invalid (VObject (m_object e));
   mkQStandardItem 41 (VString (m_className e)) (VIcon (classColumnIcon icons e))
                   (VString (m_className e)) (VObject (m_object e))].
Proof.
  unfold nameColumnIcon, classColumnIcon.
  destruct e as [p o t c n i l]. by destruct t.
Qed.

Lemma presents_lookup (N : ObjectModel) (st : ObjectInspectorModel) (i : nat)
    (kv : Z * QModelIndex) :
  presents N st ->
  reverse (m_objectIndexMultiMap st) !! i = Some kv ->
  ∃ e path r, N !! i = Some e ∧ kv = (m_object e, Index path 0) ∧
              lookupRow path (items st) = Some r ∧
              cells r = rowFor (m_icons st) e.
Proof.
  intros (HF & _ & _) Hkv.
  destruct (Forall2_lookup_r _ _ _ _ _ HF Hkv) as (e & He & Hk & path & r & Hp & Hr & Hc).
  exists e, path, r. split; [done|]. split; [|done].
  destruct kv as [k v]. simpl in *. by subst.
Qed.

(** ** Patching in place *)

Lemma callsFor_app (o : Z) (a b : list PatchCall) :
  callsFor o (a ++ b) = callsFor o a ++ callsFor o b.
Proof. apply filter_app. Qed.

Lemma callsFor_entry (o : Z) (e : ObjectData) (mask : Z) (l : list QModelIndex) :
  callsFor o (map (fun index => (index, e, mask)) l)
  = if bool_decide (m_object e = o) then map (fun index => (index, e, mask)) l else [].
Proof.
  unfold callsFor. induction l as [|i l IH]; [by case_bool_decide|].
  cbn [map]. rewrite filter_cons, IH. cbn [fst snd].
  case_decide; case_bool_decide; done.
Qed.

Lemma applyCalls_app (icons : LayoutInfoType -> QIcon) (a b : list PatchCall)
    (rs : list Row) :
  applyCalls icons (a ++ b) rs = applyCalls icons b (applyCalls icons a rs).
Proof. apply foldl_app. Qed.

Lemma applyCalls_entry (icons : LayoutInfoType -> QIcon) (e : ObjectData) (mask : Z)
    (l : list QModelIndex) (rs : list Row) :
  applyCalls icons (map (fun index => (index, e, mask)) l) rs
  = foldl (fun rs index =>
             writeRowAt index (fun row => setItemsDisplayData e row icons mask) rs)
          rs l.
Proof. revert rs. induction l as [|i l IH]; intros rs; [done|]. apply IH. Qed.

(** The loop of [updateItemContents], for fixed icons, index and new
    snapshot. *)
Section PatchLoop.

Context (icons : LayoutInfoType -> QIcon) (indexMap : ObjectIndexMultiMap)
        (N : ObjectModel).

Lemma updateItemContents_step_shape (s : PatchState) (i : nat) :
  length (ps_items (updateItemContents_step icons indexMap N s i)) = length (ps_items s) ∧
  totalRows (ps_items (updateItemContents_step icons indexMap N s i)) = totalRows (ps_items s) ∧
  length (ps_oldModel (updateItemContents_step icons indexMap N s i)) = length (ps_oldModel s).
Proof.
  unfold updateItemContents_step.
  destruct (N !! i) as [newEntry|]; [|done].
  destruct (ps_oldModel s !! i) as [entry|]; [|done].
  destruct (bool_decide (compare entry newEntry ≠ 0%Z)); [|done].
  destruct (bool_decide (m_object newEntry ∈ ps_changedObjects s)); simpl.
  - by rewrite length_insert.
  - rewrite length_insert. split; [|split; [|done]].
    + apply (foldl_invariant (λ rs, length rs = length (ps_items s))); [|done].
      intros rs idx <-. apply writeRowAt_shape.
    + apply (foldl_invariant (λ rs, totalRows rs = totalRows (ps_items s))); [|done].
      intros rs idx <-. apply writeRowAt_shape.
Qed.

(** The tree after a step is the tree before it with the calls performed
    that the step recorded. *)
Lemma updateItemContents_step_items (rs0 : list Row) (s : PatchState) (i : nat) :
  ps_items s = applyCalls icons (ps_calls s) rs0 ->
  ps_items (updateItemContents_step icons indexMap N s i)
  = applyCalls icons (ps_calls (updateItemContents_step icons indexMap N s i)) rs0.
Proof.
  intros Hs. unfold updateItemContents_step.
  destruct (N !! i) as [newEntry|]; [|done].
  destruct (ps_oldModel s !! i) as [entry|]; [|done].
  destruct (bool_decide (compare entry newEntry ≠ 0%Z)); [|done].
  destruct (bool_decide (m_object newEntry ∈ ps_changedObjects s)); [done|].
  cbn [ps_items ps_calls]. by rewrite applyCalls_app, applyCalls_entry, Hs.
Qed.

(** The calls made for [o] from position [k] on: none if [o] was handled
    before; otherwise those of its first changed occurrence from [k] on,
    one per row location of [o]. *)
Lemma updateItemContents_loop_calls (o : Z) :
  ∀ (n k : nat) (s : PatchState),
    k + n = length N ->
    length (ps_oldModel s) = length N ->
    callsFor o (ps_calls (foldl (updateItemContents_step icons indexMap N) s (seq k n)))
    = callsFor o (ps_calls s) ++
      (if bool_decide (o ∈ ps_changedObjects s) then []
       else match firstChange o (drop k (ps_oldModel s)) (drop k N) with
            | Some (e, mask) =>
                map (fun index => (index, e, mask)) (multimap_values o indexMap)
            | None => []
            end).
Proof.
  induction n as [|n IH]; intros k s Hk Hlen.
  - simpl. rewrite (drop_ge N) by lia. rewrite (drop_ge (ps_oldModel s)) by lia.
    simpl. case_bool_decide; by rewrite app_nil_r.
  - cbn [seq foldl].
    destruct (lookup_lt_is_Some_2 N k) as [newEntry HN]; [lia|].
    destruct (lookup_lt_is_Some_2 (ps_oldModel s) k) as [entry HP]; [lia|].
    rewrite (drop_S _ _ _ HN), (drop_S _ _ _ HP). cbn [firstChange].
    pose proof (updateItemContents_step_shape s k) as (_ & _ & Hlen1).
    rewrite IH by lia. clear IH.
    unfold updateItemContents_step in *. rewrite HN, HP in *.
    destruct (decide (compare entry newEntry = 0%Z)) as [Hz|Hnz].
    + rewrite (bool_decide_eq_false_2 (compare entry newEntry ≠ 0%Z)) by tauto.
      by rewrite (bool_decide_eq_false_2 (_ ∧ _)) by tauto.
    + rewrite (bool_decide_eq_true_2 (compare entry newEntry ≠ 0%Z)) by done.
      destruct (decide (m_object newEntry ∈ ps_changedObjects s)) as [Hin|Hnin].
      * rewrite (bool_decide_eq_true_2 (_ ∈ _)) by done.
        cbn [ps_calls ps_changedObjects ps_oldModel].
        rewrite drop_insert_lt by lia.
        destruct (decide (o ∈ ps_changedObjects s)) as [Ho|Ho].
        -- by rewrite !(bool_decide_eq_true_2 (o ∈ _)) by done.
        -- rewrite !(bool_decide_eq_false_2 (o ∈ _)) by done.
           rewrite (bool_decide_eq_false_2 (_ ∧ _)); [done|].
           intros [Heq _]. by rewrite Heq in Hin.
      * rewrite (bool_decide_eq_false_2 (_ ∈ ps_changedObjects s)) by done.
        cbn [ps_calls ps_changedObjects ps_oldModel].
        rewrite drop_insert_lt by lia.
        rewrite callsFor_app, callsFor_entry, <- app_assoc. f_equal.
        destruct (decide (m_object newEntry = o)) as [Heq|Hne].
        -- rewrite Heq in *.
           rewrite (bool_decide_eq_true_2 (o = o)) by done.
           rewrite (bool_decide_eq_true_2 (o ∈ {[o]} ∪ _)) by set_solver.
           rewrite (bool_decide_eq_false_2 (o ∈ ps_changedObjects s)) by done.
           rewrite (bool_decide_eq_true_2 (_ ∧ _)) by done.
           by rewrite app_nil_r.
        -- rewrite (bool_decide_eq_false_2 (m_object newEntry = o)) by done.
           rewrite (bool_decide_eq_false_2 (_ ∧ _)) by tauto.
           simpl.
           destruct (decide (o ∈ ps_changedObjects s)) as [Ho|Ho].
           ++ rewrite (bool_decide_eq_true_2 (o ∈ {[_]} ∪ _))
                by (apply elem_of_union; by right).
              by rewrite (bool_decide_eq_true_2 (o ∈ ps_changedObjects s)) by done.
           ++ rewrite (bool_decide_eq_false_2 (o ∈ {[_]} ∪ _))
                by (intros [Hx%elem_of_singleton|Hx]%elem_of_union; congruence).
              by rewrite (bool_decide_eq_false_2 (o ∈ ps_changedObjects s)) by done.
Qed.

(** After the loop of [updateItemContents] the old snapshot has become the
    new one: a changed entry is overwritten, an unchanged one has the same
    identity and the same attributes. *)
Lemma updateItemContents_loop_model :
  ∀ (n k : nat) (s : PatchState),
    k + n = length N ->
    length (ps_oldModel s) = length N ->
    take k (ps_oldModel s) = take k N ->
    (∀ i a b, ps_oldModel s !! i = Some a -> N !! i = Some b ->
              identity a = identity b) ->
    ps_oldModel (foldl (updateItemContents_step icons indexMap N) s (seq k n)) = N.
Proof.
  induction n as [|n IH]; intros k s Hk Hlen Htake Hid.
  - simpl. rewrite <- (take_ge (ps_oldModel s) k), Htake by lia.
    apply take_ge. lia.
  - cbn [seq foldl].
    destruct (lookup_lt_is_Some_2 N k) as [newEntry HN]; [lia|].
    destruct (lookup_lt_is_Some_2 (ps_oldModel s) k) as [entry HP]; [lia|].
    pose proof (updateItemContents_step_shape s k) as (_ & _ & Hlen1).
    assert (ps_oldModel (updateItemContents_step icons indexMap N s k)
            = <[k := newEntry]> (ps_oldModel s)) as Hold.
    { unfold updateItemContents_step. rewrite HN, HP.
      case_bool_decide as Hc.
      - by case_bool_decide.
      - apply compare_zero_attributes in Hc as Hattr.
        rewrite (ObjectData_eq_intro entry newEntry (Hid _ _ _ HP HN) Hattr) in HP.
        by rewrite list_insert_id. }
    apply IH; [lia|congruence| |].
    + rewrite Hold, (take_S_r _ _ newEntry), (take_S_r N _ newEntry) by
        (done || (apply list_lookup_insert_eq; lia)).
      rewrite take_insert_ge by lia. by rewrite Htake.
    + intros i a b Ha Hb. rewrite Hold in Ha.
      destruct (decide (i = k)) as [->|Hne].
      * rewrite list_lookup_insert_eq in Ha by lia. congruence.
      * rewrite list_lookup_insert_ne in Ha by done. by eapply Hid.
Qed.

End PatchLoop.

Lemma updateItemContents_shape (N : ObjectModel) (st : ObjectInspectorModel) :
  length (m_model st) = length N ->
  ∃ st' calls,
    updateItemContents N st = Ok (st', calls) ∧
    length (items st') = length (items st) ∧
    totalRows (items st') = totalRows (items st) ∧
    m_objectIndexMultiMap st' = m_objectIndexMultiMap st ∧
    m_icons st' = m_icons st ∧
    m_formWindow st' = m_formWindow st ∧
    length (m_model st') = length N.
Proof.
  intros Hlen. unfold updateItemContents. rewrite bool_decide_eq_true_2 by done.
  eexists _, _. split; [reflexivity|]. simpl.
  match goal with |- context [foldl ?f ?s0 ?l] =>
    pose proof (foldl_invariant
      (λ s, length (ps_items s) = length (items st) ∧
            totalRows (ps_items s) = totalRows (items st) ∧
            length (ps_oldModel s) = length N) f l s0) as H
  end.
  destruct H as (H1 & H2 & H3); [|done|done].
  intros s i (H1 & H2 & H3).
  destruct (updateItemContents_step_shape (m_icons st) (m_objectIndexMultiMap st) N s i)
    as (G1 & G2 & G3).
  rewrite G1, G2, G3. done.
Qed.

Lemma firstChange_Some (o : Z) (P N : ObjectModel) (e : ObjectData) (mask : Z) :
  firstChange o P N = Some (e, mask) ->
  ∃ i old, P !! i = Some old ∧ N !! i = Some e ∧ m_object e = o ∧
           mask = compare old e ∧ mask ≠ 0%Z.
Proof.
  revert N. induction P as [|entry P IH]; intros [|newEntry N] H; try done.
  cbn [firstChange] in H. case_bool_decide as Hc.
  - injection H as <- <-. exists 0, entry. by destruct Hc.
  - destruct (IH _ H) as (i & old & ? & ? & ?). by exists (S i), old.
Qed.

Lemma firstChange_None (o : Z) (P N : ObjectModel) :
  firstChange o P N = None <->
  ∀ i old new, P !! i = Some old -> N !! i = Some new -> m_object new = o ->
               compare old new = 0%Z.
Proof.
  revert N. induction P as [|entry P IH]; intros [|newEntry N]; try done.
  cbn [firstChange]. case_bool_decide as Hc.
  - split; [done|]. intros H. destruct Hc as [Ho Hm].
    by specialize (H 0 entry newEntry eq_refl eq_refl Ho).
  - rewrite IH. split.
    + intros H [|i] old new Hold Hnew Ho; [|by eapply H].
      injection Hold as <-. injection Hnew as <-.
      destruct (decide (compare entry newEntry = 0%Z)); tauto.
    + intros H i old new Hold Hnew Ho. by apply (H (S i) old new).
Qed.

Lemma updateItemContents_model (N : ObjectModel) (st st' : ObjectInspectorModel)
    (calls : list PatchCall) :
  identity <$> N = identity <$> m_model st ->
  updateItemContents N st = Ok (st', calls) ->
  m_model st' = N.
Proof.
  intros Hid H. unfold updateItemContents in H.
  case_bool_decide as Hlen; [|done]. injection H as <- _.
  cbn [m_model set_items set_model].
  apply updateItemContents_loop_model; simpl; [lia|done|done|].
  intros i a b. by apply same_identities_lookup.
Qed.

(** The calls that [updateItemContents] records, per object. *)
Lemma updateItemContents_calls (N : ObjectModel) (st st' : ObjectInspectorModel)
    (calls : list PatchCall) (o : Z) :
  updateItemContents N st = Ok (st', calls) ->
  callsFor o calls =
    match firstChange o (m_model st) N with
    | Some (e, mask) =>
        map (fun index => (index, e, mask))
            (multimap_values o (m_objectIndexMultiMap st))
    | None => []
    end.
Proof.
  intros H. unfold updateItemContents in H.
  case_bool_decide as Hlen; [|done]. injection H as <- <-.
  rewrite updateItemContents_loop_calls by (simpl; lia).
  simpl. rewrite bool_decide_eq_false_2 by set_solver. done.
Qed.

Lemma updateItemContents_items (N : ObjectModel) (st st' : ObjectInspectorModel)
    (calls : list PatchCall) :
  updateItemContents N st = Ok (st', calls) ->
  items st' = applyCalls (m_icons st) calls (items st).
Proof.
  intros H. unfold updateItemContents in H.
  case_bool_decide as Hlen; [|done]. injection H as <- <-.
  cbn [items set_items].
  apply (foldl_invariant
           (λ s, ps_items s = applyCalls (m_icons st) (ps_calls s) (items st)));
    [|done].
  intros s i. apply updateItemContents_step_items.
Qed.

(** Every recorded call stems from the first changed position of its
    object and goes to a location that the index holds for that object. *)
Lemma updateItemContents_call_origin (N : ObjectModel) (st st' : ObjectInspectorModel)
    (calls : list PatchCall) (c : PatchCall) :
  updateItemContents N st = Ok (st', calls) ->
  c ∈ calls ->
  firstChange (m_object c.1.2) (m_model st) N = Some (c.1.2, c.2) ∧
  (m_object c.1.2, c.1.1) ∈ m_objectIndexMultiMap st.
Proof.
  intros H Hc.
  assert (c ∈ callsFor (m_object c.1.2) calls) as Hin
    by (by apply list_elem_of_filter).
  rewrite (updateItemContents_calls _ _ _ _ _ H) in Hin.
  destruct (firstChange _ _ _) as [[e mask]|]; [|by apply elem_of_nil in Hin].
  apply list_elem_of_fmap in Hin as (idx & -> & Hidx). simpl.
  split; [done|]. by apply multimap_values_elem.
Qed.

Lemma setItemsDisplayData_attributes (e e' : ObjectData) (row : StandardItemList)
    (icons : LayoutInfoType -> QIcon) (mask : Z) :
  attributes e = attributes e' ->
  setItemsDisplayData e row icons mask = setItemsDisplayData e' row icons mask.
Proof.
  destruct e, e'. unfold attributes. simpl. intros [= -> -> -> -> ->]. reflexivity.
Qed.

(** Patching the row of an entry with the mask of [compare] gives the row
    that [rebuild] fills for the new entry. *)
Lemma patch_row (icons : LayoutInfoType -> QIcon) (p e : ObjectData) :
  m_object p = m_object e ->
  setItemsDisplayData e (rowFor icons p) icons (compare p e) = rowFor icons e.
Proof.
  destruct p as [pp po pt pc pn pi pl], e as [ep eo et ec en ei el]. simpl.
  intros ->. unfold rowFor, setItems, compare. simpl.
  destruct (decide (pc = ec)) as [->|Hc], (decide (pn = en)) as [->|Hn],
           (decide (pi = ei)) as [->|Hi], (decide (pt = et)) as [->|Ht],
           (decide (pl = el)) as [->|Hl];
    repeat (first [rewrite (bool_decide_eq_false_2 (_ ≠ _)) by (intros ?; done)
                  |rewrite (bool_decide_eq_true_2 (_ ≠ _)) by done]);
    try (assert (sameIcon ei ei = true) as -> by by apply sameIcon_eq);
    try (assert (sameIcon pi ei = false) as ->
           by (destruct (sameIcon pi ei) eqn:E; [by apply sameIcon_eq in E|done]));
    simpl; unfold setItemsDisplayData; simpl;
    try reflexivity; destruct et; try reflexivity; destruct pt; reflexivity.
Qed.

(** What a call under the mask of [compare] writes to the two items of a
    row. *)
Lemma setItemsDisplayData_compare (icons : LayoutInfoType -> QIcon)
    (old e : ObjectData) (name class : QStandardItem) :
  setItemsDisplayData e [name; class] icons (compare old e)
  = changedColumnsApplied icons old e name class.
Proof.
  destruct old as [pp po pt pc pn pi pl], e as [ep eo et ec en ei el].
  destruct name as [nf nd nc nt nu], class as [cf cd cc ct cu].
  unfold changedColumnsApplied, compare, nameColumnIcon, classColumnIcon. simpl.
  destruct (decide (pc = ec)) as [->|Hc], (decide (pn = en)) as [->|Hn],
           (decide (pi = ei)) as [->|Hi], (decide (pt = et)) as [->|Ht],
           (decide (pl = el)) as [->|Hl];
    repeat (first [rewrite (bool_decide_eq_false_2 (_ ≠ _)) by (intros ?; done)
                  |rewrite (bool_decide_eq_true_2 (_ ≠ _)) by done]);
    try (assert (sameIcon ei ei = true) as -> by by apply sameIcon_eq);
    try (assert (sameIcon pi ei = false) as ->
           by (destruct (sameIcon pi ei) eqn:E; [by apply sameIcon_eq in E|done]));
    simpl; unfold setItemsDisplayData; simpl;
    try reflexivity; destruct et; reflexivity.
Qed.

(** The items of the row at [p] after calls on first-column indexes: the
    calls addressed to [p] have acted on them, in order, and no other. *)
Lemma applyCalls_lookup (icons : LayoutInfoType -> QIcon) (p : list nat)
    (calls : list PatchCall) :
  (∀ c, c ∈ calls -> ∃ q, c.1.1 = Index q 0) ->
  ∀ rs r, lookupRow p rs = Some r ->
          ∃ r', lookupRow p (applyCalls icons calls rs) = Some r' ∧
                cells r' = cellsAfter icons (callsAt p calls) (cells r).
Proof.
  unfold applyCalls, cellsAfter, callsAt.
  induction calls as [|c calls IH]; intros Hcol rs r Hl; [by exists r|].
  destruct (Hcol c) as [q Hq]; [left|].
  assert (∀ c', c' ∈ calls -> ∃ q', c'.1.1 = Index q' 0) as Hcol'.
  { intros c' Hc'. apply Hcol. by right. }
  cbn [foldl]. rewrite filter_cons, Hq. cbn [writeRowAt].
  set (f := fun r0 : Row =>
              mkRow (take 0 (cells r0) ++
                     setItemsDisplayData c.1.2 (drop 0 (cells r0)) icons c.2)
                    (childRows r0)).
  destruct (decide (q = p)) as [->|Hne].
  - rewrite decide_True by done.
    pose proof (lookupRow_alterRow_same f p rs r Hl) as Hl'.
    destruct (IH Hcol' _ _ Hl') as (r' & Hr' & Hc').
    exists r'. split; [exact Hr'|]. rewrite Hc'. reflexivity.
  - rewrite decide_False by congruence.
    destruct (lookupRow_alterRow_ne f (λ _, eq_refl) q p rs r Hne Hl) as (r1 & Hl1 & Hc1).
    destruct (IH Hcol' _ _ Hl1) as (r' & Hr' & Hc').
    exists r'. split; [exact Hr'|]. by rewrite Hc', Hc1.
Qed.

Lemma callsAt_entry (p : list nat) (e : ObjectData) (mask : Z) (l : list QModelIndex) :
  NoDup l -> Index p 0 ∈ l ->
  callsAt p (map (fun index => (index, e, mask)) l) = [(Index p 0, e, mask)].
Proof.
  intros Hnd Hin. unfold callsAt.
  assert (∀ l', filter (λ c : PatchCall, c.1.1 = Index p 0)
                       (map (λ index, (index, e, mask)) l')
                = map (λ index, (index, e, mask)) (filter (λ y, y = Index p 0) l')) as ->.
  { induction l' as [|i l' IH]; [done|].
    cbn [map]. rewrite !filter_cons, IH. cbn [fst]. by destruct (decide _). }
  by rewrite filter_eq_NoDup.
Qed.

(** Patching keeps the presentation: if tree and index present the stored
    snapshot, and each snapshot gives one object the same attributes
    everywhere, then after [updateItemContents] they present the new
    snapshot, just as a rebuild would have left them. *)
Lemma updateItemContents_presents (N : ObjectModel) (st st' : ObjectInspectorModel)
    (calls : list PatchCall) :
  presents (m_model st) st ->
  sameObjectSameAttributes (m_model st) ->
  sameObjectSameAttributes N ->
  identity <$> N = identity <$> m_model st ->
  updateItemContents N st = Ok (st', calls) ->
  presents N st'.
Proof.
  intros (HF & Hnd & Htot) HsP HsN Hid Hu.
  assert (length (m_model st) = length N) as Hlen.
  { apply (f_equal length) in Hid. by rewrite !length_fmap in Hid. }
  destruct (updateItemContents_shape N st Hlen)
    as (st1 & calls1 & Hu1 & _ & Ht & Hi & Hic & _).
  rewrite Hu in Hu1. injection Hu1 as <- <-.
  pose proof (updateItemContents_items _ _ _ _ Hu) as Hitems.
  unfold presents. rewrite Hi, Hic, Ht, Htot, Hlen.
  split; [|done].
  apply Forall2_same_length_lookup. split.
  { apply Forall2_length in HF. congruence. }
  intros i new kv Hnew Hkv.
  destruct (lookup_lt_is_Some_2 (m_model st) i) as [old Hold].
  { rewrite Hlen. by eapply lookup_lt_Some. }
  destruct (Forall2_lookup_lr _ _ _ _ _ _ HF Hold Hkv) as (Hk & p & r & Hp & Hr & Hc).
  pose proof (same_identities_lookup _ _ _ _ _ Hid Hold Hnew) as Hidi.
  assert (m_object old = m_object new) as Ho by (by injection Hidi).
  split; [congruence|]. exists p.
  assert (∀ c, c ∈ calls -> ∃ q, c.1.1 = Index q 0) as Hcol.
  { intros c Hcin.
    destruct (updateItemContents_call_origin _ _ _ _ _ Hu Hcin) as [_ Hin].
    rewrite <- elem_of_reverse in Hin.
    apply list_elem_of_lookup in Hin as [j Hj].
    destruct (Forall2_lookup_r _ _ _ _ _ HF Hj) as (x & _ & _ & q & _ & Hq & _).
    by exists q. }
  destruct (applyCalls_lookup (m_icons st) p calls Hcol _ _ Hr) as (r' & Hr' & Hc').
  exists r'. split; [done|]. split; [by rewrite Hitems|].
  rewrite Hc', Hc. clear Hc' Hr'.
  assert ((m_object new, Index p 0) ∈ m_objectIndexMultiMap st) as Hkvin.
  { rewrite <- elem_of_reverse. apply list_elem_of_lookup. exists i.
    rewrite Hkv. destruct kv as [k v]. simpl in *. congruence. }
  assert (callsAt p calls = callsAt p (callsFor (m_object new) calls)) as ->.
  { apply filter_filter_impl. intros c Hcin Hcp.
    destruct (updateItemContents_call_origin _ _ _ _ _ Hu Hcin) as [_ Hin].
    rewrite Hcp in Hin. by apply (NoDup_snd_key _ _ _ _ Hnd Hin Hkvin). }
  rewrite (updateItemContents_calls _ _ _ _ _ Hu).
  destruct (firstChange (m_object new) (m_model st) N) as [[e mask]|] eqn:Hfc.
  - rewrite callsAt_entry;
      [|by apply multimap_values_NoDup|by apply multimap_values_elem].
    apply firstChange_Some in Hfc as (i0 & old0 & Hold0 & Hnew0 & Ho0 & -> & _).
    assert (m_object old0 = m_object e) as Ho00.
    { pose proof (same_identities_lookup _ _ _ _ _ Hid Hold0 Hnew0) as H1.
      by injection H1. }
    assert (attributes old0 = attributes old) as Hao.
    { apply HsP; [by eapply list_elem_of_lookup_2..|]. congruence. }
    assert (attributes e = attributes new) as Han.
    { apply HsN; [by eapply list_elem_of_lookup_2..|]. congruence. }
    cbn [cellsAfter foldl fst snd].
    rewrite (setItemsDisplayData_attributes e new) by done.
    rewrite (compare_attributes old0 e old new) by done.
    by apply patch_row.
  - assert (callsAt p [] = []) as -> by done. cbn [cellsAfter foldl].
    f_equal. apply ObjectData_eq_intro; [done|].
    apply compare_zero_attributes.
    exact (proj1 (firstChange_None _ _ _) Hfc i old new Hold Hnew eq_refl).
Qed.

(** ** Updating *)

Lemma update_single_root (fuel : nat) (h : Host) (fw : Z)
    (st st' : ObjectInspectorModel) (r : UpdateResult) :
  length (items st) ≤ 1 ->
  update fuel h fw st = Ok (r, st') ->
  length (items st') ≤ 1.
Proof.
  intros Hlen. unfold update.
  destruct (bool_decide (_ = nullptr)).
  - intros [= <- <-]. simpl. rewrite length_drop. lia.
  - intros H. apply bind_Ok_inv in H as (N & HN & H).
    destruct (ObjectModel_eq N _) eqn:Heq.
    + apply ObjectModel_eq_identity in Heq.
      apply (f_equal length) in Heq. rewrite !length_fmap in Heq.
      destruct (updateItemContents_shape N (set_formWindow fw st))
        as (st1 & calls & Hu & Hl & _); [done|].
      rewrite Hu in H. simpl in H. injection H as <- <-.
      rewrite Hl. done.
    + apply createModelRecursion_wellFormed in HN.
      destruct (rebuild_presents N (set_formWindow fw st)) as (st1 & Hr & _ & Hl & _);
        [done..|].
      rewrite Hr in H. simpl in H. injection H as <- <-. simpl. lia.
Qed.

Lemma reachable_single_root (st : ObjectInspectorModel) :
  reachable st -> length (items st) ≤ 1.
Proof.
  induction 1 as [|st fuel h fw r st' _ IH Hu]; [simpl; lia|].
  by eapply update_single_root.
Qed.

(** Whatever [update] returns, the snapshot it leaves in the model is
    empty or the one that the walk of this call produced. *)
Lemma update_model (fuel : nat) (h : Host) (fw : Z)
    (st st' : ObjectInspectorModel) (r : UpdateResult) :
  update fuel h fw st = Ok (r, st') ->
  (r = NoForm ∧ m_model st' = []) ∨
  (r ≠ NoForm ∧
   createModelRecursion fuel h fw nullptr (mainContainer h fw) []
     (ModelRecursionContext_new (translate h "ObjectInspectorModel" "separator"))
   = Ok (m_model st')).
Proof.
  unfold update. destruct (bool_decide (fw ≠ nullptr)).
  - destruct (bool_decide (_ = nullptr)).
    + intros [= <- <-]. by left.
    + intros H. right. apply bind_Ok_inv in H as (N & HN & H).
      destruct (ObjectModel_eq N _) eqn:Heq.
      * apply ObjectModel_eq_identity in Heq.
        apply bind_Ok_inv in H as ([st1 calls] & Hu & [= <- <-]).
        by rewrite (updateItemContents_model _ _ _ _ Heq Hu).
      * apply bind_Ok_inv in H as (st1 & Hr & [= <- <-]). done.
  - simpl. intros [= <- <-]. by left.
Qed.

Lemma reachable_model (st : ObjectInspectorModel) :
  reachable st ->
  m_model st = [] ∨
  ∃ fuel h fwi root ctx,
    createModelRecursion fuel h fwi nullptr root [] ctx = Ok (m_model st).
Proof.
  intros [ci|st0 fuel h fw r st' _ Hu]; [by left|].
  apply update_model in Hu as [[_ ->]|[_ HN]]; [by left|].
  right. eauto 10.
Qed.

(** In every state the stored snapshot gives one object the same
    attributes wherever it is listed. *)
Lemma reachable_sameObjectSameAttributes (st : ObjectInspectorModel) :
  reachable st -> sameObjectSameAttributes (m_model st).
Proof.
  intros Hr. apply reachable_model in Hr as [->|(fuel & h & fwi & root & ctx & HN)].
  - intros e1 e2 H1. by apply elem_of_nil in H1.
  - by eapply createModelRecursion_sameObjectSameAttributes.
Qed.

(** In a model whose tree and index present its stored snapshot, every
    successful [update] leaves a model of which this holds again. *)
Lemma update_presents (fuel : nat) (h : Host) (fw : Z)
    (st st' : ObjectInspectorModel) (r : UpdateResult) :
  length (items st) ≤ 1 ->
  presents (m_model st) st ->
  sameObjectSameAttributes (m_model st) ->
  update fuel h fw st = Ok (r, st') ->
  presents (m_model st') st'.
Proof.
  intros Hlen Hpres Hs Hu.
  assert (∀ st0, length (items st0) ≤ 1 ->
                 presents [] (set_formWindow nullptr (clearItems st0))) as Hempty.
  { intros st0 H0. unfold presents. simpl.
    destruct (items st0) as [|r0 [|r1 rs]]; simpl in *; [| |lia].
    - split; [constructor|]. split; [constructor|done].
    - split; [constructor|]. split; [constructor|done]. }
  unfold update in Hu. destruct (bool_decide (fw ≠ nullptr)).
  - destruct (bool_decide (_ = nullptr)).
    + injection Hu as <- <-. by apply Hempty.
    + apply bind_Ok_inv in Hu as (N & HN & Hu).
      destruct (ObjectModel_eq N _) eqn:Heq.
      * apply ObjectModel_eq_identity in Heq.
        apply bind_Ok_inv in Hu as ([st1 calls] & Hu1 & [= <- <-]).
        rewrite (updateItemContents_model _ _ _ _ Heq Hu1).
        apply (updateItemContents_presents N (set_formWindow fw st) st1 calls);
          [exact Hpres|exact Hs| |exact Heq|exact Hu1].
        by eapply createModelRecursion_sameObjectSameAttributes.
      * apply createModelRecursion_wellFormed in HN.
        destruct (rebuild_presents N (set_formWindow fw st)) as (st1 & Hr & Hp1 & _);
          [done..|].
        rewrite Hr in Hu. cbn [bind] in Hu. injection Hu as <- <-. exact Hp1.
  - simpl in Hu. injection Hu as <- <-. by apply Hempty.
Qed.

(** In every state the tree and the index present the stored snapshot. *)
Lemma reachable_presents (st : ObjectInspectorModel) :
  reachable st -> presents (m_model st) st.
Proof.
  induction 1 as [ci|st fuel h fw r st' Hreach IH Hu].
  - split; [constructor|]. split; [constructor|done].
  - eapply update_presents; [|exact IH| |exact Hu].
    + by apply reachable_single_root.
    + by apply reachable_sameObjectSameAttributes.
Qed.

Lemma update_fuel_mono (fuel fuel' : nat) (h : Host) (fw : Z)
    (st st' : ObjectInspectorModel) (r : UpdateResult) :
  fuel ≤ fuel' ->
  update fuel h fw st = Ok (r, st') ->
  update fuel' h fw st = Ok (r, st').
Proof.
  intros Hle. unfold update.
  destruct (bool_decide (_ = nullptr)); [done|].
  intros H. apply bind_Ok_inv in H as (N & HN & H).
  by rewrite (createModelRecursion_fuel_mono _ _ _ _ _ _ _ _ _ Hle HN).
Qed.

Lemma demoModel_update :
  update 4 (demoHost "actionOpen" true) 100 (ObjectInspectorModel_new demoIcons)
  = Ok (Rebuilt, demoModel).
Proof. vm_compute. reflexivity. Qed.

Lemma demoModel_reachable : reachable demoModel.
Proof.
  eapply reachable_update; [apply (reachable_new demoIcons)|apply demoModel_update].
Qed.

(** C1: on a form, with [N] the snapshot of the walk and any previous
    snapshot stored in a model that has at most one top-level row (as every
    reachable model has, [reachable_single_root]), [update] patches in
    place through [updateItemContents] and returns [Updated], keeping every
    row and the index, when [N] and the stored snapshot agree as sequences
    of (parent, object) pairs; when they do not, it returns [Rebuilt], the old tree is
    dropped, its rows and index then present [N] entry by entry.  Either
    way [N] is the stored snapshot afterwards, and the patched tree
    presents [N] as well if the tree presented the stored snapshot before
    (as it does in every reachable model, [reachable_presents]). *)
Theorem C1_update_patches_iff_same_identities
    (fuel : nat) (h : Host) (fw : Z) (st : ObjectInspectorModel) (N : ObjectModel) :
  length (items st) ≤ 1 ->
  fw ≠ nullptr ->
  mainContainer h fw ≠ nullptr ->
  createModelRecursion fuel h fw nullptr (mainContainer h fw) []
    (ModelRecursionContext_new (translate h "ObjectInspectorModel" "separator"))
  = Ok N ->
  (identity <$> N = identity <$> m_model st ->
   ∃ st' calls,
     updateItemContents N (set_formWindow fw st) = Ok (st', calls) ∧
     update fuel h fw st = Ok (Updated, st') ∧
     length (items st') = length (items st) ∧
     totalRows (items st') = totalRows (items st) ∧
     m_objectIndexMultiMap st' = m_objectIndexMultiMap st ∧
     m_model st' = N ∧
     (presents (m_model st) st -> sameObjectSameAttributes (m_model st) ->
      presents N st')) ∧
  (identity <$> N ≠ identity <$> m_model st ->
   ∃ st', update fuel h fw st = Ok (Rebuilt, st') ∧
          items (clearItems (set_formWindow fw st)) = [] ∧
          m_model st' = N ∧
          presents N st').
Proof.
  intros Hlen Hfw Hmc HN. unfold update.
  rewrite (bool_decide_eq_true_2 (fw ≠ nullptr)) by done.
  rewrite (bool_decide_eq_false_2 (_ = nullptr)) by done.
  rewrite HN. cbn [bind]. split; intros Hid.
  - rewrite (proj2 (ObjectModel_eq_identity _ _)) by done.
    destruct (updateItemContents_shape N (set_formWindow fw st))
      as (st1 & calls & Hu & Hl & Ht & Hi & _).
    { apply (f_equal length) in Hid. by rewrite !length_fmap in Hid. }
    exists st1, calls. rewrite Hu.
    pose proof (updateItemContents_model N (set_formWindow fw st) st1 calls Hid Hu).
    repeat (split; [done|]).
    intros Hpres Hs.
    apply (updateItemContents_presents N (set_formWindow fw st) st1 calls);
      [exact Hpres|exact Hs| |exact Hid|exact Hu].
    by eapply createModelRecursion_sameObjectSameAttributes.
  - destruct (ObjectModel_eq N (m_model (set_formWindow fw st))) eqn:Heq.
    { by apply ObjectModel_eq_identity in Heq. }
    apply createModelRecursion_wellFormed in HN.
    destruct (rebuild_presents N (set_formWindow fw st)) as (st1 & Hr & Hpres & _);
      [done..|].
    rewrite Hr. cbn [bind]. eexists. split; [reflexivity|].
    split; [|split; [done|exact Hpres]].
    simpl. destruct (items st) as [|r [|r' rs]]; simpl in *; [done..|lia].
Qed.

Lemma C1_update_patches_iff_same_identities_witness :
  (identity <$> demoRenamedSnapshot = identity <$> m_model demoModel ->
   ∃ st' calls,
     updateItemContents demoRenamedSnapshot (set_formWindow 100 demoModel)
     = Ok (st', calls) ∧
     update 4 (demoHost "" true) 100 demoModel = Ok (Updated, st') ∧
     length (items st') = length (items demoModel) ∧
     totalRows (items st') = totalRows (items demoModel) ∧
     m_objectIndexMultiMap st' = m_objectIndexMultiMap demoModel ∧
     m_model st' = demoRenamedSnapshot ∧
     (presents (m_model demoModel) demoModel ->
      sameObjectSameAttributes (m_model demoModel) ->
      presents demoRenamedSnapshot st')) ∧
  (identity <$> demoRenamedSnapshot ≠ identity <$> m_model demoModel ->
   ∃ st', update 4 (demoHost "" true) 100 demoModel = Ok (Rebuilt, st') ∧
          items (clearItems (set_formWindow 100 demoModel)) = [] ∧
          m_model st' = demoRenamedSnapshot ∧
          presents demoRenamedSnapshot st').
Proof.
  apply (C1_update_patches_iff_same_identities 4 (demoHost "" true) 100 demoModel
           demoRenamedSnapshot).
  - vm_compute. lia.
  - done.
  - done.
  - vm_compute. reflexivity.
Defined.

(** C2: the content-only patch, on a model that was constructed and then
    only updated, for a new snapshot with the identities of the stored one
    in which entries of one object look alike (as in every snapshot that
    the builder returns).  The tree after [updateItemContents] is the tree
    before it with the recorded calls of [setItemsDisplayData] performed.
    For every object the calls are: none, if the object has no position
    with a non-zero mask; otherwise one call per row location that the
    index holds for the object, all with the entry and mask of its first
    changed position, however many positions name the object; and every
    position of the object has that one mask.  Each call comes from a
    position with a non-zero mask, goes to a row of its object, and
    writes to the two items of a row exactly the changed attribute
    columns: the name if the object name differs, class name and tool tip
    if the class name differs, the icons if icon, type tag or layout kind
    differ.  The index stays as it is, and afterwards the row at the
    location of every position shows the new entry of that position: its
    object name, its class name as text and tool tip, and its icons. *)
Theorem C2_patch_once_per_object
    (N : ObjectModel) (st st' : ObjectInspectorModel) (calls : list PatchCall) :
  reachable st ->
  sameObjectSameAttributes N ->
  identity <$> N = identity <$> m_model st ->
  updateItemContents N st = Ok (st', calls) ->
  items st' = applyCalls (m_icons st) calls (items st) ∧
  (∀ o, callsFor o calls =
        match firstChange o (m_model st) N with
        | Some (e, mask) =>
            map (fun index => (index, e, mask))
                (multimap_values o (m_objectIndexMultiMap st))
        | None => []
        end) ∧
  (∀ o, firstChange o (m_model st) N = None <->
        ∀ i old new, m_model st !! i = Some old -> N !! i = Some new ->
                     m_object new = o -> compare old new = 0%Z) ∧
  (∀ o e mask, firstChange o (m_model st) N = Some (e, mask) ->
   ∀ i old new, m_model st !! i = Some old -> N !! i = Some new ->
                m_object new = o -> compare old new = mask) ∧
  (∀ c, c ∈ calls ->
     ∃ i old, m_model st !! i = Some old ∧ N !! i = Some c.1.2 ∧
              c.2 = compare old c.1.2 ∧ c.2 ≠ 0%Z ∧
              (m_object c.1.2, c.1.1) ∈ m_objectIndexMultiMap st ∧
              ∀ name class,
                setItemsDisplayData c.1.2 [name; class] (m_icons st) c.2
                = changedColumnsApplied (m_icons st) old c.1.2 name class) ∧
  m_objectIndexMultiMap st' = m_objectIndexMultiMap st ∧
  (∀ i new, N !! i = Some new ->
     ∃ path name class,
       reverse (m_objectIndexMultiMap st) !! i
       = Some (m_object new, Index path 0) ∧
       cells <$> lookupRow path (items st') = Some [name; class] ∧
       it_display name = VString (m_objectName new) ∧
       it_decoration name = VIcon (nameColumnIcon (m_icons st) new) ∧
       it_display class = VString (m_className new) ∧
       it_toolTip class = VString (m_className new) ∧
       it_decoration class = VIcon (classColumnIcon (m_icons st) new) ∧
       it_user name = VObject (m_object new) ∧
       it_user class = VObject (m_object new)).
Proof.
  intros Hreach HN Hid H.
  pose proof (reachable_sameObjectSameAttributes st Hreach) as HP.
  split; [by eapply updateItemContents_items|].
  split; [intros o; by eapply updateItemContents_calls|].
  split; [intros o; apply firstChange_None|].
  split; [|split].
  - intros o e mask Hfc i old new Hold Hnew Ho.
    apply firstChange_Some in Hfc as (i0 & old0 & Hold0 & Hnew0 & Ho0 & -> & _).
    assert (∀ j a b, m_model st !! j = Some a -> N !! j = Some b ->
                     m_object a = m_object b) as Hsame.
    { intros j a b Ha Hb.
      pose proof (same_identities_lookup _ _ _ _ _ Hid Ha Hb) as H1.
      by injection H1. }
    apply compare_attributes.
    + apply HP; [by eapply list_elem_of_lookup_2..|].
      rewrite (Hsame _ _ _ Hold Hnew), (Hsame _ _ _ Hold0 Hnew0). congruence.
    + apply HN; [by eapply list_elem_of_lookup_2..|]. congruence.
  - intros c Hc.
    destruct (updateItemContents_call_origin _ _ _ _ _ H Hc) as [Hfc Hin].
    apply firstChange_Some in Hfc as (i & old & Hold & Hnew & _ & Hmask & Hnz).
    exists i, old. split; [done|]. split; [done|]. split; [done|].
    split; [done|]. split; [done|].
    intros name class. rewrite Hmask. apply setItemsDisplayData_compare.
  - assert (m_objectIndexMultiMap st' = m_objectIndexMultiMap st ∧
            m_icons st' = m_icons st) as [Hindex Hicons].
    { destruct (updateItemContents_shape N st)
        as (st1 & calls1 & H1 & _ & _ & Hx & Hi & _).
      - apply (f_equal length) in Hid. by rewrite !length_fmap in Hid.
      - rewrite H in H1. by injection H1 as <- <-. }
    split; [done|]. intros i new Hnew.
    assert (presents N st') as Hpres.
    { eapply updateItemContents_presents; [|done..]. by apply reachable_presents. }
    destruct Hpres as [HF Hrest].
    destruct (Forall2_lookup_l _ _ _ _ _ HF Hnew) as (kv & Hkv & _).
    destruct (presents_lookup _ _ _ _ (conj HF Hrest) Hkv)
      as (e & path & r & He & -> & Hr & Hcells).
    assert (e = new) as -> by congruence.
    rewrite Hicons, rowFor_cells in Hcells. rewrite Hindex in Hkv.
    eexists path, _, _. split; [done|]. rewrite Hr. simpl. rewrite Hcells.
    split; [reflexivity|]. done.
Qed.

Lemma C2_patch_once_per_object_witness :
  items demoPatched.1
  = applyCalls (m_icons demoModel) demoPatched.2 (items demoModel) ∧
  (∀ o, callsFor o demoPatched.2 =
        match firstChange o (m_model demoModel) demoRenamedSnapshot with
        | Some (e, mask) =>
            map (fun index => (index, e, mask))
                (multimap_values o (m_objectIndexMultiMap demoModel))
        | None => []
        end) ∧
  (∀ o, firstChange o (m_model demoModel) demoRenamedSnapshot = None <->
        ∀ i old new, m_model demoModel !! i = Some old ->
                     demoRenamedSnapshot !! i = Some new ->
                     m_object new = o -> compare old new = 0%Z) ∧
  (∀ o e mask,
     firstChange o (m_model demoModel) demoRenamedSnapshot = Some (e, mask) ->
     ∀ i old new, m_model demoModel !! i = Some old ->
                  demoRenamedSnapshot !! i = Some new ->
                  m_object new = o -> compare old new = mask) ∧
  (∀ c, c ∈ demoPatched.2 ->
     ∃ i old, m_model demoModel !! i = Some old ∧
              demoRenamedSnapshot !! i = Some c.1.2 ∧
              c.2 = compare old c.1.2 ∧ c.2 ≠ 0%Z ∧
              (m_object c.1.2, c.1.1) ∈ m_objectIndexMultiMap demoModel ∧
              ∀ name class,
                setItemsDisplayData c.1.2 [name; class] (m_icons demoModel) c.2
                = changedColumnsApplied (m_icons demoModel) old c.1.2 name class) ∧
  m_objectIndexMultiMap demoPatched.1 = m_objectIndexMultiMap demoModel ∧
  (∀ i new, demoRenamedSnapshot !! i = Some new ->
     ∃ path name class,
       reverse (m_objectIndexMultiMap demoModel) !! i
       = Some (m_object new, Index path 0) ∧
       cells <$> lookupRow path (items demoPatched.1) = Some [name; class] ∧
       it_display name = VString (m_objectName new) ∧
       it_decoration name = VIcon (nameColumnIcon (m_icons demoModel) new) ∧
       it_display class = VString (m_className new) ∧
       it_toolTip class = VString (m_className new) ∧
       it_decoration class = VIcon (classColumnIcon (m_icons demoModel) new) ∧
       it_user name = VObject (m_object new) ∧
       it_user class = VObject (m_object new)).
Proof.
  apply (C2_patch_once_per_object demoRenamedSnapshot demoModel
           demoPatched.1 demoPatched.2).
  - apply demoModel_reachable.
  - apply (createModelRecursion_sameObjectSameAttributes 4 (demoHost "" true)
             100 nullptr 1 demoRenamedSnapshot demoCtx).
    vm_compute. reflexivity.
  - vm_compute. reflexivity.
  - vm_compute. reflexivity.
Defined.

(** On the demo form the renamed action 7 stands at two positions and has
    two rows; it is patched by two calls, one per row, both for the changed
    name only. *)
Example demo_action_patched_once_per_row :
  map (fun c : PatchCall => (c.1.1, m_object c.1.2, c.2)) demoPatched.2
  = [(Index [0; 5; 0] 0, 7%Z, ObjectNameChanged);
     (Index [0; 4] 0, 7%Z, ObjectNameChanged)].
Proof. vm_compute. reflexivity. Qed.

(** C3: called without form window, or with one that has no main
    container, [update] needs no walk (any recursion budget will do, zero
    too): it succeeds with [NoForm] and leaves a model without rows, with
    an empty index, without snapshot and without form window. *)
Theorem C3_update_without_form_clears
    (fuel : nat) (h : Host) (fw : Z) (st : ObjectInspectorModel) :
  reachable st ->
  fw = nullptr ∨ mainContainer h fw = nullptr ->
  ∃ st', update fuel h fw st = Ok (NoForm, st') ∧
         items st' = [] ∧
         m_objectIndexMultiMap st' = [] ∧
         m_model st' = [] ∧
         m_formWindow st' = nullptr.
Proof.
  intros Hreach Hfw. apply reachable_single_root in Hreach.
  unfold update.
  rewrite (bool_decide_eq_true_2 (_ = nullptr)).
  - eexists. split; [reflexivity|]. simpl.
    split; [|done].
    destruct (items st) as [|r [|r' rs]]; simpl in *; [done..|lia].
  - destruct Hfw as [->|Hmc]; [done|].
    by destruct (bool_decide (fw ≠ nullptr)).
Qed.

Lemma C3_update_without_form_clears_witness :
  ∃ st', update 0 (demoHost "actionOpen" true) 0 demoModel = Ok (NoForm, st') ∧
         items st' = [] ∧
         m_objectIndexMultiMap st' = [] ∧
         m_model st' = [] ∧
         m_formWindow st' = nullptr.
Proof.
  apply (C3_update_without_form_clears 0 (demoHost "actionOpen" true) 0 demoModel).
  - apply demoModel_reachable.
  - left. reflexivity.
Defined.

(** C5: when [update] has rebuilt, the stored snapshot is the one the walk
    produced, and the tree and the index present exactly it: read in the
    order of insertion, the index lists the objects of the snapshot entry
    by entry, each with the distinct location of the row filled from that
    entry, and there are as many rows as entries.  No other key is left. *)
Theorem C5_index_rebuilt_from_snapshot
    (fuel : nat) (h : Host) (fw : Z) (st st' : ObjectInspectorModel) :
  reachable st ->
  update fuel h fw st = Ok (Rebuilt, st') ->
  createModelRecursion fuel h fw nullptr (mainContainer h fw) []
    (ModelRecursionContext_new (translate h "ObjectInspectorModel" "separator"))
  = Ok (m_model st') ∧
  presents (m_model st') st' ∧
  (reverse (m_objectIndexMultiMap st')).*1 = m_object <$> m_model st' ∧
  (∀ o, o ∈ (m_objectIndexMultiMap st').*1 <-> o ∈ (m_object <$> m_model st')).
Proof.
  intros Hreach Hu. apply reachable_single_root in Hreach.
  assert (createModelRecursion fuel h fw nullptr (mainContainer h fw) []
            (ModelRecursionContext_new (translate h "ObjectInspectorModel" "separator"))
          = Ok (m_model st') ∧ presents (m_model st') st') as [HN Hpres].
  { unfold update in Hu.
    destruct (bool_decide (fw ≠ nullptr)); [|done].
    destruct (bool_decide (_ = nullptr)); [done|].
    apply bind_Ok_inv in Hu as (N & HN & Hu).
    destruct (ObjectModel_eq N _).
    - apply bind_Ok_inv in Hu as ([st1 calls] & _ & Hu). done.
    - pose proof (createModelRecursion_wellFormed _ _ _ _ _ _ HN) as Hwf.
      destruct (rebuild_presents N (set_formWindow fw st)) as (st1 & Hr & Hpres & _);
        [done..|].
      rewrite Hr in Hu. cbn [bind] in Hu. injection Hu as <-.
      split; [exact HN|exact Hpres]. }
  pose proof (presents_keys _ _ Hpres) as Hkeys.
  split; [done|]. split; [done|]. split; [done|].
  intros o. rewrite <- Hkeys, fmap_reverse, elem_of_reverse. done.
Qed.

Lemma C5_index_rebuilt_from_snapshot_witness :
  createModelRecursion 4 (demoHost "actionOpen" true) 100 nullptr
    (mainContainer (demoHost "actionOpen" true) 100) []
    (ModelRecursionContext_new
       (translate (demoHost "actionOpen" true) "ObjectInspectorModel" "separator"))
  = Ok (m_model demoModel) ∧
  presents (m_model demoModel) demoModel ∧
  (reverse (m_objectIndexMultiMap demoModel)).*1 = m_object <$> m_model demoModel ∧
  (∀ o, o ∈ (m_objectIndexMultiMap demoModel).*1 <->
        o ∈ (m_object <$> m_model demoModel)).
Proof.
  apply (C5_index_rebuilt_from_snapshot 4 (demoHost "actionOpen" true) 100
           (ObjectInspectorModel_new demoIcons) demoModel).
  - apply reachable_new.
  - vm_compute. reflexivity.
Defined.

(** ** Reading and renaming through the model *)

Lemma objectAt_invalid (st : ObjectInspectorModel) :
  objectAt st InvalidIndex = nullptr.
Proof. reflexivity. Qed.

(** C9: [data] replaces an empty string by the translated placeholder
    "<noname>" for the display role only; for every other role, the edit
    role among them, the value of the base class comes back unchanged. *)
Theorem C9_data_placeholder_only_for_display_role
    (h : Host) (st : ObjectInspectorModel) (index : QModelIndex) (role : Z) :
  data h st index role =
    (if bool_decide (role = DisplayRole ∧
                     QStandardItemModel_data (items st) index role = VString "")
     then VString (translate h "ObjectInspectorModel" "<noname>")
     else QStandardItemModel_data (items st) index role) ∧
  data h st index EditRole = QStandardItemModel_data (items st) index EditRole.
Proof.
  split; [|reflexivity].
  unfold data.
  destruct (role =? DisplayRole)%Z eqn:Hr.
  - apply Z.eqb_eq in Hr.
    destruct (QStandardItemModel_data (items st) index role) as [|s|i|o] eqn:Hd;
      try (rewrite bool_decide_eq_false_2; [done|intros [_ ?]; done]).
    destruct (decide (s = "")) as [->|Hs].
    + rewrite !bool_decide_eq_true_2; done.
    + rewrite !bool_decide_eq_false_2; [done| |done].
      intros [_ [= ?]]. done.
  - apply Z.eqb_neq in Hr.
    rewrite bool_decide_eq_false_2; [done|]. intros [? _]. done.
Qed.

(** An entry without name shows the placeholder but is edited as the empty
    string. *)
Example demo_noname_only_displayed :
  data (demoHost "" true) demoPatched.1 (Index [0; 4] 0) DisplayRole = VString "<noname>" ∧
  data (demoHost "" true) demoPatched.1 (Index [0; 4] 0) EditRole = VString "".
Proof. split; vm_compute; reflexivity. Qed.

(** C10: [setData] returns false and leaves the command histories alone
    when the role is not the edit role, when no form window is stored, or
    when the index resolves to no object; in every other case it returns
    true and exactly one command has been pushed. *)
Theorem C10_setData_guards
    (h : Host) (index : QModelIndex) (value : QVariant) (role : Z)
    (st : ObjectInspectorModel) (hist : CommandHistories) :
  (if bool_decide (role ≠ EditRole ∨ m_formWindow st = nullptr ∨
                   objectAt st index = nullptr)
   then setData h index value role st hist = (false, st, hist)
   else ∃ c : QUndoCommand,
          setData h index value role st hist
          = (true, st, hist ++ [(m_formWindow st, c)])).
Proof.
  unfold setData. case_bool_decide as Hc.
  - destruct (role =? EditRole)%Z eqn:Hr; [|done].
    apply Z.eqb_eq in Hr.
    destruct (m_formWindow st =? nullptr)%Z eqn:Hf; [done|].
    apply Z.eqb_neq in Hf. simpl.
    destruct Hc as [?|[?|Ho]]; [done..|].
    rewrite Ho. done.
  - assert (role = EditRole) as Hr by (destruct (decide (role = EditRole)); tauto).
    assert (m_formWindow st ≠ nullptr) as Hf by tauto.
    assert (objectAt st index ≠ nullptr) as Ho by tauto.
    apply Z.eqb_eq in Hr. apply Z.eqb_neq in Hf. apply Z.eqb_neq in Ho.
    rewrite Hr, Hf, Ho. simpl. eexists. reflexivity.
Qed.






Example demo_rename_without_layout :
  reachable demoModelNoLayout ∧
  objectAt demoModelNoLayout (Index [0; 2] 0) = 8%Z ∧
  m_model demoModelNoLayout !! 5
  = Some (mkObjectData 1 8 Object "QLayoutWidget" "layoutWidget" NullIcon NoLayout) ∧
  holdsLayout demoHostNoLayout 8 = false ∧
  data demoHostNoLayout demoModelNoLayout (Index [0; 2] 0) EditRole
  = VString "layoutWidget" ∧
  (setData demoHostNoLayout (Index [0; 2] 0) (VString "mainLayout")
           EditRole demoModelNoLayout []).2
  = [(100%Z, createTextPropertyCommand "layoutName" "mainLayout" 8 100)] ∧
  specifiedNameProperty demoHostNoLayout 8 = "objectName".
Proof.
  split.
  { apply (reachable_update (ObjectInspectorModel_new demoIcons) 4
             demoHostNoLayout 100 Rebuilt); [constructor|].
    vm_compute. reflexivity. }
  repeat split; vm_compute; reflexivity.
Qed.

(** The rename of the layout widget of the demo form goes to [layoutName],
    the rename of its push button to [objectName]. *)
Example demo_rename_targets :
  (setData (demoHost "actionOpen" true) (Index [0; 2] 0) (VString "mainLayout")
           EditRole demoModel []).2
  = [(100%Z, createTextPropertyCommand "layoutName" "mainLayout" 8 100)] ∧
  (setData (demoHost "actionOpen" true) (Index [0; 0] 1) (VString "cancelButton")
           EditRole demoModel []).2
  = [(100%Z, createTextPropertyCommand "objectName" "cancelButton" 2 100)].
Proof. split; vm_compute; reflexivity. Qed.

(** ** The demo form, run *)

(** Removing the push button changes the shape of the form: the next
    update rebuilds, and the tree then has one row less. *)
Example demo_structure_change_rebuilds :
  ∃ st', update 4 (demoHost "actionOpen" false) 100 demoModel = Ok (Rebuilt, st') ∧
         totalRows (items demoModel) = 10 ∧
         totalRows (items st') = 9 ∧
         2%Z ∉ (m_objectIndexMultiMap st').*1.
Proof.
  eexists. split; [vm_compute; reflexivity|]. split; [reflexivity|].
  split; [reflexivity|]. vm_compute. intros H.
  repeat (apply elem_of_cons in H as [H|H]; [discriminate H|]).
  by apply elem_of_nil in H.
Qed.

(** Renaming the action patches in place, and what the patch leaves is what
    a rebuild from scratch would have built. *)
Example demo_patch_agrees_with_rebuild :
  ∃ patched rebuilt,
    update 4 (demoHost "" true) 100 demoModel = Ok (Updated, patched) ∧
    update 4 (demoHost "" true) 100 (ObjectInspectorModel_new demoIcons)
    = Ok (Rebuilt, rebuilt) ∧
    items patched = items rebuilt ∧
    m_objectIndexMultiMap patched = m_objectIndexMultiMap rebuilt ∧
    m_model patched = m_model rebuilt.
Proof.
  eexists _, _. split; [vm_compute; reflexivity|].
  split; [vm_compute; reflexivity|]. repeat split.
Qed.

(** ** Entries: how a node is classified and what its entry shows *)

(** X1: the type tag of a new entry.  A widget is a layout widget only if
    it is a [QLayoutWidget] that has a layout (without one it keeps the
    default tag [Object]); otherwise an extension container if it has the
    container extension, whatever the widget data base says; otherwise a
    layoutable container or a child widget by the container flag of its
    data base item (a child widget if it has none).  Another object is a
    separator, an action or a plain object. *)
Theorem X1_type_tag (h : Host) (parent object : Z) (ctx : ModelRecursionContext) :
  m_type (ObjectData_new h parent object ctx) =
    if isWidgetType h object then
      if isQLayoutWidget h object then
        if bool_decide (layout h object ≠ nullptr) then LayoutWidget else Object
      else if bool_decide (qt_extension_QDesignerContainerExtension h object ≠ None)
      then ExtensionContainer
      else match widgetDataBase_item h object with
           | Some widgetItem =>
               if wdb_isContainer widgetItem then LayoutableContainer else ChildWidget
           | None => ChildWidget
           end
    else if qobject_cast_QAction h object then
      if isSeparator h object then SeparatorAction else Action
    else Object.
Proof.
  unfold ObjectData_new.
  match goal with
  | |- m_type (if ?c then set_className ?s ?d else ?d) = _ =>
      transitivity (m_type d); [by destruct c|]
  end.
  destruct (isWidgetType h object).
  - unfold initWidget.
    destruct (widgetDataBase_item h object) as [[i n c]|]; simpl;
      destruct (isQLayoutWidget h object); simpl;
      repeat case_bool_decide; simpl; try done;
      destruct (qt_extension_QDesignerContainerExtension h object); simpl;
      try done; by destruct c.
  - unfold initObject. simpl.
    destruct (qobject_cast_QAction h object); [|done].
    by destruct (isSeparator h object).
Qed.

(** X2: the name and the layout kind of a new entry follow its type tag.
    A layout widget shows the name and the kind of its layout, a separator
    the translated separator name, every other entry the object name of
    its object; only a layout widget and a layoutable container carry a
    layout kind. *)
Theorem X2_name_and_layout_kind_by_tag (h : Host) (parent object : Z)
    (ctx : ModelRecursionContext) :
  m_objectName (ObjectData_new h parent object ctx) =
    match m_type (ObjectData_new h parent object ctx) with
    | LayoutWidget => objectName h (layout h object)
    | SeparatorAction => separator ctx
    | _ => objectName h object
    end ∧
  m_managedLayoutType (ObjectData_new h parent object ctx) =
    match m_type (ObjectData_new h parent object ctx) with
    | LayoutWidget => layoutType h (layout h object)
    | LayoutableContainer => managedLayoutType h object
    | _ => NoLayout
    end.
Proof.
  unfold ObjectData_new.
  match goal with
  | |- context [if ?c then set_className ?s ?d else ?d] =>
      assert (∀ X (f : ObjectData -> X),
                (∀ t x, f (set_className t x) = f x) ->
                f (if c then set_className s d else d) = f d) as Hstrip
        by (intros X f Hf; destruct c; [apply Hf|done]);
      rewrite !(Hstrip _ m_objectName), !(Hstrip _ m_type),
        !(Hstrip _ m_managedLayoutType) by done;
      clear Hstrip
  end.
  destruct (isWidgetType h object).
  - unfold initWidget.
    destruct (widgetDataBase_item h object) as [[i n c]|]; simpl;
      destruct (isQLayoutWidget h object); simpl;
      repeat case_bool_decide; simpl; try done;
      destruct (qt_extension_QDesignerContainerExtension h object); simpl;
      try done; by destruct c.
  - unfold initObject. simpl.
    destruct (qobject_cast_QAction h object); [|done].
    by destruct (isSeparator h object).
Qed.

Lemma substring_0_length (s : string) : String.substring 0 (String.length s) s = s.
Proof. induction s as [|c s IH]; simpl; [done|by rewrite IH]. Qed.

Lemma QString_remove_designer (s : string) :
  QString_remove 1 8 (String.append "QDesigner" s) = String.append "Q" s.
Proof.
  unfold QString_remove, String.append. simpl.
  rewrite Nat.sub_0_r. fold String.append. by rewrite substring_0_length.
Qed.

(** X3: the class name of a new entry is the class name it starts from
    with the designer prefix taken off: [QDesigner...] is shown as
    [Q...], every other class name as it is. *)
Theorem X3_designer_prefix_taken_off (h : Host) (parent object : Z) (sep : string) :
  (∀ s, classNameSource h object = String.append "QDesigner" s ->
        m_className (ObjectData_new h parent object (ModelRecursionContext_new sep))
        = String.append "Q" s) ∧
  (String.prefix "QDesigner" (classNameSource h object) = false ->
   m_className (ObjectData_new h parent object (ModelRecursionContext_new sep))
   = classNameSource h object).
Proof.
  assert (m_className
            (if isWidgetType h object
             then initWidget h object
                    (mkObjectData parent object (m_type ObjectData_default)
                       (className h (metaObject h object)) (objectName h object)
                       (m_classIcon ObjectData_default)
                       (m_managedLayoutType ObjectData_default))
             else initObject h (ModelRecursionContext_new sep)
                    (mkObjectData parent object (m_type ObjectData_default)
                       (className h (metaObject h object)) (objectName h object)
                       (m_classIcon ObjectData_default)
                       (m_managedLayoutType ObjectData_default)))
          = classNameSource h object) as Hsrc.
  { unfold classNameSource. destruct (isWidgetType h object).
    - unfold initWidget.
      destruct (widgetDataBase_item h object) as [[i n c]|]; simpl;
        destruct (isQLayoutWidget h object); simpl;
        repeat case_bool_decide; simpl; try done;
        destruct (qt_extension_QDesignerContainerExtension h object); simpl;
        try done; by destruct c.
    - unfold initObject. simpl.
      destruct (qobject_cast_QAction h object); [|done].
      by destruct (isSeparator h object). }
  unfold ObjectData_new. cbn [designerPrefix ModelRecursionContext_new].
  rewrite Hsrc. split.
  - intros s Hs. rewrite Hs.
    replace (String.prefix "QDesigner" (String.append "QDesigner" s)) with true.
    + simpl. apply QString_remove_designer.
    + unfold String.append. simpl. by destruct s.
  - intros ->. apply Hsrc.
Qed.

(** X4: each flag of the change mask stands for one display attribute: it
    is set exactly if the two entries differ in it.  The mask uses no
    other bits and is the same in both directions. *)
Theorem X4_compare_flags (a b : ObjectData) :
  bool_decide (Z.land (compare a b) ClassNameChanged ≠ 0%Z)
  = bool_decide (m_className a ≠ m_className b) ∧
  bool_decide (Z.land (compare a b) ObjectNameChanged ≠ 0%Z)
  = bool_decide (m_objectName a ≠ m_objectName b) ∧
  bool_decide (Z.land (compare a b) ClassIconChanged ≠ 0%Z)
  = negb (sameIcon (m_classIcon a) (m_classIcon b)) ∧
  bool_decide (Z.land (compare a b) TypeChanged ≠ 0%Z)
  = bool_decide (m_type a ≠ m_type b) ∧
  bool_decide (Z.land (compare a b) LayoutTypeChanged ≠ 0%Z)
  = bool_decide (m_managedLayoutType a ≠ m_managedLayoutType b) ∧
  Z.land (compare a b) allChanged = compare a b ∧
  compare a b = compare b a.
Proof.
  assert (compare a b = compare b a) as Hsym.
  { unfold compare.
    rewrite (bool_decide_ext (m_className b ≠ m_className a)
               (m_className a ≠ m_className b)) by done.
    rewrite (bool_decide_ext (m_objectName b ≠ m_objectName a)
               (m_objectName a ≠ m_objectName b)) by done.
    rewrite (bool_decide_ext (m_type b ≠ m_type a) (m_type a ≠ m_type b)) by done.
    rewrite (bool_decide_ext (m_managedLayoutType b ≠ m_managedLayoutType a)
               (m_managedLayoutType a ≠ m_managedLayoutType b)) by done.
    replace (sameIcon (m_classIcon b) (m_classIcon a))
      with (sameIcon (m_classIcon a) (m_classIcon b)); [done|].
    by destruct (m_classIcon a), (m_classIcon b); unfold sameIcon; simpl;
      rewrite ?(Z.eqb_sym key). }
  rewrite <- Hsym. unfold compare.
  destruct (bool_decide (m_className a ≠ m_className b)),
    (bool_decide (m_objectName a ≠ m_objectName b)),
    (sameIcon (m_classIcon a) (m_classIcon b)),
    (bool_decide (m_type a ≠ m_type b)),
    (bool_decide (m_managedLayoutType a ≠ m_managedLayoutType b));
    vm_compute; repeat split; done.
Qed.

(** X5: a fresh row has one item per column; every item can be selected,
    is enabled and accepts drops, the item of the name column alone can
    be edited, and no item holds a text, an icon, a tool tip or an object
    yet. *)
Theorem X5_createModelRow_items (o : Z) :
  length (createModelRow o) = NumColumns ∧
  ∀ column item, createModelRow o !! column = Some item ->
    (Z.land (it_flags item) ItemIsEditable ≠ 0%Z <-> column = ObjectNameColumn) ∧
    Z.land (it_flags item) ItemIsSelectable = ItemIsSelectable ∧
    Z.land (it_flags item) ItemIsDropEnabled = ItemIsDropEnabled ∧
    Z.land (it_flags item) ItemIsEnabled = ItemIsEnabled ∧
    item_data item DisplayRole = Invalid ∧
    item_data item EditRole = Invalid ∧
    item_data item DecorationRole = Invalid ∧
    item_data item ToolTipRole = Invalid ∧
    item_data item DataRole = Invalid.
Proof.
  split; [done|]. intros column item H.
  destruct column as [|[|column]]; simpl in H; [| |done];
    injection H as <-; (split; [split; [|done]|]).
  - done.
  - repeat split.
  - vm_compute. done.
  - repeat split.
Qed.

Lemma fmap_alter_same {A B} (p : A -> B) (g : A -> A) (i : nat) (l : list A) :
  (∀ x, p (g x) = p x) -> p <$> alter g i l = p <$> l.
Proof.
  intros Hp. revert i. induction l as [|x l IH]; intros [|i]; simpl; [done..| |].
  - by rewrite Hp.
  - f_equal. apply IH.
Qed.

Lemma drop_alter_lt {A} (g : A -> A) (i n : nat) (l : list A) :
  i < n -> drop n (alter g i l) = drop n l.
Proof.
  revert i n. induction l as [|x l IH]; intros i n Hin; [by destruct n, i|].
  destruct n as [|n]; [lia|]. destruct i as [|i]; simpl; [done|].
  apply IH. lia.
Qed.

(** X6: writing display data to a row never changes how many items it
    has, the flags of its items, the objects stored in them, or any item
    beyond the two columns; with an empty change mask it changes
    nothing. *)
Theorem X6_setItemsDisplayData_frame (d : ObjectData) (row : StandardItemList)
    (icons : LayoutInfoType -> QIcon) (mask : Z) :
  length (setItemsDisplayData d row icons mask) = length row ∧
  it_flags <$> setItemsDisplayData d row icons mask = it_flags <$> row ∧
  it_user <$> setItemsDisplayData d row icons mask = it_user <$> row ∧
  drop NumColumns (setItemsDisplayData d row icons mask) = drop NumColumns row ∧
  setItemsDisplayData d row icons 0 = row.
Proof.
  unfold setItemsDisplayData.
  split; [|split; [|split; [|split]]].
  - repeat case_bool_decide; repeat case_match; by rewrite ?length_alter.
  - repeat case_bool_decide; repeat case_match; by rewrite ?fmap_alter_same.
  - repeat case_bool_decide; repeat case_match; by rewrite ?fmap_alter_same.
  - repeat case_bool_decide; repeat case_match;
      by rewrite ?drop_alter_lt by (unfold NumColumns, ObjectNameColumn, ClassNameColumn; lia).
  - done.
Qed.

(** X7: patching a row is as good as filling it again.  Writing the
    display data of a new entry, under the change mask that [compare]
    gives against the old entry of the same object, to the row that was
    filled from the old entry leaves exactly the row that a rebuild fills
    from the new entry; if the mask is empty the row is that row
    already. *)
Theorem X7_patched_row_is_refilled_row (icons : LayoutInfoType -> QIcon)
    (p e : ObjectData) :
  m_object p = m_object e ->
  setItemsDisplayData e (rowFor icons p) icons (compare p e) = rowFor icons e ∧
  (compare p e = 0%Z -> rowFor icons p = rowFor icons e).
Proof.
  intros H. pose proof (patch_row icons p e H) as Hp. split; [done|].
  intros H0. rewrite H0 in Hp. exact Hp.
Qed.

Lemma X7_patched_row_is_refilled_row_witness :
  m_object (ObjectData_new (demoHost "actionOpen" true) 1 7 demoCtx)
  = m_object (ObjectData_new (demoHost "" true) 1 7 demoCtx) ∧
  setItemsDisplayData (ObjectData_new (demoHost "" true) 1 7 demoCtx)
    (rowFor (m_icons demoModel) (ObjectData_new (demoHost "actionOpen" true) 1 7 demoCtx))
    (m_icons demoModel)
    (compare (ObjectData_new (demoHost "actionOpen" true) 1 7 demoCtx)
             (ObjectData_new (demoHost "" true) 1 7 demoCtx))
  = rowFor (m_icons demoModel) (ObjectData_new (demoHost "" true) 1 7 demoCtx) ∧
  (compare (ObjectData_new (demoHost "actionOpen" true) 1 7 demoCtx)
           (ObjectData_new (demoHost "" true) 1 7 demoCtx) = 0%Z ->
   rowFor (m_icons demoModel) (ObjectData_new (demoHost "actionOpen" true) 1 7 demoCtx)
   = rowFor (m_icons demoModel) (ObjectData_new (demoHost "" true) 1 7 demoCtx)).
Proof.
  assert (m_object (ObjectData_new (demoHost "actionOpen" true) 1 7 demoCtx)
          = m_object (ObjectData_new (demoHost "" true) 1 7 demoCtx)) as H
    by reflexivity.
  split; [exact H|].
  exact (X7_patched_row_is_refilled_row (m_icons demoModel) _ _ H).
Defined.

(** ** The snapshot builder: what it lists, and that it ends *)

Lemma forEach_guard_Ok {S} (F : Z -> S -> Res S) (pages : list Z) (m m' : S) :
  forEach (fun page model =>
             if bool_decide (page ≠ nullptr) then F page model else Fault) pages m
  = Ok m' ->
  Forall (λ p, p ≠ nullptr) pages.
Proof.
  revert m. induction pages as [|p pages IH]; intros m H; [constructor|].
  cbn [forEach] in H. apply bind_Ok_inv in H as (m1 & H1 & H2).
  case_bool_decide as Hp; [|done]. constructor; [done|by eapply IH].
Qed.

Lemma createModelRecursion_Ok_pages (fuel : nat) (h : Host) (fwi parent object : Z)
    (model model' : ObjectModel) (ctx : ModelRecursionContext) :
  createModelRecursion (S fuel) h fwi parent object model ctx = Ok model' ->
  isExtensionContainer h object = true ->
  Forall (λ p, p ≠ nullptr) (pagesOf h object).
Proof.
  intros H Hext. cbn [createModelRecursion] in H.
  apply bind_Ok_inv in H as ([ce m1] & H1 & _).
  rewrite ExtensionContainer_iff, Hext in H1. unfold pagesOf.
  destruct (qt_extension_QDesignerContainerExtension h object) as [pages|]; [|done].
  apply bind_Ok_inv in H1 as (m2 & Hp & _). simpl.
  by apply forEach_guard_Ok in Hp.
Qed.

Lemma createModelRecursion_Ok_unfold (fuel : nat) (h : Host) (fwi parent object : Z)
    (model model' : ObjectModel) (ctx : ModelRecursionContext) :
  createModelRecursion (S fuel) h fwi parent object model ctx = Ok model' ->
  walkTargets fuel h fwi object ctx (recursionTargets h fwi object)
    (model ++ [ObjectData_new h parent object ctx]) = Ok model'.
Proof.
  intros H. rewrite <- H. symmetry. apply createModelRecursion_unfold_pages.
  by apply (createModelRecursion_Ok_pages fuel h fwi parent object model model' ctx).
Qed.

Lemma targetsListed_mono (h : Host) (fwi : Z) (m m' : ObjectModel) (o : Z) :
  m ⊆ m' -> targetsListed h fwi m o -> targetsListed h fwi m' o.
Proof.
  intros Hsub H t Ht. specialize (H t Ht).
  apply list_elem_of_fmap in H as (e & He & Hin).
  apply list_elem_of_fmap. exists e. split; [done|by apply Hsub].
Qed.

Lemma createModelRecursion_edges (h : Host) (fwi : Z) (ctx : ModelRecursionContext) :
  ∀ fuel parent object model model',
    createModelRecursion fuel h fwi parent object model ctx = Ok model' ->
    ∃ ext, model' = model ++ ObjectData_new h parent object ctx :: ext ∧
           Forall (isTargetEdge h fwi) ext ∧
           targetsListed h fwi ext object ∧
           Forall (λ e, targetsListed h fwi ext (m_object e)) ext.
Proof.
  induction fuel as [|fuel IH]; intros parent object model model' H; [done|].
  apply createModelRecursion_Ok_unfold in H.
  assert (∀ targets m m',
            (∀ t, t ∈ targets -> t ∈ recursionTargets h fwi object) ->
            walkTargets fuel h fwi object ctx targets m = Ok m' ->
            ∃ ext, m' = m ++ ext ∧
                   Forall (isTargetEdge h fwi) ext ∧
                   (∀ t, t ∈ targets -> (object, t) ∈ identity <$> ext) ∧
                   Forall (λ e, targetsListed h fwi ext (m_object e)) ext) as Hwalk.
  { clear H. induction targets as [|t targets IHt]; intros m m' Hsub Hw.
    - injection Hw as <-. exists []. rewrite app_nil_r.
      split; [done|]. split; [constructor|]. split; [|constructor].
      intros t Ht. by apply elem_of_nil in Ht.
    - unfold walkTargets in Hw. cbn [forEach] in Hw.
      apply bind_Ok_inv in Hw as (m1 & H1 & H2).
      apply IH in H1 as (ext1 & -> & He1 & Ht1 & Hc1).
      apply IHt in H2 as (ext2 & -> & He2 & Ht2 & Hc2);
        [|intros t' Ht'; apply Hsub; by right].
      exists (ObjectData_new h object t ctx :: ext1 ++ ext2).
      destruct (ObjectData_new_identity h object t ctx) as [Hp Ho].
      split; [by rewrite <- !app_assoc|]. split; [|split].
      + constructor.
        * unfold isTargetEdge. rewrite Hp, Ho. apply Hsub. by left.
        * by apply Forall_app.
      + intros t' [->|Ht']%elem_of_cons.
        * apply list_elem_of_fmap. exists (ObjectData_new h object t ctx).
          split; [|by left]. unfold identity. by rewrite Hp, Ho.
        * specialize (Ht2 t' Ht'). apply list_elem_of_fmap in Ht2 as (e & He & Hin).
          apply list_elem_of_fmap. exists e. split; [done|].
          right. apply elem_of_app. by right.
      + constructor.
        * rewrite Ho. eapply targetsListed_mono; [|exact Ht1].
          intros e He. right. apply elem_of_app. by left.
        * apply Forall_app. split.
          -- eapply Forall_impl; [exact Hc1|]. intros e He. simpl in He.
             eapply targetsListed_mono; [|exact He].
             intros e' He'. right. apply elem_of_app. by left.
          -- eapply Forall_impl; [exact Hc2|]. intros e He. simpl in He.
             eapply targetsListed_mono; [|exact He].
             intros e' He'. right. apply elem_of_app. by right. }
  apply Hwalk in H as (ext & -> & He & Ht & Hc); [|done].
  exists ext. split; [by rewrite <- app_assoc|]. done.
Qed.

(** X8: the entries of a snapshot are the edges that the walk follows,
    no more and no less: below the root entry, every entry lists a target
    of its parent (so an unmanaged widget, a child object that is no
    button group, or an action unknown to the meta data base never gets
    an entry), and every target of every listed object has an entry with
    that object as its parent. *)
Theorem X8_snapshot_lists_exactly_the_targets (fuel : nat) (h : Host) (fwi root : Z)
    (N : ObjectModel) (ctx : ModelRecursionContext) :
  createModelRecursion fuel h fwi nullptr root [] ctx = Ok N ->
  ∃ rest, N = ObjectData_new h nullptr root ctx :: rest ∧
          Forall (isTargetEdge h fwi) rest ∧
          Forall (λ e, targetsListed h fwi rest (m_object e)) N.
Proof.
  intros H. apply createModelRecursion_edges in H as (ext & -> & He & Ht & Hc).
  exists ext. split; [done|]. split; [done|].
  constructor; [|done].
  by destruct (ObjectData_new_identity h nullptr root ctx) as [_ ->].
Qed.

Lemma X8_snapshot_lists_exactly_the_targets_witness :
  createModelRecursion 4 (demoHost "actionOpen" true) 100 nullptr 1 [] demoCtx
  = Ok demoSnapshot ∧
  ∃ rest, demoSnapshot
          = ObjectData_new (demoHost "actionOpen" true) nullptr 1 demoCtx :: rest ∧
          Forall (isTargetEdge (demoHost "actionOpen" true) 100) rest ∧
          Forall (λ e, targetsListed (demoHost "actionOpen" true) 100 rest (m_object e))
                 demoSnapshot.
Proof.
  assert (createModelRecursion 4 (demoHost "actionOpen" true) 100 nullptr 1 [] demoCtx
          = Ok demoSnapshot) as H by (vm_compute; reflexivity).
  split; [exact H|].
  exact (X8_snapshot_lists_exactly_the_targets
           4 (demoHost "actionOpen" true) 100 1 demoSnapshot demoCtx H).
Defined.

Ltac demo_object_cases o :=
  let p := fresh "p" in
  destruct o as [|p|p];
  [| do 5 (try (destruct p as [p|p|])) |].

Lemma demoHost_pages (actionName : string) (button : bool) (o : Z) :
  Forall (λ p, p ≠ nullptr) (pagesOf (demoHost actionName button) o).
Proof. demo_object_cases o; unfold pagesOf; simpl; repeat constructor; done. Qed.

Lemma demoHost_rank (c o : Z) :
  c ∈ recursionTargets (demoHost "actionOpen" true) 100 o ->
  demoRank c < demoRank o.
Proof.
  intros Hc. demo_object_cases o;
    (let l := fresh "l" in
     set (l := recursionTargets _ _ _) in Hc; vm_compute in l; subst l);
    repeat (apply elem_of_cons in Hc as [->|Hc]; [simpl; lia|]);
    by apply elem_of_nil in Hc.
Qed.

(** X9: the walk of a form whose object graph has no cycle ends.  If some
    measure of the objects decreases along every edge that the walk
    follows and no container extension reports a null page, the builder
    returns a snapshot, the same one for every recursion budget above the
    measure of the node it starts from. *)
Theorem X9_walk_ends_on_ranked_graph (h : Host) (fwi : Z) (ctx : ModelRecursionContext)
    (rank : Z -> nat) (parent object : Z) (model : ObjectModel) :
  (∀ o c, c ∈ recursionTargets h fwi o -> rank c < rank o) ->
  (∀ o, Forall (λ p, p ≠ nullptr) (pagesOf h o)) ->
  ∃ model', ∀ fuel, rank object < fuel ->
    createModelRecursion fuel h fwi parent object model ctx = Ok model'.
Proof.
  intros Hrank Hpages.
  destruct (createModelRecursion_total h fwi ctx rank Hrank Hpages
              (S (rank object)) parent object model) as [model' H]; [lia|].
  exists model'. intros fuel Hf.
  eapply createModelRecursion_fuel_mono; [|exact H]. lia.
Qed.

Lemma X9_walk_ends_on_ranked_graph_witness :
  (∀ o c, c ∈ recursionTargets (demoHost "actionOpen" true) 100 o ->
          demoRank c < demoRank o) ∧
  (∀ o, Forall (λ p, p ≠ nullptr) (pagesOf (demoHost "actionOpen" true) o)) ∧
  ∃ model', ∀ fuel, demoRank 1 < fuel ->
    createModelRecursion fuel (demoHost "actionOpen" true) 100 nullptr 1 [] demoCtx
    = Ok model'.
Proof.
  split; [intros o c; apply demoHost_rank|].
  split; [apply demoHost_pages|].
  exact (X9_walk_ends_on_ranked_graph (demoHost "actionOpen" true) 100 demoCtx
           demoRank nullptr 1 [] (λ o c, demoHost_rank c o)
           (demoHost_pages "actionOpen" true)).
Defined.

Lemma forEach_no_Fault {A S} (body : A -> S -> Res S) (l : list A) :
  (∀ x s, body x s ≠ Fault) -> ∀ s, forEach body l s ≠ Fault.
Proof.
  intros Hb. induction l as [|x l IH]; intros s; [done|].
  cbn [forEach]. specialize (Hb x s).
  destruct (body x s) as [s'| |]; simpl; [apply IH|done..].
Qed.

Lemma createModelRecursion_no_Fault (h : Host) (fwi : Z) (ctx : ModelRecursionContext) :
  (∀ o, Forall (λ p, p ≠ nullptr) (pagesOf h o)) ->
  ∀ fuel parent object model,
    createModelRecursion fuel h fwi parent object model ctx ≠ Fault.
Proof.
  intros Hpages. induction fuel as [|fuel IH]; intros parent object model; [done|].
  rewrite createModelRecursion_unfold by done.
  apply forEach_no_Fault. intros c m. apply IH.
Qed.

(** X10: in a model that was constructed and then only updated, no
    assertion of [update] fails, whatever the form looks like, as long
    as no container extension reports a null page: the call returns its
    result, or the walk of the form does not end within the budget. *)
Theorem X10_update_meets_its_assertions (fuel : nat) (h : Host) (fw : Z)
    (st : ObjectInspectorModel) :
  reachable st ->
  (∀ o, Forall (λ p, p ≠ nullptr) (pagesOf h o)) ->
  (∃ r st', update fuel h fw st = Ok (r, st')) ∨
  update fuel h fw st = OutOfFuel.
Proof.
  intros Hreach Hpages. unfold update.
  case_bool_decide as Hmc; [left; eauto|].
  destruct (createModelRecursion fuel h fw nullptr _ [] _) as [N| |] eqn:Hwalk;
    [|by apply createModelRecursion_no_Fault in Hwalk|by right].
  left. cbn [bind].
  destruct (ObjectModel_eq N (m_model (set_formWindow fw st))) eqn:Heq.
  - apply ObjectModel_eq_identity in Heq.
    destruct (updateItemContents_shape N (set_formWindow fw st))
      as (st' & calls & -> & _).
    { apply (f_equal length) in Heq. by rewrite !length_fmap in Heq. }
    simpl. eauto.
  - destruct (rebuild_presents N (set_formWindow fw st)) as (st' & -> & _).
    { simpl. by apply reachable_single_root. }
    { by eapply createModelRecursion_wellFormed. }
    simpl. eauto.
Qed.

Lemma X10_update_meets_its_assertions_witness :
  reachable demoModel ∧
  (∀ o, Forall (λ p, p ≠ nullptr) (pagesOf (demoHost "" false) o)) ∧
  ((∃ r st', update 4 (demoHost "" false) 100 demoModel = Ok (r, st')) ∨
   update 4 (demoHost "" false) 100 demoModel = OutOfFuel).
Proof.
  split; [apply demoModel_reachable|].
  split; [apply demoHost_pages|].
  exact (X10_update_meets_its_assertions 4 (demoHost "" false) 100 demoModel
           demoModel_reachable (demoHost_pages "" false)).
Defined.

(** X11: an object that the walk lists several times (an action shown
    by two menus) looks the same in all its entries: they agree in class
    name, object name, icon, type tag and layout kind, so their change
    mask is empty. *)
Theorem X11_one_object_one_look (fuel : nat) (h : Host) (fwi parent object : Z)
    (N : ObjectModel) (ctx : ModelRecursionContext) (i j : nat) (e1 e2 : ObjectData) :
  createModelRecursion fuel h fwi parent object [] ctx = Ok N ->
  N !! i = Some e1 -> N !! j = Some e2 ->
  m_object e1 = m_object e2 ->
  attributes e1 = attributes e2 ∧ compare e1 e2 = 0%Z.
Proof.
  intros H H1 H2 Ho.
  assert (attributes e1 = attributes e2) as Ha.
  { apply (createModelRecursion_sameObjectSameAttributes _ _ _ _ _ _ _ H);
      [by eapply list_elem_of_lookup_2..|done]. }
  split; [done|]. by apply compare_zero_attributes.
Qed.

Lemma X11_one_object_one_look_witness :
  createModelRecursion 4 (demoHost "actionOpen" true) 100 nullptr 1 [] demoCtx
  = Ok demoSnapshot ∧
  demoSnapshot !! 7 = Some (ObjectData_new (demoHost "actionOpen" true) 1 7 demoCtx) ∧
  demoSnapshot !! 9 = Some (ObjectData_new (demoHost "actionOpen" true) 12 7 demoCtx) ∧
  m_object (ObjectData_new (demoHost "actionOpen" true) 1 7 demoCtx)
  = m_object (ObjectData_new (demoHost "actionOpen" true) 12 7 demoCtx) ∧
  attributes (ObjectData_new (demoHost "actionOpen" true) 1 7 demoCtx)
  = attributes (ObjectData_new (demoHost "actionOpen" true) 12 7 demoCtx) ∧
  compare (ObjectData_new (demoHost "actionOpen" true) 1 7 demoCtx)
          (ObjectData_new (demoHost "actionOpen" true) 12 7 demoCtx) = 0%Z.
Proof.
  assert (createModelRecursion 4 (demoHost "actionOpen" true) 100 nullptr 1 [] demoCtx
          = Ok demoSnapshot) as H by (vm_compute; reflexivity).
  assert (demoSnapshot !! 7
          = Some (ObjectData_new (demoHost "actionOpen" true) 1 7 demoCtx)) as H1
    by (vm_compute; reflexivity).
  assert (demoSnapshot !! 9
          = Some (ObjectData_new (demoHost "actionOpen" true) 12 7 demoCtx)) as H2
    by (vm_compute; reflexivity).
  assert (m_object (ObjectData_new (demoHost "actionOpen" true) 1 7 demoCtx)
          = m_object (ObjectData_new (demoHost "actionOpen" true) 12 7 demoCtx)) as Ho
    by (vm_compute; reflexivity).
  split; [exact H|]. split; [exact H1|]. split; [exact H2|]. split; [exact Ho|].
  exact (X11_one_object_one_look 4 (demoHost "actionOpen" true) 100 nullptr 1
           demoSnapshot demoCtx 7 9 _ _ H H1 H2 Ho).
Defined.

(** ** The model: what the tree holds and what the view reads *)

(** X12: the invariant of the model.  After construction and any number
    of updates, against whatever forms, the index holds one location per
    entry of the stored snapshot, in the order of the entries and under
    the object of each entry; the row at that location is the row filled
    from the entry; no location is used twice and the tree has no other
    rows; and there is at most one top-level row. *)
Theorem X12_tree_and_index_present_the_snapshot (st : ObjectInspectorModel) :
  reachable st ->
  presents (m_model st) st ∧
  length (m_objectIndexMultiMap st) = length (m_model st) ∧
  length (items st) ≤ 1.
Proof.
  intros H. pose proof (reachable_presents st H) as Hp.
  split; [done|]. split; [|by apply reachable_single_root].
  destruct Hp as (HF & _ & _). apply Forall2_length in HF.
  by rewrite length_reverse in HF.
Qed.

Lemma X12_tree_and_index_present_the_snapshot_witness :
  reachable demoModel ∧
  presents (m_model demoModel) demoModel ∧
  length (m_objectIndexMultiMap demoModel) = length (m_model demoModel) ∧
  length (items demoModel) ≤ 1.
Proof.
  split; [apply demoModel_reachable|].
  exact (X12_tree_and_index_present_the_snapshot demoModel demoModel_reachable).
Defined.

(** X13: the index and [objectAt] agree.  In a model that was constructed
    and then only updated, every location that the index holds for an
    object is a first-column index, and [objectAt] returns that object
    for the location and for its sibling in the class name column. *)
Theorem X13_objectAt_returns_the_indexed_object (st : ObjectInspectorModel)
    (o : Z) (index : QModelIndex) :
  reachable st ->
  (o, index) ∈ m_objectIndexMultiMap st ->
  ∃ path, index = Index path ObjectNameColumn ∧
          objectAt st (Index path ObjectNameColumn) = o ∧
          objectAt st (Index path ClassNameColumn) = o.
Proof.
  intros Hreach Hin. apply reachable_presents in Hreach.
  rewrite <- elem_of_reverse in Hin. apply list_elem_of_lookup in Hin as [i Hi].
  destruct (presents_lookup _ _ _ _ Hreach Hi) as (e & path & r & He & [= -> ->] & Hr & Hc).
  exists path. split; [done|].
  unfold objectAt, itemFromIndex. simpl. rewrite Hr, Hc, rowFor_cells. done.
Qed.

Lemma X13_objectAt_returns_the_indexed_object_witness :
  reachable demoModel ∧
  (7%Z, Index [0; 5; 0] 0) ∈ m_objectIndexMultiMap demoModel ∧
  ∃ path, Index [0; 5; 0] 0 = Index path ObjectNameColumn ∧
          objectAt demoModel (Index path ObjectNameColumn) = 7%Z ∧
          objectAt demoModel (Index path ClassNameColumn) = 7%Z.
Proof.
  assert ((7%Z, Index [0; 5; 0] 0) ∈ m_objectIndexMultiMap demoModel) as Hin.
  { vm_compute. repeat constructor. }
  split; [apply demoModel_reachable|]. split; [exact Hin|].
  exact (X13_objectAt_returns_the_indexed_object demoModel 7 (Index [0; 5; 0] 0)
           demoModel_reachable Hin).
Defined.

(** X14: what the view reads.  For the entry at each position of the
    stored snapshot, the location recorded at that position shows, in the
    name column, the object name of the entry (the translated
    placeholder if it is empty, the name itself for editing) with the
    layout icon of a layout widget or layoutable container and no icon
    otherwise; and in the class name column the class name, also as tool
    tip, with the layout icon for a layout widget and the class icon
    otherwise. *)
Theorem X14_data_shows_the_entry (h : Host) (st : ObjectInspectorModel) (i : nat)
    (e : ObjectData) (kv : Z * QModelIndex) :
  reachable st ->
  m_model st !! i = Some e ->
  reverse (m_objectIndexMultiMap st) !! i = Some kv ->
  ∃ path, kv = (m_object e, Index path 0) ∧
    data h st (Index path ObjectNameColumn) DisplayRole
    = VString (if bool_decide (m_objectName e = "")
               then translate h "ObjectInspectorModel" "<noname>"
               else m_objectName e) ∧
    data h st (Index path ObjectNameColumn) EditRole = VString (m_objectName e) ∧
    data h st (Index path ObjectNameColumn) DecorationRole
    = VIcon (nameColumnIcon (m_icons st) e) ∧
    data h st (Index path ClassNameColumn) DisplayRole
    = VString (if bool_decide (m_className e = "")
               then translate h "ObjectInspectorModel" "<noname>"
               else m_className e) ∧
    data h st (Index path ClassNameColumn) ToolTipRole = VString (m_className e) ∧
    data h st (Index path ClassNameColumn) DecorationRole
    = VIcon (classColumnIcon (m_icons st) e).
Proof.
  intros Hreach He Hkv. apply reachable_presents in Hreach.
  destruct (presents_lookup _ _ _ _ Hreach Hkv) as (e' & path & r & He' & -> & Hr & Hc).
  assert (e' = e) as -> by congruence.
  exists path. split; [done|].
  unfold data, QStandardItemModel_data, itemFromIndex.
  rewrite Hr, Hc, rowFor_cells. simpl.
  repeat split; by case_bool_decide.
Qed.

Lemma X14_data_shows_the_entry_witness :
  reachable demoModel ∧
  m_model demoModel !! 5 = Some (ObjectData_new (demoHost "actionOpen" true) 1 8 demoCtx) ∧
  reverse (m_objectIndexMultiMap demoModel) !! 5 = Some (8%Z, Index [0; 2] 0) ∧
  ∃ path, (8%Z, Index [0; 2] 0)
          = (m_object (ObjectData_new (demoHost "actionOpen" true) 1 8 demoCtx),
             Index path 0) ∧
    data (demoHost "actionOpen" true) demoModel (Index path ObjectNameColumn) DisplayRole
    = VString (if bool_decide
                    (m_objectName (ObjectData_new (demoHost "actionOpen" true) 1 8 demoCtx)
                     = "")
               then translate (demoHost "actionOpen" true)
                      "ObjectInspectorModel" "<noname>"
               else m_objectName (ObjectData_new (demoHost "actionOpen" true) 1 8 demoCtx)) ∧
    data (demoHost "actionOpen" true) demoModel (Index path ObjectNameColumn) EditRole
    = VString (m_objectName (ObjectData_new (demoHost "actionOpen" true) 1 8 demoCtx)) ∧
    data (demoHost "actionOpen" true) demoModel (Index path ObjectNameColumn) DecorationRole
    = VIcon (nameColumnIcon (m_icons demoModel)
               (ObjectData_new (demoHost "actionOpen" true) 1 8 demoCtx)) ∧
    data (demoHost "actionOpen" true) demoModel (Index path ClassNameColumn) DisplayRole
    = VString (if bool_decide
                    (m_className (ObjectData_new (demoHost "actionOpen" true) 1 8 demoCtx)
                     = "")
               then translate (demoHost "actionOpen" true)
                      "ObjectInspectorModel" "<noname>"
               else m_className (ObjectData_new (demoHost "actionOpen" true) 1 8 demoCtx)) ∧
    data (demoHost "actionOpen" true) demoModel (Index path ClassNameColumn) ToolTipRole
    = VString (m_className (ObjectData_new (demoHost "actionOpen" true) 1 8 demoCtx)) ∧
    data (demoHost "actionOpen" true) demoModel (Index path ClassNameColumn) DecorationRole
    = VIcon (classColumnIcon (m_icons demoModel)
               (ObjectData_new (demoHost "actionOpen" true) 1 8 demoCtx)).
Proof.
  assert (m_model demoModel !! 5
          = Some (ObjectData_new (demoHost "actionOpen" true) 1 8 demoCtx)) as He
    by (vm_compute; reflexivity).
  assert (reverse (m_objectIndexMultiMap demoModel) !! 5 = Some (8%Z, Index [0; 2] 0))
    as Hkv by (vm_compute; reflexivity).
  split; [apply demoModel_reachable|]. split; [exact He|]. split; [exact Hkv|].
  exact (X14_data_shows_the_entry (demoHost "actionOpen" true) demoModel 5 _ _
           demoModel_reachable He Hkv).
Defined.

(** ** Updating again, and what a rebuild needs *)

Lemma firstChange_same (o : Z) (N : ObjectModel) : firstChange o N N = None.
Proof.
  apply firstChange_None. intros i old new H1 H2 _.
  assert (old = new) as -> by congruence. by apply compare_zero_attributes.
Qed.

Lemma updateItemContents_same (st : ObjectInspectorModel) :
  updateItemContents (m_model st) st = Ok (st, []).
Proof.
  destruct (updateItemContents_shape (m_model st) st eq_refl)
    as (st' & calls & H & _ & _ & Hi & Hic & Hf & _).
  assert (calls = []) as ->.
  { destruct calls as [|c calls]; [done|].
    pose proof (updateItemContents_calls _ _ _ _ (m_object c.1.2) H) as Hc.
    rewrite firstChange_same in Hc. unfold callsFor in Hc.
    rewrite filter_cons, decide_True in Hc by done. done. }
  pose proof (updateItemContents_items _ _ _ _ H) as Hit.
  pose proof (updateItemContents_model _ _ _ _ eq_refl H) as Hm.
  rewrite H. f_equal. f_equal.
  destruct st, st'. simpl in *. by subst.
Qed.

Lemma update_formWindow (fuel : nat) (h : Host) (fw : Z)
    (st st' : ObjectInspectorModel) (r : UpdateResult) :
  length (items st) ≤ 1 ->
  update fuel h fw st = Ok (r, st') ->
  m_formWindow st' = match r with NoForm => nullptr | _ => fw end.
Proof.
  intros Hlen H. unfold update in H.
  case_bool_decide as Hmc; [by injection H as <- <-|].
  apply bind_Ok_inv in H as (N & Hwalk & H).
  destruct (ObjectModel_eq N (m_model (set_formWindow fw st))) eqn:Heq.
  - apply ObjectModel_eq_identity in Heq.
    destruct (updateItemContents_shape N (set_formWindow fw st))
      as (st1 & calls & Hu & _ & _ & _ & _ & Hf & _).
    { apply (f_equal length) in Heq. by rewrite !length_fmap in Heq. }
    rewrite Hu in H. simpl in H. injection H as <- <-. done.
  - destruct (rebuild_presents N (set_formWindow fw st)) as (st1 & Hr & _ & _ & _ & Hf);
      [done|by eapply createModelRecursion_wellFormed|].
    rewrite Hr in H. simpl in H. injection H as <- <-. done.
Qed.

(** X15: updating again changes nothing.  If an update of a model that
    was constructed and then only updated returns, a second update
    against the same form leaves this model exactly as it is, tree, index
    and snapshot, and reports an in-place update (or again that there is
    no form). *)
Theorem X15_update_again_changes_nothing (fuel : nat) (h : Host) (fw : Z)
    (st st' : ObjectInspectorModel) (r : UpdateResult) :
  reachable st ->
  update fuel h fw st = Ok (r, st') ->
  update fuel h fw st'
  = Ok (match r with NoForm => NoForm | _ => Updated end, st').
Proof.
  intros Hreach H. pose proof (reachable_single_root st Hreach) as Hlen.
  pose proof (update_formWindow _ _ _ _ _ _ Hlen H) as Hfw.
  pose proof (update_model _ _ _ _ _ _ H) as Hm.
  unfold update in H |- *. cbv zeta in H |- *.
  set (mc := if bool_decide (fw ≠ nullptr) then mainContainer h fw else nullptr) in *.
  destruct (bool_decide (mc = nullptr)) eqn:Hmc.
  - injection H as <- <-. f_equal. f_equal.
    unfold clearItems, set_formWindow, set_items, set_model, set_objectIndexMultiMap.
    simpl. f_equal. destruct (items st) as [|x [|y l]]; simpl in *; [done..|lia].
  - assert (mc = mainContainer h fw) as Hmceq.
    { subst mc. case_bool_decide; [done|]. by rewrite bool_decide_eq_true_2 in Hmc. }
    rewrite Hmceq in *. clear Hmceq Hmc mc.
    destruct Hm as [[-> _]|[Hr Hwalk]].
    { apply bind_Ok_inv in H as (N & _ & H).
      destruct (ObjectModel_eq _ _).
      - apply bind_Ok_inv in H as ([? ?] & _ & H). by simplify_eq.
      - apply bind_Ok_inv in H as (? & _ & H). by simplify_eq. }
    assert (set_formWindow fw st' = st') as ->.
    { destruct r; [done| |]; destruct st'; simpl in *; by subst. }
    rewrite Hwalk. cbn [bind].
    replace (ObjectModel_eq (m_model st') (m_model st')) with true
      by (symmetry; by apply ObjectModel_eq_identity).
    rewrite updateItemContents_same. simpl. by destruct r.
Qed.

Lemma X15_update_again_changes_nothing_witness :
  reachable (ObjectInspectorModel_new demoIcons) ∧
  update 4 (demoHost "actionOpen" true) 100 (ObjectInspectorModel_new demoIcons)
  = Ok (Rebuilt, demoModel) ∧
  update 4 (demoHost "actionOpen" true) 100 demoModel = Ok (Updated, demoModel).
Proof.
  split; [constructor|]. split; [apply demoModel_update|].
  exact (X15_update_again_changes_nothing 4 (demoHost "actionOpen" true) 100
           (ObjectInspectorModel_new demoIcons) demoModel Rebuilt
           (reachable_new demoIcons) demoModel_update).
Defined.

Lemma multimap_value_valid (k : Z) (m : ObjectIndexMultiMap) :
  isValid (multimap_value k InvalidIndex m) = true ->
  (k, multimap_value k InvalidIndex m) ∈ m.
Proof.
  unfold multimap_value, multimap_values.
  induction m as [|[k' v] m IH]; intros Hv; [done|].
  rewrite filter_cons in Hv |- *. simpl in Hv |- *. case_decide as Hd.
  - simpl in Hd. subst k'. simpl. left.
  - right. by apply IH.
Qed.

Lemma rebuild_step_parent (e : ObjectData) (st st' : ObjectInspectorModel) :
  rebuild_step e st = Ok st' ->
  ∃ path c k,
    (m_parent e, Index path c) ∈ m_objectIndexMultiMap st ∧
    m_objectIndexMultiMap st'
    = (m_object e, Index (path ++ [k]) 0) :: m_objectIndexMultiMap st.
Proof.
  unfold rebuild_step. intros H.
  destruct (isValid (multimap_value _ _ _)) eqn:Hv; [|done].
  apply multimap_value_valid in Hv.
  destruct (multimap_value (m_parent e) InvalidIndex (m_objectIndexMultiMap st))
    as [|path c]; [done|].
  destruct (lookupRow path (items st)) as [parentItem|]; [|done].
  injection H as <-. by exists path, c, (length (childRows parentItem)).
Qed.

Lemma rebuild_root (e0 : ObjectData) (rest : ObjectModel) (st : ObjectInspectorModel) :
  length (items st) ≤ 1 ->
  ∃ st0, rebuild (e0 :: rest) st = forEach rebuild_step rest st0 ∧
         presents [e0] st0 ∧
         m_objectIndexMultiMap st0 = [(m_object e0, Index [0] 0)].
Proof.
  intros Hlen. unfold rebuild.
  assert (items (clearItems st) = []) as Hclear.
  { simpl. destruct (items st) as [|r [|r' rs]]; simpl in *; [done..|lia]. }
  rewrite Hclear.
  match goal with |- ∃ st0, forEach _ _ ?s = _ ∧ _ => exists s end.
  split; [done|]. split; [|done].
  split; [|split]; simpl.
  - constructor; [|constructor]. simpl. split; [done|].
    eexists _, _. split; [reflexivity|]. split; reflexivity.
  - repeat constructor. by intros ?%elem_of_nil.
  - done.
Qed.

Lemma rebuild_loop_parents (rest : ObjectModel) :
  ∀ (earlier : ObjectModel) (st st' : ObjectInspectorModel),
    presents earlier st ->
    forEach rebuild_step rest st = Ok st' ->
    parentsKnown (m_object <$> earlier) rest.
Proof.
  induction rest as [|e rest IH]; intros earlier st st' Hpres H; [done|].
  cbn [forEach] in H. apply bind_Ok_inv in H as (st1 & H1 & H2).
  assert (m_parent e ∈ m_object <$> earlier) as Hpar.
  { apply rebuild_step_parent in H1 as (path & c & k & Hin & _).
    rewrite <- (presents_keys _ _ Hpres).
    apply list_elem_of_fmap. exists (m_parent e, Index path c).
    split; [done|]. by apply elem_of_reverse. }
  split; [done|].
  destruct (rebuild_step_presents earlier e st Hpres Hpar) as (st1' & H1' & Hpres' & _).
  assert (st1' = st1) as -> by congruence.
  eapply parentsKnown_mono; [|exact (IH _ _ _ Hpres' H2)].
  rewrite fmap_app. intros x [Hx|Hx]%elem_of_app.
  - by right.
  - apply list_elem_of_singleton in Hx as ->. by left.
Qed.

(** X16: what a rebuild needs.  On a model with at most one top-level
    row, [rebuild] returns for a snapshot exactly if every entry after
    the first has its parent object among the objects of the entries
    before it; on any other snapshot the assertion that the parent has a
    location fails. *)
Theorem X16_rebuild_needs_parents_listed_before (e0 : ObjectData) (rest : ObjectModel)
    (st : ObjectInspectorModel) :
  length (items st) ≤ 1 ->
  (∃ st', rebuild (e0 :: rest) st = Ok st') <-> parentsKnown [m_object e0] rest.
Proof.
  intros Hlen. destruct (rebuild_root e0 rest st Hlen) as (st0 & -> & Hpres & _).
  split.
  - intros [st' H]. exact (rebuild_loop_parents rest [e0] st0 st' Hpres H).
  - intros Hk.
    destruct (rebuild_loop_presents rest [e0] [m_object e0] st0 Hpres) as (st' & H & _);
      [done..|]. by exists st'.
Qed.

Lemma X16_rebuild_needs_parents_listed_before_witness :
  length (items (ObjectInspectorModel_new demoIcons)) ≤ 1 ∧
  ((∃ st', rebuild (ObjectData_new (demoHost "actionOpen" true) nullptr 1 demoCtx
                    :: [ObjectData_new (demoHost "actionOpen" true) 1 2 demoCtx])
             (ObjectInspectorModel_new demoIcons) = Ok st') <->
   parentsKnown [m_object (ObjectData_new (demoHost "actionOpen" true) nullptr 1 demoCtx)]
                [ObjectData_new (demoHost "actionOpen" true) 1 2 demoCtx]).
Proof.
  assert (length (items (ObjectInspectorModel_new demoIcons)) ≤ 1) as Hlen
    by (simpl; lia).
  split; [exact Hlen|].
  exact (X16_rebuild_needs_parents_listed_before _ _ _ Hlen).
Defined.

Lemma rebuild_loop_nested (rest : ObjectModel) :
  ∀ (st st' : ObjectInspectorModel),
    Forall (λ kv, ∃ path, kv.2 = Index path 0) (m_objectIndexMultiMap st) ->
    forEach rebuild_step rest st = Ok st' ->
    ∃ kvs, reverse (m_objectIndexMultiMap st')
           = reverse (m_objectIndexMultiMap st) ++ kvs ∧
           nestedBelow (m_objectIndexMultiMap st) rest kvs.
Proof.
  induction rest as [|e rest IH]; intros st st' Hcol H.
  - injection H as <-. exists []. by rewrite app_nil_r.
  - cbn [forEach] in H. apply bind_Ok_inv in H as (st1 & H1 & H2).
    apply rebuild_step_parent in H1 as (path & c & k & Hin & Hidx).
    assert (c = 0) as ->.
    { rewrite Forall_forall in Hcol. destruct (Hcol _ Hin) as [p Hp].
      simpl in Hp. congruence. }
    destruct (IH st1 st') as (kvs & Hrev & Hn); [|done|].
    { rewrite Hidx. constructor; [by eexists|done]. }
    exists ((m_object e, Index (path ++ [k]) 0) :: kvs).
    rewrite Hidx in Hrev, Hn. rewrite reverse_cons, <- app_assoc in Hrev.
    split; [done|]. simpl. split; [done|]. split; [by exists path, k|done].
Qed.

(** X17: the rows of a rebuilt tree nest as the snapshot says.  After a
    rebuild on a model with at most one top-level row, the index holds,
    in the order of insertion, the location of the root entry, which is
    the first top-level row, and then for each further entry a
    first-column location directly below a location recorded before it
    for the parent object of the entry. *)
Theorem X17_rebuild_nests_rows_below_parents (N : ObjectModel)
    (st st' : ObjectInspectorModel) :
  length (items st) ≤ 1 ->
  rebuild N st = Ok st' ->
  match N with
  | [] => m_objectIndexMultiMap st' = []
  | e0 :: rest =>
      ∃ kvs, reverse (m_objectIndexMultiMap st') = (m_object e0, Index [0] 0) :: kvs ∧
             nestedBelow [(m_object e0, Index [0] 0)] rest kvs
  end.
Proof.
  intros Hlen H. destruct N as [|e0 rest]; [by injection H as <-|].
  destruct (rebuild_root e0 rest st Hlen) as (st0 & Heq & _ & Hidx).
  rewrite Heq in H. apply rebuild_loop_nested in H as (kvs & Hrev & Hn).
  - rewrite Hidx in Hrev, Hn. by exists kvs.
  - rewrite Hidx. constructor; [by eexists|done].
Qed.

Lemma X17_rebuild_nests_rows_below_parents_witness :
  length (items (ObjectInspectorModel_new demoIcons)) ≤ 1 ∧
  rebuild demoSnapshot (ObjectInspectorModel_new demoIcons) = Ok (set_model [] demoRebuilt) ∧
  ∃ kvs, reverse (m_objectIndexMultiMap (set_model [] demoRebuilt))
         = (1%Z, Index [0] 0) :: kvs ∧
         nestedBelow [(1%Z, Index [0] 0)] (tail demoSnapshot) kvs.
Proof.
  assert (length (items (ObjectInspectorModel_new demoIcons)) ≤ 1) as Hlen
    by (simpl; lia).
  assert (rebuild demoSnapshot (ObjectInspectorModel_new demoIcons)
          = Ok (set_model [] demoRebuilt)) as H by (vm_compute; reflexivity).
  split; [exact Hlen|]. split; [exact H|].
  exact (X17_rebuild_nests_rows_below_parents demoSnapshot _ _ Hlen H).
Defined.

(** ** The selection of the object inspector *)

Lemma foldl_push_back {A} (l rc : list A) :
  foldl (fun rc o => push_back o rc) rc l = rc ++ l.
Proof.
  revert rc. induction l as [|x l IH]; intros rc; simpl; [by rewrite app_nil_r|].
  rewrite IH. unfold push_back. by rewrite <- app_assoc.
Qed.

(** X18: [Selection::selection] lists the selected objects that are no
    widgets first, then the managed widgets, then the unmanaged widgets,
    each group in its own order; nothing is dropped, added or merged. *)
Theorem X18_selection_order (s : Selection) :
  Selection_selection s = objects s ++ managed s ++ unmanaged s ∧
  length (Selection_selection s)
  = length (objects s) + length (managed s) + length (unmanaged s) ∧
  ∀ o, o ∈ Selection_selection s <-> o ∈ objects s ∨ o ∈ managed s ∨ o ∈ unmanaged s.
Proof.
  assert (Selection_selection s = objects s ++ managed s ++ unmanaged s) as H.
  { unfold Selection_selection. rewrite !foldl_push_back. by rewrite <- app_assoc. }
  rewrite H. split; [done|]. split.
  - rewrite !length_app. lia.
  - intros o. rewrite !elem_of_app. tauto.
Qed.

(** X19: [Selection::empty] holds exactly if [Selection::selection]
    returns no object, and it holds after [Selection::clear]. *)
Theorem X19_selection_empty (s : Selection) :
  (Selection_empty s = true <-> Selection_selection s = []) ∧
  Selection_empty (Selection_clear s) = true ∧
  Selection_selection (Selection_clear s) = [].
Proof.
  split; [|done].
  unfold Selection_selection. rewrite !foldl_push_back.
  unfold Selection_empty.
  destruct (managed s), (unmanaged s), (objects s); simpl; split; done.
Qed.

(** ** qdoc: arguments from the command line and from option files *)

Lemma readArguments_eq (lines allArguments : list string) :
  readArguments lines allArguments
  = allArguments ++ filter (fun l => l ≠ "") (map trimmed lines).
Proof.
  unfold readArguments. revert allArguments.
  induction lines as [|raw lines IH]; intros allArguments; simpl;
    [by rewrite app_nil_r|].
  rewrite IH, filter_cons. case_bool_decide as Hl; simpl.
  - rewrite decide_False by (by intros ?). done.
  - rewrite decide_True by done. unfold push_back. by rewrite <- app_assoc.
Qed.

Lemma argumentsLoop_step (open : string -> option (list string)) (argument : string)
    (arguments allArguments : list string) :
  argumentsLoop open (argument :: arguments) allArguments
  = match expandArgument open argument with
    | Some part => argumentsLoop open arguments (allArguments ++ part)
    | None =>
        qFatal (if bool_decide (QString_remove 0 1 argument = "")
                then "The @ option requires an input file"
                else String.append "Cannot open options file specified with @: "
                                   (QString_remove 0 1 argument))
    end.
Proof.
  cbn [argumentsLoop]. unfold expandArgument.
  destruct (String.prefix "@" argument); [|done].
  case_bool_decide; [done|].
  destruct (open (QString_remove 0 1 argument)) as [lines|]; [|done].
  by rewrite readArguments_eq.
Qed.

Lemma argumentsLoop_Returns (open : string -> option (list string))
    (arguments : list string) :
  ∀ allArguments result,
    argumentsLoop open arguments allArguments = Returns result <->
    ∃ parts, Forall2 (fun a part => expandArgument open a = Some part) arguments parts ∧
             result = allArguments ++ concat parts.
Proof.
  induction arguments as [|a arguments IH]; intros allArguments result.
  - simpl. split.
    + intros [= <-]. exists []. split; [constructor|by rewrite app_nil_r].
    + intros (parts & HF & ->). apply Forall2_nil_inv_l in HF as ->.
      by rewrite app_nil_r.
  - rewrite argumentsLoop_step. destruct (expandArgument open a) as [part|] eqn:Ha.
    + rewrite IH. split.
      * intros (parts & HF & ->). exists (part :: parts).
        split; [by constructor|]. simpl. by rewrite app_assoc.
      * intros (parts & HF & ->).
        apply Forall2_cons_inv_l in HF as (part' & parts' & Hp & HF & ->).
        assert (part' = part) as -> by congruence.
        exists parts'. split; [done|]. simpl. by rewrite app_assoc.
    + split; [done|]. intros (parts & HF & _).
      apply Forall2_cons_inv_l in HF as (part' & parts' & Hp & _). congruence.
Qed.

(** X20: [argumentsFromCommandLineAndFile] returns exactly if every
    argument that starts with [@] names, after the [@], a file that can
    be opened; what it returns is, argument by argument and in their
    order, the argument itself or, in place of [@file], the lines of the
    file, trimmed, without the empty ones.  A line read from a file is
    taken as it is: it is not expanded again, even if it starts with
    [@]. *)
Theorem X20_arguments_are_expanded_in_order (open : string -> option (list string))
    (arguments result : list string) :
  argumentsFromCommandLineAndFile open arguments = Returns result <->
  ∃ parts, Forall2 (fun a part => expandArgument open a = Some part) arguments parts ∧
           result = concat parts.
Proof. unfold argumentsFromCommandLineAndFile. by rewrite argumentsLoop_Returns. Qed.

(** X21: arguments without [@] pass through.  If no argument starts with
    [@], the function returns the arguments as they are, whatever the
    files are; empty arguments are kept too. *)
Theorem X21_arguments_without_at_pass_through (open : string -> option (list string))
    (arguments : list string) :
  Forall (fun a => String.prefix "@" a = false) arguments ->
  argumentsFromCommandLineAndFile open arguments = Returns arguments.
Proof.
  intros H. unfold argumentsFromCommandLineAndFile. apply argumentsLoop_Returns.
  exists ((fun a => [a]) <$> arguments). split.
  - induction H as [|a l Ha H IH]; [constructor|].
    simpl. constructor; [|done]. unfold expandArgument. by rewrite Ha.
  - clear H. induction arguments as [|a l IH]; [done|]. simpl. f_equal. apply IH.
Qed.

Lemma X21_arguments_without_at_pass_through_witness :
  Forall (fun a => String.prefix "@" a = false) ["-outputdir"; "doc"; ""; "a@b.qdocconf"] ∧
  argumentsFromCommandLineAndFile (fun _ => None) ["-outputdir"; "doc"; ""; "a@b.qdocconf"]
  = Returns ["-outputdir"; "doc"; ""; "a@b.qdocconf"].
Proof.
  assert (Forall (fun a => String.prefix "@" a = false)
                 ["-outputdir"; "doc"; ""; "a@b.qdocconf"]) as H
    by (repeat constructor).
  split; [exact H|].
  exact (X21_arguments_without_at_pass_through (fun _ => None) _ H).
Defined.

Lemma argumentsLoop_app (open : string -> option (list string))
    (pre post : list string) :
  ∀ allArguments parts,
    Forall2 (fun a part => expandArgument open a = Some part) pre parts ->
    argumentsLoop open (pre ++ post) allArguments
    = argumentsLoop open post (allArguments ++ concat parts).
Proof.
  induction pre as [|a pre IH]; intros allArguments parts HF.
  - apply Forall2_nil_inv_l in HF as ->. simpl. by rewrite app_nil_r.
  - apply Forall2_cons_inv_l in HF as (part & parts' & Hp & HF & ->).
    rewrite <- app_comm_cons, argumentsLoop_step, Hp.
    rewrite (IH _ parts') by done. simpl. by rewrite app_assoc.
Qed.

(** X22: the first argument that cannot be expanded ends the process.
    If the arguments before it can all be expanded, an argument that is
    just [@] ends [argumentsFromCommandLineAndFile] with the message that
    the option requires an input file, and an argument [@file] whose file
    cannot be opened ends it with the message that names the file;
    nothing is returned, whatever comes after. *)
Theorem X22_first_bad_argument_is_fatal (open : string -> option (list string))
    (pre post : list string) (parts : list (list string)) (file : string) :
  Forall2 (fun a part => expandArgument open a = Some part) pre parts ->
  (file = "" ∨ open file = None) ->
  argumentsFromCommandLineAndFile open (pre ++ String.append "@" file :: post)
  = qFatal (if bool_decide (file = "")
            then "The @ option requires an input file"
            else String.append "Cannot open options file specified with @: " file).
Proof.
  intros HF Hbad. unfold argumentsFromCommandLineAndFile.
  rewrite (argumentsLoop_app _ _ _ _ _ HF), argumentsLoop_step.
  assert (QString_remove 0 1 (String.append "@" file) = file) as Hfile.
  { unfold QString_remove. cbv [String.append]. simpl.
    rewrite Nat.sub_0_r. apply substring_0_length. }
  unfold expandArgument. rewrite Hfile.
  replace (String.prefix "@" (String.append "@" file)) with true
    by (cbv [String.append]; simpl; by destruct file).
  case_bool_decide as Hf; [done|].
  destruct Hbad as [? | ->]; done.
Qed.

Lemma X22_first_bad_argument_is_fatal_witness :
  Forall2 (fun a part =>
             expandArgument (fun f => if bool_decide (f = "args.txt")
                                      then Some ["-debug  "; ""; "  x.qdocconf"]
                                      else None) a = Some part)
          ["-prepare"; "@args.txt"] [["-prepare"]; ["-debug"; "x.qdocconf"]] ∧
  ("more.txt" = "" ∨
   (fun f => if bool_decide (f = "args.txt")
             then Some ["-debug  "; ""; "  x.qdocconf"] else None) "more.txt" = None) ∧
  argumentsFromCommandLineAndFile
    (fun f => if bool_decide (f = "args.txt")
              then Some ["-debug  "; ""; "  x.qdocconf"] else None)
    (["-prepare"; "@args.txt"] ++ String.append "@" "more.txt" :: ["-generate"])
  = qFatal (if bool_decide ("more.txt" = "")
            then "The @ option requires an input file"
            else String.append "Cannot open options file specified with @: " "more.txt").
Proof.
  set (open := fun f => if bool_decide (f = "args.txt")
                        then Some ["-debug  "; ""; "  x.qdocconf"] else None).
  assert (Forall2 (fun a part => expandArgument open a = Some part)
            ["-prepare"; "@args.txt"] [["-prepare"]; ["-debug"; "x.qdocconf"]]) as HF.
  { repeat constructor. }
  assert ("more.txt" = "" ∨ open "more.txt" = None) as Hbad by (right; reflexivity).
  split; [exact HF|]. split; [exact Hbad|].
  exact (X22_first_bad_argument_is_fatal open _ ["-generate"] _ "more.txt" HF Hbad).
Defined.

(** ** Renaming what the tree shows *)

Lemma update_NoForm_iff (fuel : nat) (h : Host) (fw : Z)
    (st st' : ObjectInspectorModel) (r : UpdateResult) :
  update fuel h fw st = Ok (r, st') ->
  r ≠ NoForm -> fw ≠ nullptr.
Proof.
  intros H Hr ->. unfold update in H. simpl in H. by injection H as <- <-.
Qed.

Lemma reachable_formWindow (st : ObjectInspectorModel) :
  reachable st -> m_formWindow st = nullptr -> m_objectIndexMultiMap st = [].
Proof.
  intros Hreach. pose proof Hreach as H0.
  destruct Hreach as [createIconSet|st fuel h fw r st' Hreach H]; [done|].
  intros Hf.
  pose proof (update_formWindow _ _ _ _ _ _ (reachable_single_root _ Hreach) H) as Hfw.
  destruct (update_model _ _ _ _ _ _ H) as [[-> Hm]|[Hr _]].
  - destruct (reachable_presents _ H0) as (HF & _ & _).
    apply Forall2_length in HF. rewrite Hm, length_reverse in HF.
    by destruct (m_objectIndexMultiMap st').
  - pose proof (update_NoForm_iff _ _ _ _ _ _ H Hr) as Hnz.
    destruct r; [done|congruence..].
Qed.

(** X23: every row of the tree can be renamed.  In a model that was
    constructed and then only updated, an edit of either column of a row
    that the index holds for an object (other than the null pointer)
    succeeds, leaves the model as it is, and pushes exactly one command
    to the history of the current form window: the text property
    command for that object, on [layoutName] if the object is a
    [QLayoutWidget] and on [objectName] otherwise. *)
Theorem X23_rename_reaches_the_indexed_object (h : Host) (st : ObjectInspectorModel)
    (o : Z) (path : list nat) (column : nat) (value : QVariant)
    (hist : CommandHistories) :
  reachable st ->
  (o, Index path 0) ∈ m_objectIndexMultiMap st ->
  o ≠ nullptr ->
  column < NumColumns ->
  m_formWindow st ≠ nullptr ∧
  setData h (Index path column) value EditRole st hist =
    (true, st,
     hist ++ [(m_formWindow st,
               createTextPropertyCommand
                 (if isQLayoutWidget h o then "layoutName" else "objectName")
                 (toString value) o (m_formWindow st))]).
Proof.
  intros Hreach Hin Ho Hc.
  assert (m_formWindow st ≠ nullptr) as Hf.
  { intros Hf. apply (reachable_formWindow _ Hreach) in Hf.
    rewrite Hf in Hin. by apply elem_of_nil in Hin. }
  split; [done|].
  assert (objectAt st (Index path column) = o) as Hat.
  { pose proof (reachable_presents _ Hreach) as Hpres.
    rewrite <- elem_of_reverse in Hin. apply list_elem_of_lookup in Hin as [i Hi].
    destruct (presents_lookup _ _ _ _ Hpres Hi)
      as (e & path' & r & He & [= -> <-] & Hr & Hcells).
    unfold objectAt, itemFromIndex. simpl. rewrite Hr, Hcells, rowFor_cells.
    unfold NumColumns in Hc. by destruct column as [|[|column]]; [..|lia]. }
  unfold setData. rewrite Hat.
  apply Z.eqb_neq in Hf. apply Z.eqb_neq in Ho. by rewrite Hf, Ho.
Qed.

Lemma X23_rename_reaches_the_indexed_object_witness :
  reachable demoModel ∧
  (8%Z, Index [0; 2] 0) ∈ m_objectIndexMultiMap demoModel ∧
  8%Z ≠ nullptr ∧
  1 < NumColumns ∧
  m_formWindow demoModel ≠ nullptr ∧
  setData (demoHost "actionOpen" true) (Index [0; 2] 1) (VString "mainLayout")
          EditRole demoModel [] =
    (true, demoModel,
     [] ++ [(m_formWindow demoModel,
             createTextPropertyCommand
               (if isQLayoutWidget (demoHost "actionOpen" true) 8
                then "layoutName" else "objectName")
               (toString (VString "mainLayout")) 8%Z (m_formWindow demoModel))]).
Proof.
  assert ((8%Z, Index [0; 2] 0) ∈ m_objectIndexMultiMap demoModel) as Hin.
  { vm_compute. repeat constructor. }
  assert (8%Z ≠ nullptr) as Ho by done.
  assert (1 < NumColumns) as Hc by (unfold NumColumns; lia).
  split; [apply demoModel_reachable|]. split; [exact Hin|].
  split; [exact Ho|]. split; [exact Hc|].
  exact (X23_rename_reaches_the_indexed_object (demoHost "actionOpen" true) demoModel
           8 [0; 2] 1 (VString "mainLayout") [] demoModel_reachable Hin Ho Hc).
Defined.
